(** * kube-batch: job model, gang plugin and server options

    A shallow embedding of

    - [pkg/scheduler/api/job_info.go]  (tasks, jobs, aggregates, [FitError]),
    - the gang plugin                  ([readyTaskNum], [validTaskNum],
      [jobReady], the functions registered by [OnSessionOpen], and
      [OnSessionClose]),
    - [cmd/kube-batch/app/options/options.go] ([CheckOptionOrDie]),

    followed by the properties of these functions.

    Conventions.  Go maps are [gmap]s; a [range] over a map visits the
    entries in an unspecified order, so every loop over a map is written
    over an explicit list of entries and the function proper runs it on
    [map_to_list]; the theorems quantify over every permutation of the
    entries where the order could matter.  Go's [int32] and [int] are
    integers in [Z] with the two's complement wrap-around written out.
    A function that can panic returns [option], [None] being the panic.
    Pointers to tasks are modelled by the task values: a task is mutated
    only by [UpdateTaskStatus], after it has been removed from the job.
    The fields of a struct carry a prefix for the struct ([ti_] for
    [TaskInfo], [ji_] for [JobInfo], [ssn_] for [Session]), several structs
    having fields of the same name. *)

From Stdlib Require Import ZArith Lia DecimalString.
From stdpp Require Import gmap strings list fin_maps sorting.

Local Open Scope string_scope.
Local Open Scope list_scope.
Local Open Scope Z_scope.

(** ** Go primitives *)

Module golang.

(** Two's complement interpretation of [z] on [w] bits. *)
Definition wrap (w : Z) (z : Z) : Z :=
  (z + 2 ^ (w - 1)) mod 2 ^ w - 2 ^ (w - 1).

(** The conversion [int32(x)]. *)
Definition int32 (z : Z) : Z := wrap 32 z.

(** The conversion [int(x)] and arithmetic on [int] (64 bits). *)
Definition int (z : Z) : Z := wrap 64 z.
Definition int_add (a b : Z) : Z := int (a + b).

(** Arithmetic on [int32]. *)
Definition int32_sub (a b : Z) : Z := int32 (a - b).

(** [len(m)] for a map. *)
Definition len `{Size M} (m : M) : Z := Z.of_nat (size m).

(** The verbs [%d] and [%v] of [fmt.Sprintf] on an integer. *)
Definition fmt_d (z : Z) : string := NilZero.string_of_int (Z.to_int z).

(** [strings.Join(elems, sep)]. *)
Definition Join (elems : list string) (sep : string) : string :=
  String.concat sep elems.

(** The order of [sort.Strings]: bytewise lexicographic [<=]. *)
Definition string_le (s1 s2 : string) : Prop := String.leb s1 s2 = true.

#[export] Instance string_le_dec : RelDecision string_le.
Proof. intros s1 s2. unfold string_le. apply _. Defined.

(** [sort.Strings]: the sorted rearrangement of the slice. *)
Definition sort_Strings (l : list string) : list string :=
  merge_sort string_le l.

End golang.
Import golang.

(** ** Constants and types of the cluster API *)

(** Modelled from the spec: the constants of k8s.io/api/core/v1 and of
    package v1alpha1 that the gang plugin writes, and the shape of a
    [PodGroupCondition].  The constants are kept symbolic; [NoReason] is
    the reason left unset. *)
Module v1alpha1.

Inductive ConditionStatus : Set :=
| ConditionTrue | ConditionFalse | ConditionUnknown.

Inductive PodGroupConditionType : Set := PodGroupUnschedulableType.

Inductive ConditionReason : Set :=
| NoReason | NotEnoughPodsReason | NotEnoughResourcesReason.

Record PodGroupCondition : Set := mkPodGroupCondition {
  pgc_Type : PodGroupConditionType;
  pgc_Status : ConditionStatus;
  pgc_LastTransitionTime : Z;
  pgc_TransitionID : string;
  pgc_Reason : ConditionReason;
  pgc_Message : string
}.

End v1alpha1.

(** ** Package api *)

Module api.

(** Modelled from the spec: the enumeration [TaskStatus], declared
    elsewhere in the package. *)
Inductive TaskStatus : Set :=
| Pending | Allocated | Pipelined | Binding | Bound
| Running | Releasing | Succeeded | Failed | Unknown.

#[export] Instance TaskStatus_eq_dec : EqDecision TaskStatus.
Proof. solve_decision. Defined.

Definition TaskStatus_code (s : TaskStatus) : nat :=
  match s with
  | Pending => 0 | Allocated => 1 | Pipelined => 2 | Binding => 3
  | Bound => 4 | Running => 5 | Releasing => 6 | Succeeded => 7
  | Failed => 8 | Unknown => 9
  end%nat.

Definition TaskStatus_decode (n : nat) : option TaskStatus :=
  match n with
  | 0 => Some Pending | 1 => Some Allocated | 2 => Some Pipelined
  | 3 => Some Binding | 4 => Some Bound | 5 => Some Running
  | 6 => Some Releasing | 7 => Some Succeeded | 8 => Some Failed
  | 9 => Some Unknown | _ => None
  end%nat.

#[export] Instance TaskStatus_countable : Countable TaskStatus.
Proof.
  apply (inj_countable TaskStatus_code TaskStatus_decode).
  intros []; reflexivity.
Defined.

(** Every status, for sums over the buckets of the status index. *)
Definition all_statuses : list TaskStatus :=
  [Pending; Allocated; Pipelined; Binding; Bound;
   Running; Releasing; Succeeded; Failed; Unknown].

(** Modelled from the spec: [AllocatedStatus], as the data model gives it,
    [{Allocated, Pipelined, Binding, Bound, Running}].  The functions below
    take the predicate as a parameter; this instance is used to run them. *)
Definition spec_AllocatedStatus (s : TaskStatus) : bool :=
  match s with
  | Allocated | Pipelined | Binding | Bound | Running => true
  | _ => false
  end.

(** Modelled from the spec: [Resource], a vector over the named scalar
    dimensions cpu, memory and GPU, with [EmptyResource], [Clone], [Add],
    [LessEqual], [Get], and [Sub] which reports an underflow (a panic)
    when the subtrahend is not dominated by the receiver.  A component
    may be negative: the node-fit deltas read by [FitError] are. *)
Inductive ResourceName : Set := ResourceCPU | ResourceMemory | GPUResourceName.

Record Resource : Set := mkResource {
  MilliCPU : Z;
  Memory : Z;
  MilliGPU : Z
}.

#[export] Instance Resource_eq_dec : EqDecision Resource.
Proof. solve_decision. Defined.

Definition EmptyResource : Resource :=
  {| MilliCPU := 0; Memory := 0; MilliGPU := 0 |}.

Definition Resource_Clone (r : Resource) : Resource :=
  {| MilliCPU := MilliCPU r; Memory := Memory r; MilliGPU := MilliGPU r |}.

Definition Add (r rr : Resource) : Resource :=
  {| MilliCPU := MilliCPU r + MilliCPU rr;
     Memory := Memory r + Memory rr;
     MilliGPU := MilliGPU r + MilliGPU rr |}.

Definition LessEqual (r rr : Resource) : bool :=
  (MilliCPU r <=? MilliCPU rr) && (Memory r <=? Memory rr)
  && (MilliGPU r <=? MilliGPU rr).

Definition Sub (r rr : Resource) : option Resource :=
  if LessEqual rr r then
    Some {| MilliCPU := MilliCPU r - MilliCPU rr;
            Memory := Memory r - Memory rr;
            MilliGPU := MilliGPU r - MilliGPU rr |}
  else None.

Definition Get (r : Resource) (rn : ResourceName) : Z :=
  match rn with
  | ResourceCPU => MilliCPU r
  | ResourceMemory => Memory r
  | GPUResourceName => MilliGPU r
  end.

(** Identifiers are strings ([types.UID]). *)
Abbreviation TaskID := string (only parsing).
Abbreviation JobID := string (only parsing).
Abbreviation QueueID := string (only parsing).

(** A pointer to an object of the cluster API that this code passes on
    without reading it: an address, or [None] for [nil]. *)
Abbreviation Ref := (option N) (only parsing).

Record TaskInfo : Set := mkTaskInfo {
  ti_UID : TaskID;
  ti_Job : JobID;
  ti_Name : string;
  ti_Namespace : string;
  ti_Resreq : Resource;
  ti_InitResreq : Resource;
  ti_NodeName : string;
  ti_Status : TaskStatus;
  ti_Priority : Z;
  ti_VolumeReady : bool;
  ti_Pod : Ref
}.

#[export] Instance TaskInfo_eq_dec : EqDecision TaskInfo.
Proof. solve_decision. Defined.

Definition TaskInfo_Clone (ti : TaskInfo) : TaskInfo :=
  {| ti_UID := ti_UID ti;
     ti_Job := ti_Job ti;
     ti_Name := ti_Name ti;
     ti_Namespace := ti_Namespace ti;
     ti_NodeName := ti_NodeName ti;
     ti_Status := ti_Status ti;
     ti_Priority := ti_Priority ti;
     ti_Pod := ti_Pod ti;
     ti_Resreq := Resource_Clone (ti_Resreq ti);
     ti_InitResreq := Resource_Clone (ti_InitResreq ti);
     ti_VolumeReady := ti_VolumeReady ti |}.

(** [task.Status = status]. *)
Definition set_Status (status : TaskStatus) (ti : TaskInfo) : TaskInfo :=
  {| ti_UID := ti_UID ti;
     ti_Job := ti_Job ti;
     ti_Name := ti_Name ti;
     ti_Namespace := ti_Namespace ti;
     ti_Resreq := ti_Resreq ti;
     ti_InitResreq := ti_InitResreq ti;
     ti_NodeName := ti_NodeName ti;
     ti_Status := status;
     ti_Priority := ti_Priority ti;
     ti_VolumeReady := ti_VolumeReady ti;
     ti_Pod := ti_Pod ti |}.

Abbreviation tasksMap := (gmap string TaskInfo) (only parsing).
Abbreviation NodeResourceMap := (gmap string Resource) (only parsing).

Record JobInfo : Type := mkJobInfo {
  ji_UID : JobID;
  ji_Name : string;
  ji_Namespace : string;
  ji_Queue : QueueID;
  ji_Priority : Z;
  ji_NodeSelector : gmap string string;
  ji_MinAvailable : Z;
  ji_NodesFitDelta : NodeResourceMap;
  ji_TaskStatusIndex : gmap TaskStatus tasksMap;
  ji_Tasks : tasksMap;
  ji_Allocated : Resource;
  ji_TotalRequest : Resource;
  ji_CreationTimestamp : Z;
  ji_PodGroup : Ref;
  ji_PDB : Ref
}.

(** Assignments to the fields of a job that the methods below write. *)
Definition set_Tasks (tasks : tasksMap) (ji : JobInfo) : JobInfo :=
  mkJobInfo (ji_UID ji) (ji_Name ji) (ji_Namespace ji) (ji_Queue ji)
    (ji_Priority ji) (ji_NodeSelector ji) (ji_MinAvailable ji)
    (ji_NodesFitDelta ji) (ji_TaskStatusIndex ji) tasks
    (ji_Allocated ji) (ji_TotalRequest ji) (ji_CreationTimestamp ji)
    (ji_PodGroup ji) (ji_PDB ji).

Definition set_TaskStatusIndex (index : gmap TaskStatus tasksMap)
    (ji : JobInfo) : JobInfo :=
  mkJobInfo (ji_UID ji) (ji_Name ji) (ji_Namespace ji) (ji_Queue ji)
    (ji_Priority ji) (ji_NodeSelector ji) (ji_MinAvailable ji)
    (ji_NodesFitDelta ji) index (ji_Tasks ji)
    (ji_Allocated ji) (ji_TotalRequest ji) (ji_CreationTimestamp ji)
    (ji_PodGroup ji) (ji_PDB ji).

Definition set_Allocated (r : Resource) (ji : JobInfo) : JobInfo :=
  mkJobInfo (ji_UID ji) (ji_Name ji) (ji_Namespace ji) (ji_Queue ji)
    (ji_Priority ji) (ji_NodeSelector ji) (ji_MinAvailable ji)
    (ji_NodesFitDelta ji) (ji_TaskStatusIndex ji) (ji_Tasks ji)
    r (ji_TotalRequest ji) (ji_CreationTimestamp ji)
    (ji_PodGroup ji) (ji_PDB ji).

Definition set_TotalRequest (r : Resource) (ji : JobInfo) : JobInfo :=
  mkJobInfo (ji_UID ji) (ji_Name ji) (ji_Namespace ji) (ji_Queue ji)
    (ji_Priority ji) (ji_NodeSelector ji) (ji_MinAvailable ji)
    (ji_NodesFitDelta ji) (ji_TaskStatusIndex ji) (ji_Tasks ji)
    (ji_Allocated ji) r (ji_CreationTimestamp ji)
    (ji_PodGroup ji) (ji_PDB ji).

(** [fmt.Errorf]: an error is its message. *)
Abbreviation error := string (only parsing).

Section Job.

(** [AllocatedStatus] and [validateStatusUpdate] belong to files of the
    package other than job_info.go; the methods are parametric in
    them. *)
Variable AllocatedStatus : TaskStatus -> bool.
Variable validateStatusUpdate : TaskStatus -> TaskStatus -> option error.

Definition addTaskIndex (ti : TaskInfo) (ji : JobInfo) : JobInfo :=
  let index :=
    match ji_TaskStatusIndex ji !! ti_Status ti with
    | Some _ => ji_TaskStatusIndex ji
    | None => <[ti_Status ti := ∅]> (ji_TaskStatusIndex ji)
    end in
  let tasks := default ∅ (index !! ti_Status ti) in
  set_TaskStatusIndex
    (<[ti_Status ti := <[ti_UID ti := ti]> tasks]> index) ji.

Definition AddTaskInfo (ti : TaskInfo) (ji : JobInfo) : JobInfo :=
  let ji := set_Tasks (<[ti_UID ti := ti]> (ji_Tasks ji)) ji in
  let ji := addTaskIndex ti ji in
  let ji := set_TotalRequest (Add (ji_TotalRequest ji) (ti_Resreq ti)) ji in
  if AllocatedStatus (ti_Status ti) then
    set_Allocated (Add (ji_Allocated ji) (ti_Resreq ti)) ji
  else ji.

Definition deleteTaskIndex (ti : TaskInfo) (ji : JobInfo) : JobInfo :=
  match ji_TaskStatusIndex ji !! ti_Status ti with
  | Some tasks =>
      let tasks := delete (ti_UID ti) tasks in
      let index := <[ti_Status ti := tasks]> (ji_TaskStatusIndex ji) in
      if len tasks =? 0 then
        set_TaskStatusIndex (delete (ti_Status ti) index) ji
      else set_TaskStatusIndex index ji
  | None => ji
  end.

(** [DeleteTaskInfo] returns the job and the error of the source;
    [None] is the panic of [Sub]. *)
Definition DeleteTaskInfo (ti : TaskInfo) (ji : JobInfo)
    : option (JobInfo * option error) :=
  match ji_Tasks ji !! ti_UID ti with
  | Some task =>
      total ← Sub (ji_TotalRequest ji) (ti_Resreq task);
      let ji := set_TotalRequest total ji in
      ji ← (if AllocatedStatus (ti_Status task) then
              allocated ← Sub (ji_Allocated ji) (ti_Resreq task);
              Some (set_Allocated allocated ji)
            else Some ji);
      let ji := set_Tasks (delete (ti_UID task) (ji_Tasks ji)) ji in
      Some (deleteTaskIndex task ji, None)
  | None =>
      Some (ji, Some ("failed to find task <" +:+ ti_Namespace ti +:+ "/"
                      +:+ ti_Name ti +:+ "> in job <" +:+ ji_Namespace ji
                      +:+ "/" +:+ ji_Name ji +:+ ">"))
  end.

(** [UpdateTaskStatus] returns the job, the task as the caller sees it
    afterwards (its status is assigned in place) and the error. *)
Definition UpdateTaskStatus (task : TaskInfo) (status : TaskStatus)
    (ji : JobInfo) : option (JobInfo * TaskInfo * option error) :=
  match validateStatusUpdate (ti_Status task) status with
  | Some err => Some (ji, task, Some err)
  | None =>
      '(ji, _) ← DeleteTaskInfo task ji;
      let task := set_Status status task in
      Some (AddTaskInfo task ji, task, None)
  end.

Definition NewJobInfo (uid : JobID) (tasks : list TaskInfo) : JobInfo :=
  let job :=
    {| ji_UID := uid;
       ji_Name := "";
       ji_Namespace := "";
       ji_Queue := "";
       ji_Priority := 0;
       ji_MinAvailable := 0;
       ji_NodeSelector := ∅;
       ji_NodesFitDelta := ∅;
       ji_Allocated := EmptyResource;
       ji_TotalRequest := EmptyResource;
       ji_TaskStatusIndex := ∅;
       ji_Tasks := ∅;
       ji_CreationTimestamp := 0;
       ji_PodGroup := None;
       ji_PDB := None |} in
  foldl (fun job task => AddTaskInfo task job) job tasks.

(** [Clone], the loop over [ji.Tasks] taken in the order [order]. *)
Definition Clone_in (order : list (TaskID * TaskInfo)) (ji : JobInfo)
    : JobInfo :=
  let info :=
    {| ji_UID := ji_UID ji;
       ji_Name := ji_Name ji;
       ji_Namespace := ji_Namespace ji;
       ji_Queue := ji_Queue ji;
       ji_Priority := ji_Priority ji;
       ji_MinAvailable := ji_MinAvailable ji;
       ji_NodeSelector := ∅;
       ji_Allocated := EmptyResource;
       ji_TotalRequest := EmptyResource;
       ji_NodesFitDelta := ∅;
       ji_PDB := ji_PDB ji;
       ji_PodGroup := ji_PodGroup ji;
       ji_TaskStatusIndex := ∅;
       ji_Tasks := ∅;
       ji_CreationTimestamp := ji_CreationTimestamp ji |} in
  let info :=
    mkJobInfo (ji_UID info) (ji_Name info) (ji_Namespace info)
      (ji_Queue info) (ji_Priority info)
      (foldl (fun sel kv => <[kv.1 := kv.2]> sel) (ji_NodeSelector info)
         (map_to_list (ji_NodeSelector ji)))
      (ji_MinAvailable info) (ji_NodesFitDelta info)
      (ji_TaskStatusIndex info) (ji_Tasks info) (ji_Allocated info)
      (ji_TotalRequest info) (ji_CreationTimestamp info)
      (ji_PodGroup info) (ji_PDB info) in
  foldl (fun info kv => AddTaskInfo (TaskInfo_Clone kv.2) info) info order.

Definition Clone (ji : JobInfo) : JobInfo :=
  Clone_in (map_to_list (ji_Tasks ji)) ji.

End Job.

(** [reasons[k]++] on a [map[string]int]. *)
Definition incr (k : string) (reasons : gmap string Z) : gmap string Z :=
  <[k := int_add (default 0 (reasons !! k)) 1]> reasons.

(** The first loop of [FitError], over [ji.NodesFitDelta], and its body. *)
Definition fitReasons_step (reasons : gmap string Z)
    (kv : string * Resource) : gmap string Z :=
  let v := kv.2 in
  let reasons :=
    if Get v ResourceCPU <? 0 then incr "cpu" reasons else reasons in
  let reasons :=
    if Get v ResourceMemory <? 0 then incr "memory" reasons else reasons in
  if Get v GPUResourceName <? 0 then incr "GPU" reasons else reasons.

Definition fitReasons (nodes : list (string * Resource)) : gmap string Z :=
  foldl fitReasons_step ∅ nodes.

(** The closure [sortReasonsHistogram], over [reasons] in the order
    [hist]. *)
Definition sortReasonsHistogram (hist : list (string * Z)) : list string :=
  sort_Strings
    (foldl (fun reasonStrings kv =>
              reasonStrings ++ [fmt_d kv.2 +:+ " insufficient " +:+ kv.1])
           [] hist).

(** [FitError], with the two map iterations in the orders [nodes] and
    [hist]. *)
Definition FitError_in (nodes : list (string * Resource))
    (hist : list (string * Z)) (ji : JobInfo) : string :=
  if len (ji_NodesFitDelta ji) =? 0 then "0 nodes are available"
  else
    "0/" +:+ fmt_d (len (ji_NodesFitDelta ji)) +:+ " nodes are available, "
    +:+ Join (sortReasonsHistogram hist) ", " +:+ ".".

Definition FitError (ji : JobInfo) : string :=
  let nodes := map_to_list (ji_NodesFitDelta ji) in
  FitError_in nodes (map_to_list (fitReasons nodes)) ji.

(** Modelled from the spec: [ValidateResult], [{pass, reason, message}]. *)
Record ValidateResult : Set := mkValidateResult {
  vr_Pass : bool;
  vr_Reason : v1alpha1.ConditionReason;
  vr_Message : string
}.

End api.
Import api.

(** ** Package framework *)

(** Modelled from the spec: the part of the session that the gang plugin
    uses.  A value of type [interface{}] handed to a plugin function is a
    job or something else, of which only the [%v] rendering is kept.  The
    closures registered by a plugin capture the session and read its jobs
    when they are called: the registered victim filter takes the job map
    as an argument.  [AddJobValidFn] and its siblings store the function
    under the plugin's name. *)
Module framework.

Inductive Object : Type :=
| JobObj (job : JobInfo)
| OtherObj (repr : string).

Abbreviation ValidateFn := (Object -> option ValidateResult) (only parsing).
Abbreviation EvictableFn :=
  (gmap string JobInfo -> TaskInfo -> list TaskInfo -> option (list TaskInfo))
  (only parsing).
Abbreviation CompareFn := (Object -> Object -> option Z) (only parsing).
Abbreviation ReadyFn := (Object -> option bool) (only parsing).

Record Session : Type := mkSession {
  ssn_UID : string;
  ssn_Jobs : gmap string JobInfo;
  jobValidFns : gmap string ValidateFn;
  reclaimableFns : gmap string EvictableFn;
  preemptableFns : gmap string EvictableFn;
  jobOrderFns : gmap string CompareFn;
  jobReadyFns : gmap string ReadyFn
}.

Definition AddJobValidFn (name : string) (fn : ValidateFn) (ssn : Session)
    : Session :=
  mkSession (ssn_UID ssn) (ssn_Jobs ssn) (<[name := fn]> (jobValidFns ssn))
    (reclaimableFns ssn) (preemptableFns ssn) (jobOrderFns ssn)
    (jobReadyFns ssn).

Definition AddReclaimableFn (name : string) (fn : EvictableFn)
    (ssn : Session) : Session :=
  mkSession (ssn_UID ssn) (ssn_Jobs ssn) (jobValidFns ssn)
    (<[name := fn]> (reclaimableFns ssn)) (preemptableFns ssn)
    (jobOrderFns ssn) (jobReadyFns ssn).

Definition AddPreemptableFn (name : string) (fn : EvictableFn)
    (ssn : Session) : Session :=
  mkSession (ssn_UID ssn) (ssn_Jobs ssn) (jobValidFns ssn)
    (reclaimableFns ssn) (<[name := fn]> (preemptableFns ssn))
    (jobOrderFns ssn) (jobReadyFns ssn).

Definition AddJobOrderFn (name : string) (fn : CompareFn) (ssn : Session)
    : Session :=
  mkSession (ssn_UID ssn) (ssn_Jobs ssn) (jobValidFns ssn)
    (reclaimableFns ssn) (preemptableFns ssn)
    (<[name := fn]> (jobOrderFns ssn)) (jobReadyFns ssn).

Definition AddJobReadyFn (name : string) (fn : ReadyFn) (ssn : Session)
    : Session :=
  mkSession (ssn_UID ssn) (ssn_Jobs ssn) (jobValidFns ssn)
    (reclaimableFns ssn) (preemptableFns ssn) (jobOrderFns ssn)
    (<[name := fn]> (jobReadyFns ssn)).

End framework.
Import framework.

(** ** Package metrics *)

(** The calls that [OnSessionClose] makes to the metrics package and to the
    session are recorded as a trace of events, in the order of the calls.
    Messages to the log are not part of the model. *)
Module metrics.

Inductive Event : Type :=
| UpdateUnscheduleTaskCount (jobID : string) (taskCount : Z)
| UpdateUnscheduleJobCount (jobCount : Z)
| RegisterJobRetries (jobID : string)
| UpdateJobCondition (job : JobInfo) (jc : v1alpha1.PodGroupCondition).

End metrics.
Import metrics.

(** ** Package gang *)

Module gang.

Definition Name : string := "gang".

Section Gang.

Variable AllocatedStatus : TaskStatus -> bool.

(** The loop of [readyTaskNum] over the status index in the order
    [index]. *)
Definition readyTaskNum_in (index : list (TaskStatus * gmap string TaskInfo))
    : Z :=
  let occupid :=
    foldl (fun occupid kv =>
             if AllocatedStatus kv.1
                || bool_decide (kv.1 = Succeeded)
                || bool_decide (kv.1 = Pipelined)
             then int_add occupid (len kv.2)
             else occupid)
          0 index in
  int32 occupid.

(** readyTaskNum return the number of tasks that are ready to run. *)
Definition readyTaskNum (job : JobInfo) : Z :=
  readyTaskNum_in (map_to_list (ji_TaskStatusIndex job)).

Definition validTaskNum_in (index : list (TaskStatus * gmap string TaskInfo))
    : Z :=
  let occupied :=
    foldl (fun occupied kv =>
             if AllocatedStatus kv.1
                || bool_decide (kv.1 = Succeeded)
                || bool_decide (kv.1 = Pipelined)
                || bool_decide (kv.1 = Pending)
             then int_add occupied (len kv.2)
             else occupied)
          0 index in
  int32 occupied.

(** validTaskNum return the number of tasks that are valid. *)
Definition validTaskNum (job : JobInfo) : Z :=
  validTaskNum_in (map_to_list (ji_TaskStatusIndex job)).

(** [jobReady]; the type assertion panics on a value that is no job. *)
Definition jobReady (obj : Object) : option bool :=
  match obj with
  | JobObj job =>
      let occupied := readyTaskNum job in
      Some (occupied >=? ji_MinAvailable job)
  | OtherObj _ => None
  end.

Definition validJobFn (obj : Object) : option ValidateResult :=
  match obj with
  | OtherObj repr =>
      Some {| vr_Pass := false;
              vr_Reason := v1alpha1.NoReason;
              vr_Message :=
                "Failed to convert <" +:+ repr +:+ "> to *JobInfo" |}
  | JobObj job =>
      let vtn := validTaskNum job in
      if vtn <? ji_MinAvailable job then
        Some {| vr_Pass := false;
                vr_Reason := v1alpha1.NotEnoughPodsReason;
                vr_Message :=
                  "Not enough valid tasks for gang-scheduling, valid: "
                  +:+ fmt_d vtn +:+ ", min: "
                  +:+ fmt_d (ji_MinAvailable job) |}
      else None
  end.

(** [preemptableFn]; [ssn.Jobs[preemptee.Job]] is [nil] for a job that
    the session does not hold, and [readyTaskNum] panics on it. *)
Definition preemptableFn (jobs : gmap string JobInfo)
    (preemptor : TaskInfo) (preemptees : list TaskInfo)
    : option (list TaskInfo) :=
  foldl (fun victims preemptee =>
           victims ← victims;
           job ← jobs !! ti_Job preemptee;
           let occupid := readyTaskNum job in
           let preemptable :=
             (ji_MinAvailable job <=? int32_sub occupid 1)
             || (ji_MinAvailable job =? 1) in
           if negb preemptable then Some victims
           else Some (victims ++ [preemptee]))
        (Some []) preemptees.

Definition jobOrderFn (l r : Object) : option Z :=
  lReady ← jobReady l;
  rReady ← jobReady r;
  if lReady && rReady then Some 0
  else if lReady then Some 1
  else if rReady then Some (-1)
  else Some 0.

Definition OnSessionOpen (ssn : Session) : Session :=
  let ssn := AddJobValidFn Name validJobFn ssn in
  let ssn := AddReclaimableFn Name preemptableFn ssn in
  let ssn := AddPreemptableFn Name preemptableFn ssn in
  let ssn := AddJobOrderFn Name jobOrderFn ssn in
  AddJobReadyFn Name jobReady ssn.

(** [metav1.Now()]: [clock k] is the time read by the call number [k]
    of one run of [OnSessionClose]. *)
Variable clock : nat -> Z.

(** The body of the loop of [OnSessionClose].  The state is the counter
    [unScheduleJobCount], the number of readings of the clock, and the
    calls made so far. *)
Definition close_step (ssn : Session) (st : option (Z * nat * list Event))
    (kv : string * JobInfo) : option (Z * nat * list Event) :=
  '(unScheduleJobCount, ticks, trace) ← st;
  let job := kv.2 in
  ready ← jobReady (JobObj job);
  if negb ready then
    let unreadyTaskCount :=
      int32_sub (ji_MinAvailable job) (readyTaskNum job) in
    let msg :=
      fmt_d (int32_sub (ji_MinAvailable job) (readyTaskNum job))
      +:+ "/" +:+ fmt_d (len (ji_Tasks job))
      +:+ " tasks in gang unschedulable: " +:+ FitError job in
    let jc :=
      {| v1alpha1.pgc_Type := v1alpha1.PodGroupUnschedulableType;
         v1alpha1.pgc_Status := v1alpha1.ConditionTrue;
         v1alpha1.pgc_LastTransitionTime := clock ticks;
         v1alpha1.pgc_TransitionID := ssn_UID ssn;
         v1alpha1.pgc_Reason := v1alpha1.NotEnoughResourcesReason;
         v1alpha1.pgc_Message := msg |} in
    Some (int_add unScheduleJobCount 1, S ticks,
          trace ++ [UpdateUnscheduleTaskCount (ji_Name job)
                      (int unreadyTaskCount);
                    RegisterJobRetries (ji_Name job);
                    UpdateJobCondition job jc])
  else Some (unScheduleJobCount, ticks, trace).

(** [OnSessionClose], the loop over [ssn.Jobs] in the order [order];
    the result is the trace of the calls made. *)
Definition OnSessionClose_in (order : list (string * JobInfo))
    (ssn : Session) : option (list Event) :=
  '(unScheduleJobCount, _, trace) ←
    foldl (close_step ssn) (Some (0, 0%nat, [])) order;
  Some (trace ++ [UpdateUnscheduleJobCount unScheduleJobCount]).

Definition OnSessionClose (ssn : Session) : option (list Event) :=
  OnSessionClose_in (map_to_list (ssn_Jobs ssn)) ssn.

End Gang.

End gang.

(** ** Package options *)

Module options.

Record ServerOption : Set := mkServerOption {
  Master : string;
  Kubeconfig : string;
  SchedulerName : string;
  SchedulerConf : string;
  SchedulePeriod : Z;
  EnableLeaderElection : bool;
  LockObjectNamespace : string;
  DefaultQueue : string;
  PrintVersion : bool;
  ListenAddress : string
}.

(** NewServerOption creates a new CMServer with a default config. *)
Definition NewServerOption : ServerOption :=
  {| Master := ""; Kubeconfig := ""; SchedulerName := "";
     SchedulerConf := ""; SchedulePeriod := 0;
     EnableLeaderElection := false; LockObjectNamespace := "";
     DefaultQueue := ""; PrintVersion := false; ListenAddress := "" |}.

(** [CheckOptionOrDie] has a pointer receiver: the result is the option
    value after the call and the error returned. *)
Definition CheckOptionOrDie (s : ServerOption)
    : ServerOption * option string :=
  if EnableLeaderElection s && bool_decide (LockObjectNamespace s = "") then
    (s, Some "lock-object-namespace must not be nil when LeaderElection is enabled")
  else (s, None).

End options.

Import gang options.

(** ** Notions used in the statements *)

Section Notions.

Variable AllocatedStatus : TaskStatus -> bool.

(** The statuses that [readyTaskNum] and [validTaskNum] count. *)
Definition ready_status (s : TaskStatus) : bool :=
  AllocatedStatus s || bool_decide (s = Succeeded)
  || bool_decide (s = Pipelined).

Definition valid_status (s : TaskStatus) : bool :=
  AllocatedStatus s || bool_decide (s = Succeeded)
  || bool_decide (s = Pipelined) || bool_decide (s = Pending).

(** The number of entries in the buckets of the statuses that satisfy
    [P], over a listing of the status index. *)
Definition bucket_sum (P : TaskStatus -> bool)
    (index : list (TaskStatus * gmap string TaskInfo)) : nat :=
  sum_list_with (fun kv => if P kv.1 then size kv.2 else 0%nat) index.

Definition bucket_count (P : TaskStatus -> bool) (ji : JobInfo) : nat :=
  bucket_sum P (map_to_list (ji_TaskStatusIndex ji)).

(** The number of entries of the status index of a job. *)
Definition index_size (ji : JobInfo) : nat := bucket_count (fun _ => true) ji.

(** The tasks of the task table whose status satisfies [P], and their
    number. *)
Definition tasks_with (P : TaskStatus -> bool) (tasks : gmap string TaskInfo)
    : gmap string TaskInfo :=
  filter (fun kv => P (ti_Status kv.2) = true) tasks.

Definition task_count (P : TaskStatus -> bool) (ji : JobInfo) : nat :=
  size (tasks_with P (ji_Tasks ji)).

(** The status index that a task table determines: one bucket for each
    status that some task has, holding the tasks of that status. *)
Definition bucket_of (tasks : gmap string TaskInfo) (s : TaskStatus)
    : gmap string TaskInfo :=
  filter (fun kv => ti_Status kv.2 = s) tasks.

Definition index_of (tasks : gmap string TaskInfo)
    : gmap TaskStatus (gmap string TaskInfo) :=
  list_to_map
    (omap (fun s => if decide (bucket_of tasks s = ∅) then None
                    else Some (s, bucket_of tasks s))
          all_statuses).

(** The invariants of a job: tasks are stored under their own id, the
    status index is the one of the task table, and the aggregates are the
    sums of the requests. *)
Definition keys_ok (ji : JobInfo) : Prop :=
  map_Forall (fun uid t => ti_UID t = uid) (ji_Tasks ji).

Definition index_ok (ji : JobInfo) : Prop :=
  ji_TaskStatusIndex ji = index_of (ji_Tasks ji).

Definition sum_Resreq (tasks : gmap string TaskInfo) : Resource :=
  map_fold (fun _ t r => Add r (ti_Resreq t)) EmptyResource tasks.

Definition Allocated_ok (ji : JobInfo) : Prop :=
  ji_Allocated ji = sum_Resreq (tasks_with AllocatedStatus (ji_Tasks ji)).

Definition TotalRequest_ok (ji : JobInfo) : Prop :=
  ji_TotalRequest ji = sum_Resreq (ji_Tasks ji).

Definition job_ok (ji : JobInfo) : Prop :=
  keys_ok ji /\ index_ok ji /\ Allocated_ok ji /\ TotalRequest_ok ji.

(** A run of [AddTaskInfo], as in [NewJobInfo] and in [Clone]; a job
    without tasks; the fields that [AddTaskInfo] leaves alone. *)
Definition adds (ji : JobInfo) (tasks : list TaskInfo) : JobInfo :=
  foldl (fun job task => AddTaskInfo AllocatedStatus task job) ji tasks.

Definition empty_job (ji : JobInfo) : Prop :=
  ji_Tasks ji = ∅ /\ ji_TaskStatusIndex ji = ∅
  /\ ji_Allocated ji = EmptyResource /\ ji_TotalRequest ji = EmptyResource.

Definition same_header (ji ji' : JobInfo) : Prop :=
  ji_UID ji' = ji_UID ji /\ ji_Name ji' = ji_Name ji
  /\ ji_Namespace ji' = ji_Namespace ji /\ ji_Queue ji' = ji_Queue ji
  /\ ji_Priority ji' = ji_Priority ji
  /\ ji_MinAvailable ji' = ji_MinAvailable ji
  /\ ji_CreationTimestamp ji' = ji_CreationTimestamp ji
  /\ ji_PodGroup ji' = ji_PodGroup ji /\ ji_PDB ji' = ji_PDB ji.

(** Requests are not negative. *)
Definition nonneg (r : Resource) : Prop :=
  0 <= MilliCPU r /\ 0 <= Memory r /\ 0 <= MilliGPU r.

Definition requests_nonneg (ji : JobInfo) : Prop :=
  map_Forall (fun _ t => nonneg (ti_Resreq t)) (ji_Tasks ji).

(** The jobs built by [NewJobInfo] from tasks of distinct ids and
    transformed by [AddTaskInfo] on a task whose id the job does not
    hold, by [DeleteTaskInfo] and by [UpdateTaskStatus] when it returns no
    error. *)
Section Reachable.

Variable validateStatusUpdate : TaskStatus -> TaskStatus -> option string.

Inductive reachable : JobInfo -> Prop :=
| reach_new (uid : string) (tasks : list TaskInfo) :
    NoDup (ti_UID <$> tasks) ->
    reachable (NewJobInfo AllocatedStatus uid tasks)
| reach_add (ji : JobInfo) (ti : TaskInfo) :
    reachable ji ->
    ji_Tasks ji !! ti_UID ti = None ->
    reachable (AddTaskInfo AllocatedStatus ti ji)
| reach_delete (ji ji' : JobInfo) (ti : TaskInfo) (err : option string) :
    reachable ji ->
    DeleteTaskInfo AllocatedStatus ti ji = Some (ji', err) ->
    reachable ji'
| reach_update (ji ji' : JobInfo) (task task' : TaskInfo)
    (status : TaskStatus) :
    reachable ji ->
    UpdateTaskStatus AllocatedStatus validateStatusUpdate task status ji
    = Some (ji', task', None) ->
    reachable ji'.

End Reachable.

(** The test that [preemptableFn] makes on the job of a candidate. *)
Definition preemptable (J : JobInfo) : bool :=
  (ji_MinAvailable J <=? int32_sub (readyTaskNum AllocatedStatus J) 1)
  || (ji_MinAvailable J =? 1).

(** The gate of the gang plugin on a candidate victim, in the words of the
    specification: the owning job stays ready without one ready task, or
    its [MinAvailable] is 1. *)
Definition gang_gate (jobs : gmap string JobInfo) (t : TaskInfo) : bool :=
  match jobs !! ti_Job t with
  | Some J =>
      bool_decide (ji_MinAvailable J <= readyTaskNum AllocatedStatus J - 1
                   \/ ji_MinAvailable J = 1)
  | None => false
  end.

End Notions.

(** The histogram of [FitError] in the words of the specification: the
    number of nodes whose delta for a resource is negative, the string of a
    category, present only for a count that is not zero, and the three
    categories. *)
Definition neg_count (rn : ResourceName) (nodes : list (string * Resource))
    : nat :=
  length (filter (fun kv => Get kv.2 rn < 0) nodes).

Definition category (n : nat) (name : string) : list string :=
  if decide (n = 0%nat) then []
  else [fmt_d (Z.of_nat n) +:+ " insufficient " +:+ name].

Definition categories (nodes : list (string * Resource)) : list string :=
  category (neg_count ResourceCPU nodes) "cpu"
  ++ category (neg_count ResourceMemory nodes) "memory"
  ++ category (neg_count GPUResourceName nodes) "GPU".

(** The entry of the map [reasons] of [FitError] for a category counted [n]
    times, and the entries of the map. *)
Definition reason_entry (n : nat) : option Z :=
  if decide (n = 0%nat) then None else Some (int (Z.of_nat n)).

Definition reason_entries (nodes : list (string * Resource))
    : list (string * Z) :=
  from_option (fun c => [("cpu", c)]) []
    (reason_entry (neg_count ResourceCPU nodes))
  ++ from_option (fun c => [("memory", c)]) []
       (reason_entry (neg_count ResourceMemory nodes))
  ++ from_option (fun c => [("GPU", c)]) []
       (reason_entry (neg_count GPUResourceName nodes)).

(** The report of [OnSessionClose] on one job that is not ready, in the
    words of the specification: the shortfall [A = MinAvailable -
    readyTaskNum] as an [int32], the condition with the message
    ["A/B tasks in gang unschedulable: F"], and the three calls. *)
Section CloseReport.

Variable AllocatedStatus : TaskStatus -> bool.

Definition shortfall (job : JobInfo) : Z :=
  int32_sub (ji_MinAvailable job) (readyTaskNum AllocatedStatus job).

Definition unschedulable_condition (ssn : Session) (time : Z)
    (job : JobInfo) : v1alpha1.PodGroupCondition :=
  {| v1alpha1.pgc_Type := v1alpha1.PodGroupUnschedulableType;
     v1alpha1.pgc_Status := v1alpha1.ConditionTrue;
     v1alpha1.pgc_LastTransitionTime := time;
     v1alpha1.pgc_TransitionID := ssn_UID ssn;
     v1alpha1.pgc_Reason := v1alpha1.NotEnoughResourcesReason;
     v1alpha1.pgc_Message :=
       fmt_d (shortfall job) +:+ "/"
       +:+ fmt_d (Z.of_nat (size (ji_Tasks job)))
       +:+ " tasks in gang unschedulable: " +:+ FitError job |}.

Definition close_report (ssn : Session) (time : Z) (job : JobInfo)
    : list Event :=
  [UpdateUnscheduleTaskCount (ji_Name job) (shortfall job);
   RegisterJobRetries (ji_Name job);
   UpdateJobCondition job (unschedulable_condition ssn time job)].

(** The jobs of a listing that are not ready. *)
Definition unready (jobs : list JobInfo) : list JobInfo :=
  filter (fun job => readyTaskNum AllocatedStatus job < ji_MinAvailable job)
    jobs.

(** The calls made for the jobs of a listing that are not ready, the
    clock having been read [k] times before. *)
Definition reports (clock : nat -> Z) (ssn : Session) (k : nat)
    (jobs : list JobInfo) : list Event :=
  mjoin (imap (fun i job => close_report ssn (clock (k + i)%nat) job)
           (unready jobs)).

End CloseReport.

(** ** Sample tasks, jobs and sessions *)

Module samples.

Definition cpu (milli : Z) : Resource :=
  {| MilliCPU := milli; Memory := 0; MilliGPU := 0 |}.

Definition task (uid : string) (job : string) (status : TaskStatus)
    (req : Resource) : TaskInfo :=
  {| ti_UID := uid; ti_Job := job; ti_Name := uid; ti_Namespace := "ns";
     ti_Resreq := req; ti_InitResreq := req; ti_NodeName := "";
     ti_Status := status; ti_Priority := 1; ti_VolumeReady := false;
     ti_Pod := None |}.

(** What [SetPodGroup] writes from the name, the namespace and the
    [MinMember] of a pod group. *)
Definition named (name : string) (minMember : Z) (ji : JobInfo) : JobInfo :=
  mkJobInfo (ji_UID ji) name "ns" (ji_Queue ji) (ji_Priority ji)
    (ji_NodeSelector ji) minMember (ji_NodesFitDelta ji)
    (ji_TaskStatusIndex ji) (ji_Tasks ji) (ji_Allocated ji)
    (ji_TotalRequest ji) (ji_CreationTimestamp ji) (ji_PodGroup ji)
    (ji_PDB ji).

Definition with_NodesFitDelta (delta : gmap string Resource) (ji : JobInfo)
    : JobInfo :=
  mkJobInfo (ji_UID ji) (ji_Name ji) (ji_Namespace ji) (ji_Queue ji)
    (ji_Priority ji) (ji_NodeSelector ji) (ji_MinAvailable ji) delta
    (ji_TaskStatusIndex ji) (ji_Tasks ji) (ji_Allocated ji)
    (ji_TotalRequest ji) (ji_CreationTimestamp ji) (ji_PodGroup ji)
    (ji_PDB ji).

Definition no_check (from to : TaskStatus) : option string := None.

(** A gang of three of which only two tasks exist, both pending. *)
Definition p1 : TaskInfo := task "p1" "ns/J" Pending (cpu 1000).
Definition p2 : TaskInfo := task "p2" "ns/J" Pending (cpu 1000).
Definition job_short : JobInfo :=
  named "J" 3 (NewJobInfo spec_AllocatedStatus "ns/J" [p1; p2]).

(** A gang of two with two running tasks, and a singleton job. *)
Definition r1 : TaskInfo := task "r1" "ns/A" Running (cpu 1000).
Definition r2 : TaskInfo := task "r2" "ns/A" Running (cpu 1000).
Definition job_A : JobInfo :=
  named "A" 2 (NewJobInfo spec_AllocatedStatus "ns/A" [r1; r2]).
Definition q1 : TaskInfo := task "q1" "ns/B" Pending (cpu 1000).
Definition job_B : JobInfo :=
  named "B" 1 (NewJobInfo spec_AllocatedStatus "ns/B" [q1]).
Definition s1 : TaskInfo := task "s1" "ns/S" Running (cpu 500).
Definition job_S : JobInfo :=
  named "S" 1 (NewJobInfo spec_AllocatedStatus "ns/S" [s1]).

Definition session (jobs : list JobInfo) : Session :=
  {| ssn_UID := "session-1";
     ssn_Jobs := list_to_map ((fun J => (ji_UID J, J)) <$> jobs);
     jobValidFns := ∅; reclaimableFns := ∅; preemptableFns := ∅;
     jobOrderFns := ∅; jobReadyFns := ∅ |}.

(** The same task added twice. *)
Definition job_twice : JobInfo :=
  NewJobInfo spec_AllocatedStatus "ns/J" [r1; r1].

(** Node-fit deltas of three nodes. *)
Definition job_unfit : JobInfo :=
  with_NodesFitDelta
    (list_to_map
       [("n1", {| MilliCPU := -1; Memory := 0; MilliGPU := 0 |});
        ("n2", {| MilliCPU := 0; Memory := -2; MilliGPU := 0 |});
        ("n3", {| MilliCPU := -1; Memory := 0; MilliGPU := -1 |})])
    job_short.

(** The gang of two pending tasks after one of them has been allocated
    and the other deleted. *)
Definition job_new : JobInfo :=
  NewJobInfo spec_AllocatedStatus "ns/J" [p1; p2].
Definition job_updated : JobInfo :=
  from_option (fun r => r.1.1) job_new
    (UpdateTaskStatus spec_AllocatedStatus no_check p1 Allocated job_new).
Definition job_deleted : JobInfo :=
  from_option fst job_updated
    (DeleteTaskInfo spec_AllocatedStatus p2 job_updated).

Definition leader_no_namespace : ServerOption :=
  mkServerOption "" "" "kube-batch" "" 1000000000 true "" "default" false
    ":8080".

End samples.

(** ** Further functions of job_info.go *)

(** Modelled from the spec: the part of a pod ([v1.Pod], of the cluster
    API) that [getJobID] reads, its namespace and its annotations. *)
Record Pod : Type := mkPod {
  pod_Namespace : string;
  pod_Annotations : gmap string string
}.

Section JobID.

(** The annotation key [v1alpha1.GroupNameAnnotationKey], a constant of
    package v1alpha1. *)
Variable GroupNameAnnotationKey : string.

(** [getJobID]; [fmt.Sprintf("%s/%s", ...)] joins the two strings with a
    slash. *)
Definition getJobID (pod : Pod) : string :=
  if negb (len (pod_Annotations pod) =? 0) then
    match pod_Annotations pod !! GroupNameAnnotationKey with
    | Some gn =>
        if negb (Z.of_nat (String.length gn) =? 0) then
          pod_Namespace pod +:+ "/" +:+ gn
        else ""
    | None => ""
    end
  else "".

End JobID.

(** The byte of the slash. *)
Definition slash : Ascii.ascii := Ascii.ascii_of_nat 47.

(** A string without a slash, as the namespaces of the cluster are. *)
Fixpoint no_slash (s : string) : bool :=
  match s with
  | EmptyString => true
  | String c s' => negb (Ascii.eqb c slash) && no_slash s'
  end.



(** [ji.NodesFitDelta = delta]. *)
Definition set_NodesFitDelta (delta : gmap string Resource) (ji : JobInfo)
    : JobInfo :=
  mkJobInfo (ji_UID ji) (ji_Name ji) (ji_Namespace ji) (ji_Queue ji)
    (ji_Priority ji) (ji_NodeSelector ji) (ji_MinAvailable ji) delta
    (ji_TaskStatusIndex ji) (ji_Tasks ji) (ji_Allocated ji)
    (ji_TotalRequest ji) (ji_CreationTimestamp ji) (ji_PodGroup ji)
    (ji_PDB ji).


(** The sum of the requests of a list of tasks. *)
Definition sum_list_Resreq (tasks : list TaskInfo) : Resource :=
  foldl (fun r t => Add r (ti_Resreq t)) EmptyResource tasks.

(** Further samples: a pod of a group, and a job with a succeeded task. *)
(** No delta of a node is negative: the node fits, as far as [FitError]
    tells. *)
Definition fits (v : Resource) : Prop :=
  0 <= Get v ResourceCPU /\ 0 <= Get v ResourceMemory
  /\ 0 <= Get v GPUResourceName.

Module more_samples.

Definition group_key : string := "scheduling.k8s.io/group-name".

Definition pod_a : Pod :=
  {| pod_Namespace := "ns"; pod_Annotations := {[group_key := "J"]} |}.

Definition pod_b : Pod :=
  {| pod_Namespace := "ns";
     pod_Annotations := {[group_key := "J"; "owner" := "batch"]} |}.

Definition pod_plain : Pod :=
  {| pod_Namespace := "ns"; pod_Annotations := ∅ |}.

Definition d1 : TaskInfo :=
  samples.task "d1" "ns/A" Succeeded (samples.cpu 250).

Definition job_mixed : JobInfo :=
  samples.named "A" 2
    (NewJobInfo spec_AllocatedStatus "ns/A"
       [samples.r1; samples.r2; d1; samples.task "w1" "ns/A" Pending
                                      (samples.cpu 100)]).

(** The gang of two running tasks without [r1], with [r1] moved to
    [Pending], and a second task under the id of [r1]. *)
Definition job_A_less : JobInfo :=
  from_option fst samples.job_A
    (DeleteTaskInfo spec_AllocatedStatus samples.r1 samples.job_A).

Definition job_A_moved : JobInfo :=
  from_option (fun r => r.1.1) samples.job_A
    (UpdateTaskStatus spec_AllocatedStatus samples.no_check samples.r1
       Pending samples.job_A).

Definition r1_pending : TaskInfo :=
  samples.task "r1" "ns/A" Pending (samples.cpu 300).

(** The gang of two with three ready tasks, without [r1]; the gang of one
    without its task. *)
Definition job_mixed_less : JobInfo :=
  from_option fst job_mixed
    (DeleteTaskInfo spec_AllocatedStatus samples.r1 job_mixed).

Definition job_S_less : JobInfo :=
  from_option fst samples.job_S
    (DeleteTaskInfo spec_AllocatedStatus samples.s1 samples.job_S).

(** A job with the delta of one node, on which the task fits. *)
Definition job_fit : JobInfo :=
  samples.with_NodesFitDelta {[ "n1" := samples.cpu 10 ]} samples.job_short.

End more_samples.

(** * Properties *)

(** ** Integer conversions *)

Section Wrap.

Lemma wrap_small (w z : Z) :
  0 < w -> - 2 ^ (w - 1) <= z < 2 ^ (w - 1) -> wrap w z = z.
Proof.
  intros Hw Hz. unfold wrap.
  assert (Hp : 2 ^ w = 2 * 2 ^ (w - 1)).
  { rewrite <- Z.pow_succ_r by lia. f_equal. lia. }
  rewrite Z.mod_small by lia. lia.
Qed.

Lemma int32_small (z : Z) : - 2 ^ 31 <= z < 2 ^ 31 -> int32 z = z.
Proof. intros. unfold int32. apply wrap_small; [lia | exact H]. Qed.

Lemma int_small (z : Z) : - 2 ^ 63 <= z < 2 ^ 63 -> int z = z.
Proof. intros. unfold int. apply wrap_small; [lia | exact H]. Qed.

Lemma int32_range (z : Z) : - 2 ^ 31 <= int32 z < 2 ^ 31.
Proof.
  unfold int32, wrap.
  pose proof (Z.mod_pos_bound (z + 2 ^ (32 - 1)) (2 ^ 32) ltac:(lia)).
  change (2 ^ (32 - 1)) with (2 ^ 31) in *.
  change (2 ^ 32) with (2 * 2 ^ 31) in *. lia.
Qed.

(** Adding to a wrapped [int] and wrapping is wrapping the exact sum. *)
Lemma int_add_int_l (a b : Z) : int_add (int a) b = int (a + b).
Proof.
  unfold int_add, int, wrap.
  replace ((a + 2 ^ (64 - 1)) mod 2 ^ 64 - 2 ^ (64 - 1) + b + 2 ^ (64 - 1))
    with ((a + 2 ^ (64 - 1)) mod 2 ^ 64 + b) by lia.
  rewrite Zplus_mod_idemp_l. do 2 f_equal. lia.
Qed.

(** Truncating an [int] to [int32] only depends on the exact value. *)
Lemma int32_int (a : Z) : int32 (int a) = int32 a.
Proof.
  unfold int32, int, wrap.
  rewrite (Z.mod_eq (a + 2 ^ (64 - 1)) (2 ^ 64)) by lia.
  set (q := (a + 2 ^ (64 - 1)) / 2 ^ 64).
  replace (a + 2 ^ (64 - 1) - 2 ^ 64 * q - 2 ^ (64 - 1) + 2 ^ (32 - 1))
    with (a + 2 ^ (32 - 1) + (- (2 ^ 32 * q)) * 2 ^ 32).
  - rewrite Z_mod_plus_full. reflexivity.
  - change (2 ^ 64) with (2 ^ 32 * 2 ^ 32). lia.
Qed.

Lemma int_int32 (a : Z) : int (int32 a) = int32 a.
Proof.
  apply int_small. pose proof (int32_range a). lia.
Qed.

End Wrap.

(** ** Server options *)

(** C9.  [CheckOptionOrDie] returns an error exactly when leader election is
    enabled and the namespace of the lock object is the empty string, and
    it leaves the option value as it was. *)
Theorem CheckOptionOrDie_spec (s : ServerOption) :
  (is_Some (CheckOptionOrDie s).2
   <-> EnableLeaderElection s = true /\ LockObjectNamespace s = "")
  /\ ((CheckOptionOrDie s).2 = None
      <-> ~ (EnableLeaderElection s = true /\ LockObjectNamespace s = ""))
  /\ (CheckOptionOrDie s).1 = s.
Proof.
  unfold CheckOptionOrDie.
  destruct (EnableLeaderElection s); simpl;
    [case_bool_decide as Hns; simpl |];
    rewrite <- ?not_eq_None_Some; split_and!; try reflexivity;
    split; intros; try tauto; try congruence; try (intuition congruence).
Qed.

(** ** Gang plugin: readiness and job order *)

Section GangOrder.

Variable AllocatedStatus : TaskStatus -> bool.

Lemma jobReady_job (J : JobInfo) :
  jobReady AllocatedStatus (JobObj J)
  = Some (bool_decide (ji_MinAvailable J <= readyTaskNum AllocatedStatus J)).
Proof.
  simpl. f_equal. case_bool_decide as H.
  - apply Z.geb_le. exact H.
  - destruct (Z.geb_spec (readyTaskNum AllocatedStatus J) (ji_MinAvailable J));
      [lia | reflexivity].
Qed.

(** C3.  On two jobs the order function of the gang plugin returns 0 when
    both are ready or both are not, 1 when only the left one is ready and
    -1 when only the right one is: a job that is not ready sorts strictly
    before a ready one.  Ready means [readyTaskNum >= MinAvailable]. *)
Theorem jobOrderFn_spec (L R : JobInfo) :
  let ready J := ji_MinAvailable J <= readyTaskNum AllocatedStatus J in
  exists v : Z,
    jobOrderFn AllocatedStatus (JobObj L) (JobObj R) = Some v
    /\ ((ready L <-> ready R) -> v = 0)
    /\ (ready L /\ ~ ready R -> v = 1 /\ 0 < v)
    /\ (~ ready L /\ ready R -> v = -1 /\ v < 0).
Proof.
  intros ready. unfold jobOrderFn. rewrite !jobReady_job. simpl.
  subst ready. simpl.
  do 2 case_bool_decide; simpl; eexists; (split; [reflexivity |]);
    repeat split; intros; try tauto; lia.
Qed.

End GangOrder.

(** ** Gang plugin: the task counts *)

Section GangCount.

Variable AllocatedStatus : TaskStatus -> bool.

Abbreviation ready := (ready_status AllocatedStatus).
Abbreviation valid := (valid_status AllocatedStatus).

(** A counting loop over the index computes the wrapped bucket sum. *)
Lemma count_loop_int (P : TaskStatus -> bool)
    (l : list (TaskStatus * gmap string TaskInfo)) (acc : Z) :
  int (foldl (fun occupied kv =>
                if P kv.1 then int_add occupied (len kv.2) else occupied)
             acc l)
  = int (acc + Z.of_nat (bucket_sum P l)).
Proof.
  revert acc. induction l as [|kv l IH]; intros acc; simpl.
  - f_equal. unfold bucket_sum. simpl. lia.
  - rewrite IH. unfold bucket_sum. simpl.
    destruct (P kv.1).
    + unfold int_add at 1. fold (int_add (int (acc + len kv.2))
        (Z.of_nat (sum_list_with
           (fun kv0 => if P kv0.1 then size kv0.2 else 0%nat) l))).
      rewrite int_add_int_l. f_equal. unfold len. lia.
    + f_equal.
Qed.

Lemma readyTaskNum_in_sum (l : list (TaskStatus * gmap string TaskInfo)) :
  readyTaskNum_in AllocatedStatus l = int32 (Z.of_nat (bucket_sum ready l)).
Proof.
  unfold readyTaskNum_in. rewrite <- int32_int.
  rewrite (count_loop_int ready). rewrite int32_int. reflexivity.
Qed.

Lemma validTaskNum_in_sum (l : list (TaskStatus * gmap string TaskInfo)) :
  validTaskNum_in AllocatedStatus l = int32 (Z.of_nat (bucket_sum valid l)).
Proof.
  unfold validTaskNum_in. rewrite <- int32_int.
  rewrite (count_loop_int valid). rewrite int32_int. reflexivity.
Qed.

Lemma bucket_sum_perm (P : TaskStatus -> bool)
    (l1 l2 : list (TaskStatus * gmap string TaskInfo)) :
  l1 ≡ₚ l2 -> bucket_sum P l1 = bucket_sum P l2.
Proof. intros H. unfold bucket_sum. rewrite H. reflexivity. Qed.

(** The order in which the loop visits the index does not matter. *)
Lemma readyTaskNum_in_perm (J : JobInfo)
    (order : list (TaskStatus * gmap string TaskInfo)) :
  order ≡ₚ map_to_list (ji_TaskStatusIndex J) ->
  readyTaskNum_in AllocatedStatus order = readyTaskNum AllocatedStatus J.
Proof.
  intros H. unfold readyTaskNum. rewrite !readyTaskNum_in_sum.
  rewrite (bucket_sum_perm _ _ _ H). reflexivity.
Qed.

Lemma validTaskNum_in_perm (J : JobInfo)
    (order : list (TaskStatus * gmap string TaskInfo)) :
  order ≡ₚ map_to_list (ji_TaskStatusIndex J) ->
  validTaskNum_in AllocatedStatus order = validTaskNum AllocatedStatus J.
Proof.
  intros H. unfold validTaskNum. rewrite !validTaskNum_in_sum.
  rewrite (bucket_sum_perm _ _ _ H). reflexivity.
Qed.

Lemma bucket_sum_mono (P Q : TaskStatus -> bool)
    (l : list (TaskStatus * gmap string TaskInfo)) :
  (forall s, P s = true -> Q s = true) ->
  (bucket_sum P l <= bucket_sum Q l)%nat.
Proof.
  intros HPQ. unfold bucket_sum.
  induction l as [|kv l IH]; simpl; [lia |].
  destruct (P kv.1) eqn:HP.
  - rewrite (HPQ _ HP). lia.
  - destruct (Q kv.1); lia.
Qed.

Lemma ready_valid (s : TaskStatus) : ready s = true -> valid s = true.
Proof.
  unfold ready_status, valid_status. intros ->. reflexivity.
Qed.

Lemma bucket_count_le_index_size (P : TaskStatus -> bool) (J : JobInfo) :
  (bucket_count P J <= index_size J)%nat.
Proof. apply bucket_sum_mono. reflexivity. Qed.

(** Without overflow the two functions return the bucket counts. *)
Lemma readyTaskNum_exact (J : JobInfo) :
  Z.of_nat (index_size J) < 2 ^ 31 ->
  readyTaskNum AllocatedStatus J = Z.of_nat (bucket_count ready J).
Proof.
  intros Hb. unfold readyTaskNum. rewrite readyTaskNum_in_sum.
  apply int32_small. pose proof (bucket_count_le_index_size ready J).
  unfold bucket_count in *. lia.
Qed.

Lemma validTaskNum_exact (J : JobInfo) :
  Z.of_nat (index_size J) < 2 ^ 31 ->
  validTaskNum AllocatedStatus J = Z.of_nat (bucket_count valid J).
Proof.
  intros Hb. unfold validTaskNum. rewrite validTaskNum_in_sum.
  apply int32_small. pose proof (bucket_count_le_index_size valid J).
  unfold bucket_count in *. lia.
Qed.

(** C10.  For a job whose status index holds fewer than 2^31 tasks (so
    that the conversions to [int32] are exact), [validTaskNum] is at least
    [readyTaskNum], every status counted as ready being counted as valid;
    hence a job that the readiness predicate accepts passes the validity
    check. *)
Theorem validTaskNum_ge_readyTaskNum (J : JobInfo) :
  Z.of_nat (index_size J) < 2 ^ 31 ->
  (forall s, ready s = true -> valid s = true)
  /\ readyTaskNum AllocatedStatus J <= validTaskNum AllocatedStatus J
  /\ (jobReady AllocatedStatus (JobObj J) = Some true ->
      validJobFn AllocatedStatus (JobObj J) = None).
Proof.
  intros Hb.
  assert (Hle : readyTaskNum AllocatedStatus J
                <= validTaskNum AllocatedStatus J).
  { rewrite readyTaskNum_exact, validTaskNum_exact by exact Hb.
    apply Nat2Z.inj_le. apply bucket_sum_mono. exact ready_valid. }
  split; [exact ready_valid |]. split; [exact Hle |].
  rewrite jobReady_job. intros Hr. injection Hr as Hr.
  apply bool_decide_eq_true in Hr. simpl.
  destruct (Z.ltb_spec (validTaskNum AllocatedStatus J) (ji_MinAvailable J));
    [lia | reflexivity].
Qed.

End GangCount.

(** ** Gang plugin: the preemption gate *)

Lemma filter_ext_elem {A} (P Q : A -> Prop) `{!forall x, Decision (P x)}
    `{!forall x, Decision (Q x)} (l : list A) :
  (forall x, x ∈ l -> P x <-> Q x) -> filter P l = filter Q l.
Proof.
  induction l as [|x l IH]; intros Hext; [reflexivity |].
  rewrite !filter_cons.
  rewrite IH by (intros; apply Hext, list_elem_of_further; assumption).
  pose proof (Hext x (list_elem_of_here x l)) as Hx.
  destruct (decide (P x)), (decide (Q x)); tauto || reflexivity.
Qed.

Section GangGate.

Variable AllocatedStatus : TaskStatus -> bool.

Abbreviation preemptable := (preemptable AllocatedStatus).

Lemma preemptableFn_app (jobs : gmap string JobInfo) (preemptor : TaskInfo)
    (l : list TaskInfo) (t : TaskInfo) :
  preemptableFn AllocatedStatus jobs preemptor (l ++ [t])
  = victims ← preemptableFn AllocatedStatus jobs preemptor l;
    job ← jobs !! ti_Job t;
    if negb (preemptable job) then Some victims else Some (victims ++ [t]).
Proof. unfold preemptableFn. rewrite foldl_app. reflexivity. Qed.

(** The victims are the candidates that pass the test, in their order. *)
Lemma preemptableFn_filter (jobs : gmap string JobInfo)
    (preemptor : TaskInfo) (preemptees : list TaskInfo) :
  (forall t, t ∈ preemptees -> is_Some (jobs !! ti_Job t)) ->
  preemptableFn AllocatedStatus jobs preemptor preemptees
  = Some (filter (fun t => (preemptable <$> jobs !! ti_Job t) = Some true)
            preemptees).
Proof.
  induction preemptees as [|t l IH] using rev_ind; intros Hjobs.
  - reflexivity.
  - rewrite preemptableFn_app, IH by (intros; apply Hjobs; set_solver).
    simpl. destruct (Hjobs t ltac:(set_solver)) as [J HJ]. rewrite HJ. simpl.
    rewrite filter_app. simpl. rewrite filter_cons, filter_nil, HJ. simpl.
    destruct (preemptable J); simpl; rewrite ?app_nil_r; reflexivity.
Qed.

(** A candidate whose job the session does not hold makes the function
    panic. *)
Lemma preemptableFn_missing_job (jobs : gmap string JobInfo)
    (preemptor : TaskInfo) (preemptees : list TaskInfo) (t : TaskInfo) :
  t ∈ preemptees -> jobs !! ti_Job t = None ->
  preemptableFn AllocatedStatus jobs preemptor preemptees = None.
Proof.
  induction preemptees as [|t' l IH] using rev_ind; intros Hin Hnone.
  - set_solver.
  - rewrite preemptableFn_app.
    apply elem_of_app in Hin as [Hin | Hin].
    + rewrite IH by assumption. reflexivity.
    + apply list_elem_of_singleton in Hin as ->.
      destruct (preemptableFn AllocatedStatus jobs preemptor l); simpl;
        [rewrite Hnone |]; reflexivity.
Qed.

Lemma int32_sub_1_exact (r : Z) : 0 <= r < 2 ^ 31 -> int32_sub r 1 = r - 1.
Proof. intros. unfold int32_sub. apply int32_small. lia. Qed.

Lemma preemptable_gate (jobs : gmap string JobInfo) (t : TaskInfo)
    (J : JobInfo) :
  jobs !! ti_Job t = Some J ->
  Z.of_nat (index_size J) < 2 ^ 31 ->
  preemptable J = gang_gate AllocatedStatus jobs t.
Proof.
  intros HJ Hb. unfold gang_gate, preemptable. rewrite HJ.
  rewrite int32_sub_1_exact.
  2:{ rewrite readyTaskNum_exact by exact Hb.
      pose proof (bucket_count_le_index_size
                    (ready_status AllocatedStatus) J). lia. }
  case_bool_decide as H.
  - destruct H as [H | H].
    + apply Z.leb_le in H. rewrite H. reflexivity.
    + apply Z.eqb_eq in H. rewrite H. apply orb_true_r.
  - apply orb_false_iff. split.
    + apply Z.leb_gt. lia.
    + apply Z.eqb_neq. lia.
Qed.

(** C1.  When the session holds the job of every candidate, each with
    fewer than 2^31 tasks in its index, the victim filter of the gang
    plugin returns the candidates that pass the gate, in their order: a
    candidate is kept if and only if its job J has
    [MinAvailable <= readyTaskNum - 1] or [MinAvailable = 1].  The same
    function is registered as reclaimable and as preemptable function. *)
Theorem preemptableFn_spec (jobs : gmap string JobInfo)
    (preemptor : TaskInfo) (preemptees : list TaskInfo) :
  (forall t, t ∈ preemptees ->
     exists J, jobs !! ti_Job t = Some J
               /\ Z.of_nat (index_size J) < 2 ^ 31) ->
  exists victims,
    preemptableFn AllocatedStatus jobs preemptor preemptees = Some victims
    /\ victims
       = filter (fun t => gang_gate AllocatedStatus jobs t = true) preemptees
    /\ (forall t,
          t ∈ victims <->
          t ∈ preemptees
          /\ exists J, jobs !! ti_Job t = Some J
               /\ (ji_MinAvailable J <= readyTaskNum AllocatedStatus J - 1
                   \/ ji_MinAvailable J = 1))
    /\ (forall ssn,
          reclaimableFns (OnSessionOpen AllocatedStatus ssn) !! Name
          = Some (preemptableFn AllocatedStatus)
          /\ preemptableFns (OnSessionOpen AllocatedStatus ssn) !! Name
             = Some (preemptableFn AllocatedStatus)).
Proof.
  intros Hjobs.
  assert (Heq : filter (fun t => (preemptable <$> jobs !! ti_Job t) = Some true)
                  preemptees
                = filter (fun t => gang_gate AllocatedStatus jobs t = true)
                    preemptees).
  { apply filter_ext_elem. intros t Ht.
    destruct (Hjobs t Ht) as (J & HJ & Hb).
    rewrite <- (preemptable_gate jobs t J HJ Hb), HJ. simpl.
    split; congruence. }
  eexists. split; [| split; [| split]].
  - rewrite preemptableFn_filter, Heq; [reflexivity |].
    intros t Ht. destruct (Hjobs t Ht) as (J & HJ & _). eauto.
  - reflexivity.
  - intros t. rewrite list_elem_of_filter. unfold gang_gate.
    split.
    + intros [Hg Ht]. split; [exact Ht |].
      destruct (jobs !! ti_Job t) as [J|]; [| discriminate].
      exists J. split; [reflexivity |].
      apply bool_decide_eq_true in Hg. exact Hg.
    + intros [Ht (J & HJ & Hg)]. split; [| exact Ht].
      rewrite HJ. apply bool_decide_eq_true. exact Hg.
  - intros ssn. unfold OnSessionOpen. simpl. split.
    + apply lookup_insert_eq.
    + apply lookup_insert_eq.
Qed.

End GangGate.

(** ** The status index of a task table *)

Section IndexOf.

Implicit Types (tasks : gmap string TaskInfo) (s : TaskStatus).

Lemma sum_list_with_pointwise {A} (f g : A -> nat) (l : list A) :
  (forall x, f x = g x) -> sum_list_with f l = sum_list_with g l.
Proof.
  intros Hfg. induction l as [|x l IH]; simpl; [reflexivity |].
  rewrite Hfg, IH. reflexivity.
Qed.

Lemma sum_list_with_plus {A} (f g : A -> nat) (l : list A) :
  sum_list_with (fun x => (f x + g x)%nat) l
  = (sum_list_with f l + sum_list_with g l)%nat.
Proof. induction l as [|x l IH]; simpl; lia. Qed.

Lemma sum_all_statuses_single (i : TaskStatus) (a : nat) :
  sum_list_with (fun s => if decide (s = i) then a else 0%nat) all_statuses
  = a.
Proof. destruct i; simpl; lia. Qed.

Lemma elem_of_all_statuses s : s ∈ all_statuses.
Proof. destruct s; unfold all_statuses; set_solver. Qed.

(** A sum over the entries of a map keyed by statuses is a sum over all
    statuses. *)
Lemma sum_map_to_list_statuses {V} (F : TaskStatus -> V -> nat)
    (m : gmap TaskStatus V) :
  sum_list_with (fun kv => F kv.1 kv.2) (map_to_list m)
  = sum_list_with (fun s => from_option (F s) 0%nat (m !! s)) all_statuses.
Proof.
  induction m as [|i x m Hi IH] using map_ind.
  - rewrite map_to_list_empty.
    rewrite (sum_list_with_pointwise
               (fun s => from_option (F s) 0%nat (∅ !! s)) (fun _ => 0%nat)).
    + reflexivity.
    + intros s. rewrite lookup_empty. reflexivity.
  - rewrite map_to_list_insert by exact Hi.
    cbn [sum_list_with fst snd]. rewrite IH.
    rewrite (sum_list_with_pointwise
               (fun s => from_option (F s) 0%nat (<[i:=x]> m !! s))
               (fun s => ((if decide (s = i) then F i x else 0)
                          + from_option (F s) 0 (m !! s))%nat)).
    + rewrite sum_list_with_plus, sum_all_statuses_single. reflexivity.
    + intros s. destruct (decide (s = i)) as [-> | Hne].
      * rewrite lookup_insert_eq, Hi. simpl. lia.
      * rewrite lookup_insert_ne by congruence. reflexivity.
Qed.

Lemma index_of_lookup tasks s :
  index_of tasks !! s
  = if decide (bucket_of tasks s = ∅) then None
    else Some (bucket_of tasks s).
Proof.
  unfold index_of. generalize (elem_of_all_statuses s).
  induction all_statuses as [|x l IH]; intros Hin.
  - set_solver.
  - simpl. destruct (decide (s = x)) as [-> | Hne].
    + destruct (decide (bucket_of tasks x = ∅)) as [He | He]; simpl.
      * destruct (decide (x ∈ l)) as [Hx | Hx].
        -- exact (IH Hx).
        -- apply not_elem_of_list_to_map_1. intros Hd.
           apply list_elem_of_fmap in Hd as ([k v] & -> & Hkv).
           apply list_elem_of_omap in Hkv as (y & Hy & Hf).
           destruct (decide (bucket_of tasks y = ∅)); [discriminate |].
           simpl in *. congruence.
      * rewrite lookup_insert_eq. reflexivity.
    + assert (Hl : s ∈ l).
      { apply elem_of_cons in Hin as [? | ?]; [congruence | assumption]. }
      destruct (decide (bucket_of tasks x = ∅)); simpl.
      * apply (IH Hl).
      * rewrite lookup_insert_ne by congruence. apply (IH Hl).
Qed.

Lemma bucket_of_insert tasks s uid t :
  bucket_of (<[uid := t]> tasks) s
  = if decide (ti_Status t = s) then <[uid := t]> (bucket_of tasks s)
    else delete uid (bucket_of tasks s).
Proof.
  unfold bucket_of. destruct (decide (ti_Status t = s)) as [Hs | Hs].
  - apply map_filter_insert_True. exact Hs.
  - rewrite map_filter_insert_False by exact Hs.
    rewrite map_filter_delete. reflexivity.
Qed.

Lemma bucket_of_lookup tasks s uid :
  bucket_of tasks s !! uid
  = t ← tasks !! uid; if decide (ti_Status t = s) then Some t else None.
Proof.
  unfold bucket_of. destruct (tasks !! uid) as [t|] eqn:Ht; simpl.
  - destruct (decide (ti_Status t = s)) as [Hs | Hs].
    + apply map_lookup_filter_Some. split; assumption.
    + apply map_lookup_filter_None. right. intros t' Ht'. simpl.
      congruence.
  - apply map_lookup_filter_None. left. exact Ht.
Qed.

(** The buckets of the statuses satisfying [P] hold the tasks whose status
    satisfies [P]. *)
Lemma sum_buckets_tasks_with (P : TaskStatus -> bool) tasks :
  sum_list_with
    (fun s => if P s then size (bucket_of tasks s) else 0%nat) all_statuses
  = size (tasks_with P tasks).
Proof.
  induction tasks as [|uid t m Hm IH] using map_ind.
  - unfold tasks_with, bucket_of. rewrite map_filter_empty, map_size_empty.
    rewrite (sum_list_with_pointwise _ (fun _ => 0%nat)); [reflexivity |].
    intros s. rewrite map_filter_empty, map_size_empty.
    destruct (P s); reflexivity.
  - rewrite (sum_list_with_pointwise _
               (fun s => ((if decide (s = ti_Status t)
                           then (if P (ti_Status t) then 1 else 0) else 0)
                          + (if P s then size (bucket_of m s) else 0))%nat)).
    + rewrite sum_list_with_plus, sum_all_statuses_single, IH.
      unfold tasks_with.
      destruct (P (ti_Status t)) eqn:HP.
      * rewrite map_filter_insert_True by exact HP.
        rewrite map_size_insert_None; [lia |].
        apply map_lookup_filter_None. left. exact Hm.
      * rewrite map_filter_insert_False by (simpl; congruence).
        rewrite delete_id by exact Hm. lia.
    + intros s. rewrite bucket_of_insert.
      assert (Hb : bucket_of m s !! uid = None).
      { rewrite bucket_of_lookup, Hm. reflexivity. }
      destruct (decide (s = ti_Status t)) as [-> | Hne].
      * rewrite decide_True by reflexivity.
        rewrite map_size_insert_None by exact Hb.
        destruct (P (ti_Status t)); lia.
      * rewrite decide_False by congruence.
        rewrite delete_id by exact Hb. lia.
Qed.

(** For a job whose index is the one of its task table, the buckets count
    the tasks of the table by status. *)
Lemma bucket_count_task_count (P : TaskStatus -> bool) (J : JobInfo) :
  index_ok J -> bucket_count P J = task_count P J.
Proof.
  intros Hok. unfold bucket_count, bucket_sum, task_count.
  rewrite (sum_map_to_list_statuses
             (fun s (b : gmap string TaskInfo) =>
                if P s then size b else 0%nat)).
  rewrite <- sum_buckets_tasks_with. apply sum_list_with_pointwise.
  intros s. rewrite Hok, index_of_lookup.
  destruct (decide (bucket_of (ji_Tasks J) s = ∅)) as [He | He]; simpl.
  - rewrite He, map_size_empty. destruct (P s); reflexivity.
  - reflexivity.
Qed.

Lemma tasks_with_true tasks : tasks_with (fun _ => true) tasks = tasks.
Proof.
  unfold tasks_with. apply map_eq. intros uid.
  destruct (tasks !! uid) as [t|] eqn:Ht.
  - apply map_lookup_filter_Some. split; [exact Ht | reflexivity].
  - apply map_lookup_filter_None. left. exact Ht.
Qed.

Lemma index_size_tasks (J : JobInfo) :
  index_ok J -> index_size J = size (ji_Tasks J).
Proof.
  intros Hok. unfold index_size. rewrite bucket_count_task_count by exact Hok.
  unfold task_count. rewrite tasks_with_true. reflexivity.
Qed.

End IndexOf.

(** ** Gang plugin: job validity *)

Section GangValid.

Variable AllocatedStatus : TaskStatus -> bool.

Abbreviation valid' := (valid_status AllocatedStatus).

(** C2 (amended).  For a job whose status index holds fewer than 2^31
    tasks, the validity function of the gang plugin fails, with reason
    [NotEnoughPods] and the message
    ["Not enough valid tasks for gang-scheduling, valid: X, min: Y"],
    exactly when the number X of tasks in the buckets of the statuses in
    [AllocatedStatus], [Succeeded], [Pipelined] and [Pending] is less than
    Y = [MinAvailable]; otherwise it returns nil.  When the index is the
    one of the task table, X is the number of tasks of the job with such a
    status. *)
Theorem validJobFn_spec (J : JobInfo) :
  Z.of_nat (index_size J) < 2 ^ 31 ->
  let X := Z.of_nat (bucket_count valid' J) in
  validTaskNum AllocatedStatus J = X
  /\ (index_ok J -> bucket_count valid' J = task_count valid' J)
  /\ validJobFn AllocatedStatus (JobObj J)
     = if decide (X < ji_MinAvailable J) then
         Some {| vr_Pass := false;
                 vr_Reason := v1alpha1.NotEnoughPodsReason;
                 vr_Message :=
                   "Not enough valid tasks for gang-scheduling, valid: "
                   +:+ fmt_d X +:+ ", min: "
                   +:+ fmt_d (ji_MinAvailable J) |}
       else None.
Proof.
  intros Hb X.
  assert (HX : validTaskNum AllocatedStatus J = X)
    by (apply validTaskNum_exact; exact Hb).
  split; [exact HX |]. split; [apply bucket_count_task_count |].
  simpl. rewrite HX.
  destruct (Z.ltb_spec X (ji_MinAvailable J)).
  - rewrite decide_True by assumption. reflexivity.
  - rewrite decide_False by lia. reflexivity.
Qed.

End GangValid.

(** C2, as stated: on the gang of three with two pending tasks the function
    fails, and its message is not the one without the spaces after the
    colons. *)
Lemma validJobFn_message_differs :
  Z.of_nat (task_count (valid_status spec_AllocatedStatus) samples.job_short)
  = 2
  /\ ji_MinAvailable samples.job_short = 3
  /\ validJobFn spec_AllocatedStatus (JobObj samples.job_short)
     <> Some {| vr_Pass := false;
                vr_Reason := v1alpha1.NotEnoughPodsReason;
                vr_Message :=
                  "Not enough valid tasks for gang-scheduling, valid:2, min:3" |}
  /\ validJobFn spec_AllocatedStatus (JobObj samples.job_short)
     = Some {| vr_Pass := false;
               vr_Reason := v1alpha1.NotEnoughPodsReason;
               vr_Message :=
                 "Not enough valid tasks for gang-scheduling, valid: 2, min: 3" |}.
Proof.
  split; [vm_compute; reflexivity |].
  split; [reflexivity |].
  assert (H : validJobFn spec_AllocatedStatus (JobObj samples.job_short)
     = Some {| vr_Pass := false;
               vr_Reason := v1alpha1.NotEnoughPodsReason;
               vr_Message :=
                 "Not enough valid tasks for gang-scheduling, valid: 2, min: 3" |})
    by (vm_compute; reflexivity).
  split; [| exact H]. rewrite H. intros Heq. discriminate Heq.
Qed.

Lemma validJobFn_spec_witness :
  Z.of_nat (index_size samples.job_short) < 2 ^ 31
  /\ validJobFn spec_AllocatedStatus (JobObj samples.job_short)
     = if decide (Z.of_nat (bucket_count (valid_status spec_AllocatedStatus)
                              samples.job_short)
                  < ji_MinAvailable samples.job_short) then
         Some {| vr_Pass := false;
                 vr_Reason := v1alpha1.NotEnoughPodsReason;
                 vr_Message :=
                   "Not enough valid tasks for gang-scheduling, valid: "
                   +:+ fmt_d (Z.of_nat (bucket_count
                                (valid_status spec_AllocatedStatus)
                                samples.job_short))
                   +:+ ", min: "
                   +:+ fmt_d (ji_MinAvailable samples.job_short) |}
       else None.
Proof.
  assert (Hb : Z.of_nat (index_size samples.job_short) < 2 ^ 31)
    by (vm_compute; reflexivity).
  split; [exact Hb |].
  exact (proj2 (proj2 (validJobFn_spec spec_AllocatedStatus
                         samples.job_short Hb))).
Defined.

(** ** The order of [sort.Strings] *)

Section StringOrder.

Lemma ascii_compare_trans (a b c : Ascii.ascii) (r : comparison) :
  Ascii.compare a b = r -> Ascii.compare b c = r -> Ascii.compare a c = r.
Proof.
  unfold Ascii.compare. intros H1 H2.
  destruct r.
  - apply N.compare_eq_iff in H1, H2. apply N.compare_eq_iff. congruence.
  - apply N.compare_lt_iff in H1, H2. apply N.compare_lt_iff.
    exact (N.lt_trans _ _ _ H1 H2).
  - apply N.compare_gt_iff in H1, H2. apply N.compare_gt_iff.
    exact (N.lt_trans _ _ _ H2 H1).
Qed.

Lemma string_compare_refl (s : string) : String.compare s s = Eq.
Proof.
  induction s as [|a s IH]; simpl; [reflexivity |].
  unfold Ascii.compare. rewrite N.compare_refl. exact IH.
Qed.

Lemma string_compare_lt_trans (s1 s2 s3 : string) :
  String.compare s1 s2 = Lt -> String.compare s2 s3 = Lt ->
  String.compare s1 s3 = Lt.
Proof.
  revert s2 s3. induction s1 as [|a s1 IH]; intros [|b s2] [|c s3];
    simpl; try congruence.
  destruct (Ascii.compare a b) eqn:Hab; try discriminate;
    destruct (Ascii.compare b c) eqn:Hbc; try discriminate; intros H1 H2.
  - apply Ascii.compare_eq_iff in Hab, Hbc. subst.
    unfold Ascii.compare. rewrite N.compare_refl. eauto.
  - apply Ascii.compare_eq_iff in Hab. subst. rewrite Hbc. reflexivity.
  - apply Ascii.compare_eq_iff in Hbc. subst. rewrite Hab. reflexivity.
  - rewrite (ascii_compare_trans a b c Lt Hab Hbc). reflexivity.
Qed.

#[export] Instance string_le_trans : Transitive string_le.
Proof.
  intros s1 s2 s3. unfold string_le, String.leb. intros H12 H23.
  destruct (String.compare s1 s2) eqn:E12; try discriminate;
    destruct (String.compare s2 s3) eqn:E23; try discriminate.
  - apply String.compare_eq_iff in E12, E23. subst.
    rewrite string_compare_refl. reflexivity.
  - apply String.compare_eq_iff in E12. subst. rewrite E23. reflexivity.
  - apply String.compare_eq_iff in E23. subst. rewrite E12. reflexivity.
  - rewrite (string_compare_lt_trans _ _ _ E12 E23). reflexivity.
Qed.

#[export] Instance string_le_total : Total string_le.
Proof. intros s1 s2. apply String.leb_total. Qed.

#[export] Instance string_le_antisymm : AntiSymm (=) string_le.
Proof. intros s1 s2. apply String.leb_antisym. Qed.

(** [sort.Strings] returns the sorted rearrangement of its argument. *)
Lemma sort_Strings_sorted (l : list string) :
  Sorted string_le (sort_Strings l) /\ sort_Strings l ≡ₚ l.
Proof.
  split; [apply Sorted_merge_sort; apply _ | apply merge_sort_Permutation].
Qed.

Lemma sort_Strings_perm (l1 l2 : list string) :
  l1 ≡ₚ l2 -> sort_Strings l1 = sort_Strings l2.
Proof.
  intros H. apply (Sorted_unique string_le).
  - apply sort_Strings_sorted.
  - apply sort_Strings_sorted.
  - rewrite !(proj2 (sort_Strings_sorted _)). exact H.
Qed.

End StringOrder.

(** ** FitError *)

Section FitErrorFacts.

Implicit Types (nodes : list (string * Resource)) (rn : ResourceName).

Lemma incr_lookup (k key : string) (reasons : gmap string Z) :
  incr k reasons !! key
  = if decide (key = k) then Some (int_add (default 0 (reasons !! k)) 1)
    else reasons !! key.
Proof.
  unfold incr. destruct (decide (key = k)) as [-> | Hne].
  - apply lookup_insert_eq.
  - apply lookup_insert_ne. congruence.
Qed.

Lemma reason_entry_S (n : nat) :
  Some (int_add (default 0 (reason_entry n)) 1) = reason_entry (S n).
Proof.
  unfold reason_entry. rewrite (decide_False (P := S n = 0%nat)) by lia.
  f_equal. destruct (decide (n = 0%nat)) as [-> | Hn]; simpl.
  - reflexivity.
  - rewrite int_add_int_l. f_equal. lia.
Qed.

Lemma neg_count_snoc rn nodes (kv : string * Resource) :
  neg_count rn (nodes ++ [kv])
  = (neg_count rn nodes + if (Get kv.2 rn <? 0)%Z then 1 else 0)%nat.
Proof.
  unfold neg_count. rewrite filter_app, length_app. f_equal.
  rewrite filter_cons, filter_nil.
  destruct (Z.ltb_spec (Get kv.2 rn) 0).
  - rewrite decide_True by assumption. reflexivity.
  - rewrite decide_False by lia. reflexivity.
Qed.

(** The map built by the first loop of [FitError]. *)
Lemma fitReasons_lookup nodes (key : string) :
  fitReasons nodes !! key
  = if decide (key = "cpu") then
      reason_entry (neg_count ResourceCPU nodes)
    else if decide (key = "memory") then
      reason_entry (neg_count ResourceMemory nodes)
    else if decide (key = "GPU") then
      reason_entry (neg_count GPUResourceName nodes)
    else None.
Proof.
  revert key. induction nodes as [|kv nodes IH] using rev_ind; intros key.
  - unfold fitReasons. cbn [foldl]. rewrite lookup_empty.
    repeat case_decide; reflexivity.
  - unfold fitReasons. rewrite foldl_app. cbn [foldl].
    fold (fitReasons nodes). rewrite !neg_count_snoc.
    unfold fitReasons_step. cbv zeta.
    destruct (Get kv.2 ResourceCPU <? 0), (Get kv.2 ResourceMemory <? 0),
      (Get kv.2 GPUResourceName <? 0);
      rewrite ?incr_lookup, ?IH, ?Nat.add_0_r, ?Nat.add_1_r;
      repeat (case_decide; subst; try congruence);
      rewrite ?reason_entry_S; reflexivity.
Qed.

Lemma fitReasons_entries nodes :
  fitReasons nodes = list_to_map (reason_entries nodes).
Proof.
  apply map_eq. intros key. rewrite fitReasons_lookup.
  unfold reason_entries.
  destruct (reason_entry (neg_count ResourceCPU nodes)),
    (reason_entry (neg_count ResourceMemory nodes)),
    (reason_entry (neg_count GPUResourceName nodes)); simpl;
    repeat (case_decide; subst; try congruence);
    simplify_map_eq; reflexivity.
Qed.

Lemma reason_entries_NoDup nodes : NoDup (reason_entries nodes).*1.
Proof.
  unfold reason_entries.
  destruct (reason_entry (neg_count ResourceCPU nodes)),
    (reason_entry (neg_count ResourceMemory nodes)),
    (reason_entry (neg_count GPUResourceName nodes)); simpl;
    compute_done.
Qed.

Lemma fitReasons_to_list nodes :
  map_to_list (fitReasons nodes) ≡ₚ reason_entries nodes.
Proof.
  rewrite fitReasons_entries. apply map_to_list_to_map.
  apply reason_entries_NoDup.
Qed.

Lemma reasonStrings_fmap (f : string * Z -> string)
    (hist : list (string * Z)) (acc : list string) :
  foldl (fun reasonStrings kv => reasonStrings ++ [f kv]) acc hist
  = acc ++ (f <$> hist).
Proof.
  revert acc. induction hist as [|kv hist IH]; intros acc; simpl.
  - rewrite app_nil_r. reflexivity.
  - rewrite IH, <- app_assoc. reflexivity.
Qed.

Lemma neg_count_le rn nodes : (neg_count rn nodes <= length nodes)%nat.
Proof. apply length_filter. Qed.

Lemma neg_count_perm rn nodes nodes' :
  nodes ≡ₚ nodes' -> neg_count rn nodes = neg_count rn nodes'.
Proof. intros H. unfold neg_count. rewrite H. reflexivity. Qed.

(** Without overflow of the counters the strings of the entries are the
    categories. *)
Lemma reason_entries_categories nodes :
  Z.of_nat (length nodes) < 2 ^ 63 ->
  (fun kv : string * Z => fmt_d kv.2 +:+ " insufficient " +:+ kv.1)
    <$> reason_entries nodes
  = categories nodes.
Proof.
  intros Hb. unfold reason_entries, categories, category, reason_entry.
  pose proof (neg_count_le ResourceCPU nodes).
  pose proof (neg_count_le ResourceMemory nodes).
  pose proof (neg_count_le GPUResourceName nodes).
  rewrite !fmap_app.
  repeat case_decide; simpl; rewrite ?int_small by lia; reflexivity.
Qed.

(** C6.  For the node-fit deltas of a job (fewer than 2^63 of them),
    in whatever order the two maps are visited: with no delta recorded
    [FitError] returns ["0 nodes are available"]; otherwise it returns
    ["0/N nodes are available, S."] where N is the number of deltas and S
    joins with [", "] the sorted list of the strings
    ["k insufficient cpu"], ["m insufficient memory"] and
    ["g insufficient GPU"], each present only for a count that is not
    zero, k, m and g being the numbers of nodes whose delta for cpu,
    memory and GPU is negative. *)
Theorem FitError_spec (ji : JobInfo) nodes (hist : list (string * Z)) :
  nodes ≡ₚ map_to_list (ji_NodesFitDelta ji) ->
  hist ≡ₚ map_to_list (fitReasons nodes) ->
  Z.of_nat (size (ji_NodesFitDelta ji)) < 2 ^ 63 ->
  let N := size (ji_NodesFitDelta ji) in
  let S := sort_Strings (categories (map_to_list (ji_NodesFitDelta ji))) in
  FitError_in nodes hist ji
  = (if decide (N = 0%nat) then "0 nodes are available"
     else "0/" +:+ fmt_d (Z.of_nat N) +:+ " nodes are available, "
          +:+ Join S ", " +:+ ".")
  /\ FitError ji = FitError_in nodes hist ji
  /\ Sorted string_le S
  /\ S ≡ₚ categories (map_to_list (ji_NodesFitDelta ji)).
Proof.
  intros Hnodes Hhist Hb N S.
  assert (Hin : forall nodes' hist',
             nodes' ≡ₚ map_to_list (ji_NodesFitDelta ji) ->
             hist' ≡ₚ map_to_list (fitReasons nodes') ->
             FitError_in nodes' hist' ji
             = (if decide (N = 0%nat) then "0 nodes are available"
                else "0/" +:+ fmt_d (Z.of_nat N)
                     +:+ " nodes are available, " +:+ Join S ", " +:+ ".")).
  { intros nodes' hist' Hn' Hh'. unfold FitError_in, len. fold N.
    destruct (decide (N = 0%nat)) as [HN | HN].
    - rewrite HN. reflexivity.
    - destruct (Z.eqb_spec (Z.of_nat N) 0); [lia |].
      do 5 f_equal. unfold sortReasonsHistogram.
      rewrite reasonStrings_fmap. simpl. subst S.
      apply sort_Strings_perm.
      rewrite Hh', fitReasons_to_list.
      rewrite reason_entries_categories.
      + unfold categories.
        rewrite !(neg_count_perm _ _ _ Hn'). reflexivity.
      + rewrite Hn', length_map_to_list. exact Hb. }
  split; [apply Hin; assumption |].
  split; [| apply sort_Strings_sorted].
  unfold FitError. rewrite !Hin; reflexivity || assumption.
Qed.

End FitErrorFacts.

(** ** Gang plugin: the report at session close *)

Section GangClose.

Variable AllocatedStatus : TaskStatus -> bool.
Variable clock : nat -> Z.

Abbreviation shortfall' := (shortfall AllocatedStatus).
Abbreviation unready' := (unready AllocatedStatus).
Abbreviation report := (close_report AllocatedStatus).

Abbreviation reports := (reports AllocatedStatus clock).

Lemma unready_snoc (jobs : list JobInfo) (job : JobInfo) :
  unready' (jobs ++ [job])
  = unready' jobs
    ++ (if decide (readyTaskNum AllocatedStatus job < ji_MinAvailable job)
        then [job] else []).
Proof. unfold unready. rewrite filter_app, filter_cons, filter_nil. done. Qed.

Lemma reports_snoc (ssn : Session) (jobs : list JobInfo) (job : JobInfo) :
  reports ssn 0 (jobs ++ [job])
  = reports ssn 0 jobs
    ++ (if decide (readyTaskNum AllocatedStatus job < ji_MinAvailable job)
        then report ssn (clock (length (unready' jobs))) job else []).
Proof.
  unfold reports. rewrite unready_snoc, imap_app, join_app.
  f_equal. case_decide; simpl.
  - rewrite Nat.add_0_r. reflexivity.
  - reflexivity.
Qed.

(** The state of the loop after the jobs of [order]. *)
Lemma close_loop (ssn : Session) (order : list (string * JobInfo)) :
  foldl (close_step AllocatedStatus clock ssn) (Some (0, 0%nat, [])) order
  = Some (int (Z.of_nat (length (unready' order.*2))),
          length (unready' order.*2),
          reports ssn 0 order.*2).
Proof.
  induction order as [|kv order IH] using rev_ind.
  - reflexivity.
  - rewrite foldl_app, IH. cbn [foldl]. rewrite fmap_app. cbn [fmap list_fmap].
    rewrite reports_snoc, unready_snoc, length_app.
    unfold close_step. cbn [mbind option_bind]. rewrite jobReady_job.
    cbn [mbind option_bind].
    destruct (decide (readyTaskNum AllocatedStatus kv.2
                      < ji_MinAvailable kv.2)) as [Hlt | Hge].
    + rewrite bool_decide_eq_false_2 by lia. cbn [negb length].
      rewrite int_add_int_l. do 3 f_equal.
      * f_equal. lia.
      * lia.
      * unfold report, close_report, unschedulable_condition, shortfall, len.
        unfold int32_sub at 1. rewrite int_int32. reflexivity.
    + rewrite bool_decide_eq_true_2 by lia. cbn [negb length].
      rewrite Nat.add_0_r, app_nil_r. reflexivity.
Qed.

Lemma unready_perm (jobs jobs' : list JobInfo) :
  jobs ≡ₚ jobs' -> unready' jobs ≡ₚ unready' jobs'.
Proof. intros H. unfold unready. rewrite H. reflexivity. Qed.

Lemma shortfall_exact (job : JobInfo) :
  Z.of_nat (index_size job) < 2 ^ 31 ->
  - 2 ^ 31 <= ji_MinAvailable job < 2 ^ 31 ->
  readyTaskNum AllocatedStatus job < ji_MinAvailable job ->
  shortfall' job = ji_MinAvailable job - readyTaskNum AllocatedStatus job
  /\ 0 < shortfall' job.
Proof.
  intros Hb Hm Hr. unfold shortfall, int32_sub.
  rewrite readyTaskNum_exact in * by exact Hb.
  rewrite int32_small by lia. lia.
Qed.

(** C4.  At session close, with the jobs of the session (fewer than 2^63)
    visited in any order, the gang plugin makes, for each job that is
    not ready and for no other job, the calls
    [UpdateUnscheduleTaskCount(Name, A)], [RegisterJobRetries(Name)] and
    [UpdateJobCondition] with a [PodGroupUnschedulable] condition whose
    transition id is the UID of the session and whose message is
    ["A/B tasks in gang unschedulable: F"], where
    A = [MinAvailable - readyTaskNum], B is the number of tasks of the job
    and F its [FitError]; then it calls [UpdateUnscheduleJobCount] with
    the number of jobs that are not ready. *)
Theorem OnSessionClose_spec (ssn : Session)
    (order : list (string * JobInfo)) :
  order ≡ₚ map_to_list (ssn_Jobs ssn) ->
  Z.of_nat (size (ssn_Jobs ssn)) < 2 ^ 63 ->
  let jobs := unready' order.*2 in
  OnSessionClose_in AllocatedStatus clock order ssn
  = Some (mjoin (imap (fun i job => report ssn (clock i) job) jobs)
          ++ [UpdateUnscheduleJobCount (Z.of_nat (length jobs))])
  /\ jobs ≡ₚ unready' (map_to_list (ssn_Jobs ssn)).*2
  /\ (forall job time,
        report ssn time job
        = [UpdateUnscheduleTaskCount (ji_Name job) (shortfall' job);
           RegisterJobRetries (ji_Name job);
           UpdateJobCondition job
             {| v1alpha1.pgc_Type := v1alpha1.PodGroupUnschedulableType;
                v1alpha1.pgc_Status := v1alpha1.ConditionTrue;
                v1alpha1.pgc_LastTransitionTime := time;
                v1alpha1.pgc_TransitionID := ssn_UID ssn;
                v1alpha1.pgc_Reason := v1alpha1.NotEnoughResourcesReason;
                v1alpha1.pgc_Message :=
                  fmt_d (shortfall' job) +:+ "/"
                  +:+ fmt_d (Z.of_nat (size (ji_Tasks job)))
                  +:+ " tasks in gang unschedulable: " +:+ FitError job |}])
  /\ (forall job,
        job ∈ jobs ->
        Z.of_nat (index_size job) < 2 ^ 31 ->
        - 2 ^ 31 <= ji_MinAvailable job < 2 ^ 31 ->
        shortfall' job
        = ji_MinAvailable job - readyTaskNum AllocatedStatus job).
Proof.
  intros Hperm Hb jobs. split; [| split; [| split]].
  - unfold OnSessionClose_in. rewrite close_loop. cbn [mbind option_bind].
    fold jobs. unfold reports. do 4 f_equal.
    apply int_small.
    assert (length jobs <= length order)%nat.
    { subst jobs. unfold unready.
      etransitivity; [apply length_filter |]. rewrite length_fmap. lia. }
    rewrite Hperm, length_map_to_list in H. lia.
  - subst jobs. apply unready_perm. rewrite Hperm. reflexivity.
  - reflexivity.
  - intros job Hin Hs Hm. apply shortfall_exact; try assumption.
    subst jobs. unfold unready in Hin.
    apply list_elem_of_filter in Hin as [Hr _]. exact Hr.
Qed.

End GangClose.

(** ** Gang plugin: a gang of three with two pending tasks *)

Section GangShortfall.

Variable AllocatedStatus : TaskStatus -> bool.
Variable clock : nat -> Z.

Lemma task_count_none (P : TaskStatus -> bool) (J : JobInfo) :
  map_Forall (fun _ t => P (ti_Status t) = false) (ji_Tasks J) ->
  task_count P J = 0%nat.
Proof.
  intros Hall. unfold task_count, tasks_with.
  apply map_size_empty_iff, map_empty_filter.
  intros uid t Ht. simpl. rewrite (Hall uid t Ht). discriminate.
Qed.

Lemma FitError_no_delta (J : JobInfo) :
  ji_NodesFitDelta J = ∅ -> FitError J = "0 nodes are available".
Proof.
  intros He. unfold FitError, FitError_in, len.
  rewrite He, map_size_empty. reflexivity.
Qed.

(** The report on a session whose only job is not ready. *)
Lemma close_single_unready (ssn : Session) (key : string) (J : JobInfo) :
  ssn_Jobs ssn = {[key := J]} ->
  readyTaskNum AllocatedStatus J < ji_MinAvailable J ->
  OnSessionClose AllocatedStatus clock ssn
  = Some (close_report AllocatedStatus ssn (clock 0) J
          ++ [UpdateUnscheduleJobCount 1]).
Proof.
  intros Hjobs Hr. unfold OnSessionClose, OnSessionClose_in.
  rewrite close_loop, Hjobs, map_to_list_singleton.
  cbn [mbind option_bind fmap list_fmap snd]. unfold reports, unready.
  rewrite filter_cons, filter_nil, decide_True by exact Hr.
  reflexivity.
Qed.

(** C5 (amended).  For a job with [MinAvailable = 3] and exactly two tasks,
    both pending, no node-fit delta, pending not being an allocated
    status, the report at the close of a session that holds this job only
    is: [UpdateUnscheduleTaskCount(Name, 3)], [RegisterJobRetries(Name)],
    a [PodGroupUnschedulable] condition with the message
    ["3/2 tasks in gang unschedulable: 0 nodes are available"], and
    [UpdateUnscheduleJobCount(1)]. *)
Theorem OnSessionClose_gang_of_three (ssn : Session) (key : string)
    (J : JobInfo) :
  AllocatedStatus Pending = false ->
  ssn_Jobs ssn = {[key := J]} ->
  ji_MinAvailable J = 3 ->
  index_ok J ->
  size (ji_Tasks J) = 2%nat ->
  map_Forall (fun _ t => ti_Status t = Pending) (ji_Tasks J) ->
  ji_NodesFitDelta J = ∅ ->
  readyTaskNum AllocatedStatus J = 0
  /\ OnSessionClose AllocatedStatus clock ssn
     = Some [UpdateUnscheduleTaskCount (ji_Name J) 3;
             RegisterJobRetries (ji_Name J);
             UpdateJobCondition J
               {| v1alpha1.pgc_Type := v1alpha1.PodGroupUnschedulableType;
                  v1alpha1.pgc_Status := v1alpha1.ConditionTrue;
                  v1alpha1.pgc_LastTransitionTime := clock 0;
                  v1alpha1.pgc_TransitionID := ssn_UID ssn;
                  v1alpha1.pgc_Reason := v1alpha1.NotEnoughResourcesReason;
                  v1alpha1.pgc_Message :=
                    "3/2 tasks in gang unschedulable: 0 nodes are available" |};
             UpdateUnscheduleJobCount 1].
Proof.
  intros HP Hjobs Hmin Hidx Hsize Hpend Hdelta.
  assert (Hready : readyTaskNum AllocatedStatus J = 0).
  { rewrite readyTaskNum_exact
      by (rewrite index_size_tasks, Hsize by exact Hidx; reflexivity).
    rewrite bucket_count_task_count by exact Hidx.
    rewrite task_count_none; [reflexivity |].
    intros uid t Ht. rewrite (Hpend uid t Ht).
    unfold ready_status. rewrite HP. reflexivity. }
  split; [exact Hready |].
  rewrite (close_single_unready ssn key J Hjobs) by lia.
  unfold close_report, unschedulable_condition, shortfall.
  rewrite Hready, Hmin, Hsize, (FitError_no_delta J Hdelta). reflexivity.
Qed.

End GangShortfall.

(** C5, as stated: on the gang of three with two pending tasks the message
    of the condition starts with 3/2, not with 1/2. *)
Lemma close_message_is_not_one_of_two :
  ji_MinAvailable samples.job_short = 3
  /\ size (ji_Tasks samples.job_short) = 2%nat
  /\ map_Forall (fun _ t => ti_Status t = Pending)
       (ji_Tasks samples.job_short)
  /\ ji_NodesFitDelta samples.job_short = ∅
  /\ exists jc,
       OnSessionClose spec_AllocatedStatus (fun _ => 0)
         (samples.session [samples.job_short])
       = Some [UpdateUnscheduleTaskCount "J" 3; RegisterJobRetries "J";
               UpdateJobCondition samples.job_short jc;
               UpdateUnscheduleJobCount 1]
       /\ v1alpha1.pgc_Message jc
          = "3/2 tasks in gang unschedulable: 0 nodes are available"
       /\ v1alpha1.pgc_Message jc
          <> "1/2 tasks in gang unschedulable: 0 nodes are available".
Proof.
  split; [reflexivity |]. split; [vm_compute; reflexivity |].
  split; [compute_done |]. split; [vm_compute; reflexivity |].
  eexists. split; [vm_compute; reflexivity |].
  split; [reflexivity | discriminate].
Qed.

Lemma OnSessionClose_gang_of_three_witness :
  index_ok samples.job_short
  /\ OnSessionClose spec_AllocatedStatus (fun _ => 0)
       (samples.session [samples.job_short])
     = Some [UpdateUnscheduleTaskCount (ji_Name samples.job_short) 3;
             RegisterJobRetries (ji_Name samples.job_short);
             UpdateJobCondition samples.job_short
               {| v1alpha1.pgc_Type := v1alpha1.PodGroupUnschedulableType;
                  v1alpha1.pgc_Status := v1alpha1.ConditionTrue;
                  v1alpha1.pgc_LastTransitionTime := 0;
                  v1alpha1.pgc_TransitionID :=
                    ssn_UID (samples.session [samples.job_short]);
                  v1alpha1.pgc_Reason := v1alpha1.NotEnoughResourcesReason;
                  v1alpha1.pgc_Message :=
                    "3/2 tasks in gang unschedulable: 0 nodes are available" |};
             UpdateUnscheduleJobCount 1].
Proof.
  assert (Hidx : index_ok samples.job_short) by (vm_compute; reflexivity).
  split; [exact Hidx |].
  refine (proj2 (OnSessionClose_gang_of_three spec_AllocatedStatus
                   (fun _ => 0) (samples.session [samples.job_short])
                   "ns/J" samples.job_short _ _ _ Hidx _ _ _)).
  - reflexivity.
  - vm_compute. reflexivity.
  - reflexivity.
  - vm_compute. reflexivity.
  - compute_done.
  - vm_compute. reflexivity.
Defined.

(** ** Resources *)

Section ResourceFacts.

Implicit Types r s : Resource.

Lemma Resource_eq r s :
  MilliCPU r = MilliCPU s -> Memory r = Memory s ->
  MilliGPU r = MilliGPU s -> r = s.
Proof. destruct r, s; simpl; intros; subst; reflexivity. Qed.

Lemma Add_comm_r r s1 s2 : Add (Add r s1) s2 = Add (Add r s2) s1.
Proof. apply Resource_eq; simpl; lia. Qed.

Lemma Resource_Clone_id r : Resource_Clone r = r.
Proof. destruct r; reflexivity. Qed.

Lemma TaskInfo_Clone_id (ti : TaskInfo) : TaskInfo_Clone ti = ti.
Proof.
  destruct ti; unfold TaskInfo_Clone; simpl.
  rewrite !Resource_Clone_id. reflexivity.
Qed.

(** [Sub] undoes [Add]; it does not panic when the rest is not negative. *)
Lemma Sub_Add r s : nonneg r -> Sub (Add r s) s = Some r.
Proof.
  intros (? & ? & ?). unfold Sub, LessEqual; simpl.
  rewrite !(proj2 (Z.leb_le _ _)) by lia. simpl. f_equal.
  apply Resource_eq; simpl; lia.
Qed.

Lemma Sub_Some_Add r s d : Sub (Add r s) s = Some d -> d = r.
Proof.
  unfold Sub. destruct (LessEqual s (Add r s)); [| discriminate].
  intros [= <-]. apply Resource_eq; simpl; lia.
Qed.

Lemma nonneg_Empty : nonneg EmptyResource.
Proof. unfold nonneg; simpl; lia. Qed.

Lemma nonneg_Add r s : nonneg r -> nonneg s -> nonneg (Add r s).
Proof. unfold nonneg; simpl; lia. Qed.

Implicit Types tasks : gmap string TaskInfo.

Lemma sum_Resreq_empty : sum_Resreq ∅ = EmptyResource.
Proof. apply map_fold_empty. Qed.

Lemma sum_Resreq_insert tasks uid t :
  tasks !! uid = None ->
  sum_Resreq (<[uid := t]> tasks) = Add (sum_Resreq tasks) (ti_Resreq t).
Proof.
  intros Hfresh. unfold sum_Resreq.
  rewrite map_fold_insert_L; [reflexivity | | exact Hfresh].
  intros. apply Add_comm_r.
Qed.

Lemma sum_Resreq_delete tasks uid t :
  tasks !! uid = Some t ->
  sum_Resreq tasks = Add (sum_Resreq (delete uid tasks)) (ti_Resreq t).
Proof.
  intros Ht. unfold sum_Resreq.
  rewrite (map_fold_delete_L _ _ uid t); [reflexivity | | exact Ht].
  intros. apply Add_comm_r.
Qed.

Lemma sum_Resreq_nonneg tasks :
  map_Forall (fun _ t => nonneg (ti_Resreq t)) tasks ->
  nonneg (sum_Resreq tasks).
Proof.
  induction tasks as [|uid t m Hm IH] using map_ind; intros Hall.
  - rewrite sum_Resreq_empty. apply nonneg_Empty.
  - rewrite sum_Resreq_insert by exact Hm.
    apply map_Forall_insert in Hall as [Ht Hall]; [| exact Hm].
    apply nonneg_Add; auto.
Qed.

Lemma tasks_with_insert (P : TaskStatus -> bool) tasks uid t :
  tasks !! uid = None ->
  tasks_with P (<[uid := t]> tasks)
  = if P (ti_Status t) then <[uid := t]> (tasks_with P tasks)
    else tasks_with P tasks.
Proof.
  intros Hfresh. unfold tasks_with. destruct (P (ti_Status t)) eqn:HP.
  - apply map_filter_insert_True. exact HP.
  - rewrite map_filter_insert_False by (simpl; congruence).
    rewrite delete_id by exact Hfresh. reflexivity.
Qed.

Lemma tasks_with_lookup (P : TaskStatus -> bool) tasks uid :
  tasks_with P tasks !! uid
  = t ← tasks !! uid; if P (ti_Status t) then Some t else None.
Proof.
  unfold tasks_with. destruct (tasks !! uid) as [t|] eqn:Ht; simpl.
  - destruct (P (ti_Status t)) eqn:HP.
    + apply map_lookup_filter_Some. split; assumption.
    + apply map_lookup_filter_None. right. intros t' Ht'. simpl.
      congruence.
  - apply map_lookup_filter_None. left. exact Ht.
Qed.

Lemma tasks_with_delete (P : TaskStatus -> bool) tasks uid :
  tasks_with P (delete uid tasks) = delete uid (tasks_with P tasks).
Proof. apply map_filter_delete. Qed.

End ResourceFacts.

(** ** Jobs: the invariants of the task table, the index and the aggregates *)

Section JobFacts.

Variable AllocatedStatus : TaskStatus -> bool.

Abbreviation Add' := (AddTaskInfo AllocatedStatus).
Abbreviation Delete' := (DeleteTaskInfo AllocatedStatus).
Abbreviation ok := (job_ok AllocatedStatus).

Implicit Types (ji : JobInfo) (ti task : TaskInfo).

(** *** [AddTaskInfo] *)

Lemma AddTaskInfo_Tasks ti ji :
  ji_Tasks (Add' ti ji) = <[ti_UID ti := ti]> (ji_Tasks ji).
Proof.
  unfold AddTaskInfo. destruct (AllocatedStatus (ti_Status ti)); reflexivity.
Qed.

Lemma AddTaskInfo_index ti ji :
  ji_TaskStatusIndex (Add' ti ji)
  = <[ti_Status ti :=
        <[ti_UID ti := ti]>
          (default ∅ (ji_TaskStatusIndex ji !! ti_Status ti))]>
      (ji_TaskStatusIndex ji).
Proof.
  unfold AddTaskInfo.
  destruct (AllocatedStatus (ti_Status ti)); simpl;
    destruct (ji_TaskStatusIndex ji !! ti_Status ti) as [b|] eqn:Hb; simpl;
    rewrite ?Hb, ?lookup_insert_eq, ?insert_insert_eq; reflexivity.
Qed.

Lemma AddTaskInfo_TotalRequest ti ji :
  ji_TotalRequest (Add' ti ji) = Add (ji_TotalRequest ji) (ti_Resreq ti).
Proof.
  unfold AddTaskInfo. destruct (AllocatedStatus (ti_Status ti)); reflexivity.
Qed.

Lemma AddTaskInfo_Allocated ti ji :
  ji_Allocated (Add' ti ji)
  = if AllocatedStatus (ti_Status ti)
    then Add (ji_Allocated ji) (ti_Resreq ti) else ji_Allocated ji.
Proof.
  unfold AddTaskInfo. destruct (AllocatedStatus (ti_Status ti)); reflexivity.
Qed.

Lemma index_of_insert (tasks : gmap string TaskInfo) ti :
  tasks !! ti_UID ti = None ->
  index_of (<[ti_UID ti := ti]> tasks)
  = <[ti_Status ti :=
        <[ti_UID ti := ti]> (default ∅ (index_of tasks !! ti_Status ti))]>
      (index_of tasks).
Proof.
  intros Hfresh. apply map_eq. intros s.
  rewrite index_of_lookup, bucket_of_insert.
  assert (Hb : forall s', bucket_of tasks s' !! ti_UID ti = None).
  { intros s'. rewrite bucket_of_lookup, Hfresh. reflexivity. }
  destruct (decide (ti_Status ti = s)) as [<- | Hne].
  - rewrite lookup_insert_eq, index_of_lookup.
    rewrite decide_False by apply insert_non_empty.
    destruct (decide (bucket_of tasks (ti_Status ti) = ∅)) as [-> | _];
      reflexivity.
  - rewrite lookup_insert_ne by exact Hne.
    rewrite delete_id by apply Hb. rewrite index_of_lookup. reflexivity.
Qed.

Lemma AddTaskInfo_ok ti ji :
  ok ji -> ji_Tasks ji !! ti_UID ti = None -> ok (Add' ti ji).
Proof.
  intros (Hkeys & Hidx & Halloc & Htotal) Hfresh.
  unfold job_ok, keys_ok, index_ok, Allocated_ok, TotalRequest_ok.
  rewrite AddTaskInfo_Tasks, AddTaskInfo_index, AddTaskInfo_TotalRequest,
    AddTaskInfo_Allocated.
  split; [| split; [| split]].
  - apply map_Forall_insert; [exact Hfresh |]. split; [reflexivity | exact Hkeys].
  - rewrite Hidx. symmetry. apply index_of_insert. exact Hfresh.
  - rewrite tasks_with_insert by exact Hfresh.
    destruct (AllocatedStatus (ti_Status ti)); [| exact Halloc].
    rewrite sum_Resreq_insert, Halloc; [reflexivity |].
    rewrite tasks_with_lookup, Hfresh. reflexivity.
  - rewrite sum_Resreq_insert, Htotal by exact Hfresh. reflexivity.
Qed.

(** *** [DeleteTaskInfo] *)

Lemma DeleteTaskInfo_missing ti ji :
  ji_Tasks ji !! ti_UID ti = None ->
  exists msg, Delete' ti ji = Some (ji, Some msg).
Proof.
  intros Hnone. unfold DeleteTaskInfo. rewrite Hnone. eauto.
Qed.

Lemma bucket_of_delete (tasks : gmap string TaskInfo) s uid :
  bucket_of (delete uid tasks) s = delete uid (bucket_of tasks s).
Proof. apply map_filter_delete. Qed.

Lemma index_of_delete (tasks : gmap string TaskInfo) task :
  tasks !! ti_UID task = Some task ->
  index_of (delete (ti_UID task) tasks)
  = let b := delete (ti_UID task) (bucket_of tasks (ti_Status task)) in
    if len b =? 0 then
      delete (ti_Status task) (<[ti_Status task := b]> (index_of tasks))
    else <[ti_Status task := b]> (index_of tasks).
Proof.
  intros Ht. cbv zeta. apply map_eq. intros s.
  rewrite index_of_lookup, bucket_of_delete.
  set (b := delete (ti_UID task) (bucket_of tasks (ti_Status task))).
  assert (Hlen : (len b =? 0) = bool_decide (b = ∅)).
  { unfold len. case_bool_decide as Hb.
    - rewrite Hb, map_size_empty. reflexivity.
    - apply Z.eqb_neq. apply map_size_non_empty_iff in Hb. lia. }
  rewrite Hlen.
  destruct (decide (s = ti_Status task)) as [-> | Hne].
  - fold b. case_bool_decide as Hb.
    + rewrite decide_True by exact Hb. rewrite lookup_delete_eq. reflexivity.
    + rewrite decide_False by exact Hb. rewrite lookup_insert_eq. reflexivity.
  - assert (Hother : delete (ti_UID task) (bucket_of tasks s)
                     = bucket_of tasks s).
    { apply delete_id. rewrite bucket_of_lookup, Ht. simpl.
      rewrite decide_False by congruence. reflexivity. }
    rewrite Hother.
    case_bool_decide;
      rewrite ?lookup_delete_ne, lookup_insert_ne, index_of_lookup
        by congruence; reflexivity.
Qed.

Lemma deleteTaskIndex_index task ji :
  ji_TaskStatusIndex ji = index_of (ji_Tasks ji ∪ {[ti_UID task := task]}) ->
  ji_Tasks ji !! ti_UID task = None ->
  ji_TaskStatusIndex (deleteTaskIndex task ji) = index_of (ji_Tasks ji).
Proof.
  intros Hidx Hfresh.
  rewrite <- insert_union_singleton_r in Hidx by exact Hfresh.
  set (tasks := <[ti_UID task := task]> (ji_Tasks ji)) in *.
  assert (Ht : tasks !! ti_UID task = Some task) by apply lookup_insert_eq.
  assert (Hdel : delete (ti_UID task) tasks = ji_Tasks ji).
  { subst tasks. rewrite delete_insert_eq. apply delete_id. exact Hfresh. }
  rewrite <- Hdel, (index_of_delete tasks task Ht). cbv zeta.
  unfold deleteTaskIndex. rewrite Hidx, index_of_lookup.
  rewrite decide_False.
  2:{ intros He. pose proof (bucket_of_lookup tasks (ti_Status task)
                               (ti_UID task)) as Hl.
      rewrite He, lookup_empty, Ht in Hl. simpl in Hl.
      rewrite decide_True in Hl by reflexivity. discriminate. }
  destruct (len (delete (ti_UID task) (bucket_of tasks (ti_Status task)))
            =? 0); reflexivity.
Qed.

Lemma DeleteTaskInfo_found ti task ji ji' err :
  ok ji -> ji_Tasks ji !! ti_UID ti = Some task ->
  Delete' ti ji = Some (ji', err) ->
  err = None /\ ok ji' /\ ji_Tasks ji' = delete (ti_UID ti) (ji_Tasks ji).
Proof.
  intros (Hkeys & Hidx & Halloc & Htotal) Hfound.
  assert (Huid : ti_UID task = ti_UID ti) by exact (Hkeys _ _ Hfound).
  unfold DeleteTaskInfo. rewrite Hfound. cbn [mbind option_bind].
  rewrite Htotal, (sum_Resreq_delete _ _ _ Hfound).
  destruct (Sub _ (ti_Resreq task)) as [total|] eqn:Htot;
    cbn [mbind option_bind]; [| discriminate].
  apply Sub_Some_Add in Htot. subst total.
  assert (Hresult : forall allocated,
            allocated
            = sum_Resreq (tasks_with AllocatedStatus
                            (delete (ti_UID ti) (ji_Tasks ji))) ->
            Some (deleteTaskIndex task
                    (set_Tasks (delete (ti_UID task) (ji_Tasks ji))
                       (set_Allocated allocated
                          (set_TotalRequest
                             (sum_Resreq (delete (ti_UID ti) (ji_Tasks ji)))
                             ji))), @None string)
            = Some (ji', err) ->
            err = None /\ ok ji'
            /\ ji_Tasks ji' = delete (ti_UID ti) (ji_Tasks ji)).
  { intros allocated Ha [= <- <-]. rewrite Huid.
    split; [reflexivity |].
    assert (Htasks : forall j, ji_Tasks (deleteTaskIndex task j) = ji_Tasks j).
    { intros j. unfold deleteTaskIndex.
      destruct (ji_TaskStatusIndex j !! ti_Status task); [| reflexivity].
      cbv zeta. destruct (len _ =? 0); reflexivity. }
    assert (Hagg : forall j,
               ji_Allocated (deleteTaskIndex task j) = ji_Allocated j
               /\ ji_TotalRequest (deleteTaskIndex task j)
                  = ji_TotalRequest j).
    { intros j. unfold deleteTaskIndex.
      destruct (ji_TaskStatusIndex j !! ti_Status task); [| split; reflexivity].
      cbv zeta. destruct (len _ =? 0); split; reflexivity. }
    split; [| rewrite Htasks; reflexivity].
    unfold job_ok, keys_ok, index_ok, Allocated_ok, TotalRequest_ok.
    rewrite Htasks, (proj1 (Hagg _)), (proj2 (Hagg _)). simpl.
    split; [| split; [| split]].
    - apply map_Forall_delete. exact Hkeys.
    - rewrite <- Huid. apply deleteTaskIndex_index; simpl.
      + rewrite Hidx. f_equal. rewrite <- insert_union_singleton_r
          by apply lookup_delete_eq.
        rewrite insert_delete_eq. symmetry. apply insert_id.
        rewrite Huid. exact Hfound.
      + apply lookup_delete_eq.
    - exact Ha.
    - reflexivity. }
  destruct (AllocatedStatus (ti_Status task)) eqn:HAS; simpl.
  - rewrite Halloc.
    rewrite (sum_Resreq_delete (tasks_with AllocatedStatus (ji_Tasks ji))
               (ti_UID ti) task)
      by (rewrite tasks_with_lookup, Hfound; simpl; rewrite HAS; reflexivity).
    destruct (Sub _ (ti_Resreq task)) as [allocated|] eqn:Hal;
      cbn [mbind option_bind]; [| discriminate].
    apply Sub_Some_Add in Hal. subst allocated.
    apply Hresult. rewrite tasks_with_delete. reflexivity.
  - apply Hresult. rewrite Halloc, tasks_with_delete.
    symmetry. f_equal. apply delete_id.
    rewrite tasks_with_lookup, Hfound. simpl. rewrite HAS. reflexivity.
Qed.

Lemma DeleteTaskInfo_ok ti ji ji' err :
  ok ji -> Delete' ti ji = Some (ji', err) ->
  ok ji' /\ ji_Tasks ji' !! ti_UID ti = None.
Proof.
  intros Hok Hdel.
  destruct (ji_Tasks ji !! ti_UID ti) as [task|] eqn:Hfound.
  - destruct (DeleteTaskInfo_found _ _ _ _ _ Hok Hfound Hdel)
      as (_ & Hok' & Htasks).
    split; [exact Hok' |]. rewrite Htasks. apply lookup_delete_eq.
  - destruct (DeleteTaskInfo_missing _ _ Hfound) as [msg Hmsg].
    rewrite Hmsg in Hdel. injection Hdel as <- <-.
    split; [exact Hok | exact Hfound].
Qed.

End JobFacts.

(** ** Jobs: reachable states *)

Section JobReach.

Variable AllocatedStatus : TaskStatus -> bool.
Variable validateStatusUpdate : TaskStatus -> TaskStatus -> option string.

Abbreviation add := (AddTaskInfo AllocatedStatus).
Abbreviation delete' := (DeleteTaskInfo AllocatedStatus).
Abbreviation update :=
  (UpdateTaskStatus AllocatedStatus validateStatusUpdate).
Abbreviation ok' := (job_ok AllocatedStatus).

Implicit Types (ji : JobInfo) (ti task : TaskInfo).

(** With requests that are not negative [DeleteTaskInfo] does not panic. *)
Lemma DeleteTaskInfo_no_panic ti ji :
  ok' ji -> requests_nonneg ji -> is_Some (delete' ti ji).
Proof.
  intros (Hkeys & Hidx & Halloc & Htotal) Hnn.
  unfold DeleteTaskInfo.
  destruct (ji_Tasks ji !! ti_UID ti) as [task|] eqn:Hfound; [| eauto].
  cbn [mbind option_bind].
  rewrite Htotal, (sum_Resreq_delete _ _ _ Hfound).
  rewrite Sub_Add
    by (apply sum_Resreq_nonneg, map_Forall_delete; exact Hnn).
  cbn [mbind option_bind].
  destruct (AllocatedStatus (ti_Status task)) eqn:HAS; [| eauto].
  simpl. rewrite Halloc.
  rewrite (sum_Resreq_delete (tasks_with AllocatedStatus (ji_Tasks ji))
             (ti_UID ti) task)
    by (rewrite tasks_with_lookup, Hfound; simpl; rewrite HAS; reflexivity).
  rewrite Sub_Add; [simpl; eauto |].
  apply sum_Resreq_nonneg, map_Forall_delete.
  intros uid t Ht. apply (Hnn uid t).
  rewrite tasks_with_lookup in Ht.
  destruct (ji_Tasks ji !! uid) as [t'|]; [| discriminate].
  simpl in Ht. destruct (AllocatedStatus (ti_Status t')); congruence.
Qed.

Lemma UpdateTaskStatus_ok task task' status ji ji' :
  ok' ji -> update task status ji = Some (ji', task', None) -> ok' ji'.
Proof.
  intros Hok. unfold UpdateTaskStatus.
  destruct (validateStatusUpdate (ti_Status task) status); [discriminate |].
  destruct (delete' task ji) as [[ji1 err]|] eqn:Hdel;
    cbn [mbind option_bind]; [| discriminate].
  intros [= <- _].
  destruct (DeleteTaskInfo_ok _ _ _ _ _ Hok Hdel) as [Hok1 Hfresh].
  apply AddTaskInfo_ok; [exact Hok1 | exact Hfresh].
Qed.

Lemma UpdateTaskStatus_no_panic task status ji :
  ok' ji -> requests_nonneg ji -> is_Some (update task status ji).
Proof.
  intros Hok Hnn. unfold UpdateTaskStatus.
  destruct (validateStatusUpdate (ti_Status task) status); [eauto |].
  destruct (DeleteTaskInfo_no_panic task ji Hok Hnn) as [[ji1 err] ->].
  simpl. eauto.
Qed.

(** *** A run of [AddTaskInfo], as in [NewJobInfo] and in [Clone] *)

Abbreviation adds := (adds AllocatedStatus).

Lemma adds_Tasks ji (tasks : list TaskInfo) :
  ji_Tasks (adds ji tasks)
  = foldl (fun m t => <[ti_UID t := t]> m) (ji_Tasks ji) tasks.
Proof.
  revert ji. induction tasks as [|t l IH]; intros ji; [reflexivity |].
  unfold adds in *. simpl. rewrite IH, AddTaskInfo_Tasks. reflexivity.
Qed.

Lemma adds_ok ji (tasks : list TaskInfo) :
  ok' ji -> NoDup (ti_UID <$> tasks) ->
  (forall t, t ∈ tasks -> ji_Tasks ji !! ti_UID t = None) ->
  ok' (adds ji tasks).
Proof.
  revert ji. induction tasks as [|t l IH]; intros ji Hok Hnd Hfresh;
    [exact Hok |].
  simpl. apply NoDup_cons in Hnd as [Hnotin Hnd]. apply IH.
  - apply AddTaskInfo_ok; [exact Hok |]. apply Hfresh, list_elem_of_here.
  - exact Hnd.
  - intros t' Ht'. rewrite AddTaskInfo_Tasks, lookup_insert_ne.
    + apply Hfresh, list_elem_of_further, Ht'.
    + intros Heq. apply Hnotin. rewrite Heq.
      apply list_elem_of_fmap_2. exact Ht'.
Qed.

Lemma index_of_empty : index_of ∅ = ∅.
Proof.
  apply map_eq. intros s. rewrite index_of_lookup, lookup_empty.
  rewrite decide_True; [reflexivity |]. apply map_filter_empty.
Qed.

Lemma empty_job_ok ji : empty_job ji -> ok' ji.
Proof.
  intros (Ht & Hi & Ha & Hr).
  unfold job_ok, keys_ok, index_ok, Allocated_ok, TotalRequest_ok.
  rewrite Ht, Hi, Ha, Hr. unfold tasks_with.
  rewrite map_filter_empty, sum_Resreq_empty, index_of_empty.
  split; [apply map_Forall_empty | auto].
Qed.

Lemma NewJobInfo_ok (uid : string) (tasks : list TaskInfo) :
  NoDup (ti_UID <$> tasks) -> ok' (NewJobInfo AllocatedStatus uid tasks).
Proof.
  intros Hnd. unfold NewJobInfo. apply (adds_ok _ tasks).
  - apply empty_job_ok. repeat split.
  - exact Hnd.
  - intros t _. apply lookup_empty.
Qed.

Lemma reachable_ok ji :
  reachable AllocatedStatus validateStatusUpdate ji -> ok' ji.
Proof.
  induction 1 as [uid tasks Hnd | ji ti _ IH Hfresh
                  | ji ji' ti err _ IH Hdel
                  | ji ji' task task' status _ IH Hupd].
  - apply NewJobInfo_ok. exact Hnd.
  - apply AddTaskInfo_ok; assumption.
  - apply (DeleteTaskInfo_ok _ _ _ _ _ IH Hdel).
  - apply (UpdateTaskStatus_ok _ _ _ _ _ IH Hupd).
Qed.

(** C7 (amended).  For every job built by [NewJobInfo] from tasks of
    distinct ids and transformed by any sequence of [AddTaskInfo] on a
    task whose id the job does not hold, of [DeleteTaskInfo] and of
    successful [UpdateTaskStatus] calls: [Allocated] is the sum of
    [Resreq] over the tasks whose status is in [AllocatedStatus],
    [TotalRequest] is the sum of [Resreq] over all the tasks, the tasks
    are stored under their ids and the status index is the one of the
    task table; and when no request is negative, [DeleteTaskInfo] and
    [UpdateTaskStatus] return, without an underflow. *)
Theorem aggregates_invariant (ji : JobInfo) :
  reachable AllocatedStatus validateStatusUpdate ji ->
  ji_Allocated ji = sum_Resreq (tasks_with AllocatedStatus (ji_Tasks ji))
  /\ ji_TotalRequest ji = sum_Resreq (ji_Tasks ji)
  /\ keys_ok ji
  /\ index_ok ji
  /\ (requests_nonneg ji ->
      forall task,
        is_Some (delete' task ji)
        /\ forall status, is_Some (update task status ji)).
Proof.
  intros Hreach. pose proof (reachable_ok ji Hreach) as Hok.
  destruct Hok as (Hkeys & Hidx & Halloc & Htotal).
  split; [exact Halloc |]. split; [exact Htotal |].
  split; [exact Hkeys |]. split; [exact Hidx |].
  intros Hnn task. split.
  - apply DeleteTaskInfo_no_panic; [repeat split; assumption | exact Hnn].
  - intros status.
    apply UpdateTaskStatus_no_panic; [repeat split; assumption | exact Hnn].
Qed.

End JobReach.

(** ** Jobs: [Clone] *)

Section JobClone.

Variable AllocatedStatus : TaskStatus -> bool.

Abbreviation clone_in := (Clone_in AllocatedStatus).
Abbreviation adds' := (adds AllocatedStatus).

Implicit Types (ji : JobInfo) (order : list (string * TaskInfo)).

Lemma AddTaskInfo_header (ti : TaskInfo) ji :
  same_header ji (AddTaskInfo AllocatedStatus ti ji)
  /\ ji_NodeSelector (AddTaskInfo AllocatedStatus ti ji) = ji_NodeSelector ji
  /\ ji_NodesFitDelta (AddTaskInfo AllocatedStatus ti ji)
     = ji_NodesFitDelta ji.
Proof.
  unfold AddTaskInfo, same_header.
  destruct (AllocatedStatus (ti_Status ti)); simpl; repeat split.
Qed.

Lemma adds_header ji (tasks : list TaskInfo) :
  same_header ji (adds' ji tasks)
  /\ ji_NodeSelector (adds' ji tasks) = ji_NodeSelector ji
  /\ ji_NodesFitDelta (adds' ji tasks) = ji_NodesFitDelta ji.
Proof.
  revert ji. induction tasks as [|t l IH]; intros ji.
  - unfold same_header. repeat split.
  - simpl. destruct (IH (AddTaskInfo AllocatedStatus t ji)) as (Hh & Hs & Hd).
    destruct (AddTaskInfo_header t ji) as (Hh' & Hs' & Hd').
    unfold adds in *. rewrite Hs, Hd, Hs', Hd'.
    split; [| split; reflexivity].
    unfold same_header in *.
    destruct Hh as (-> & -> & -> & -> & -> & -> & -> & -> & ->).
    exact Hh'.
Qed.

Lemma foldl_pointwise {A B} (f g : A -> B -> A) (a : A) (l : list B) :
  (forall a b, f a b = g a b) -> foldl f a l = foldl g a l.
Proof.
  intros Hfg. revert a. induction l as [|b l IH]; intros a; simpl;
    [reflexivity |]. rewrite Hfg. apply IH.
Qed.

Lemma foldl_insert_list_to_map {V} (l : list (string * V)) :
  foldl (fun m kv => <[kv.1 := kv.2]> m) (∅ : gmap string V) l
  = list_to_map (reverse l).
Proof.
  induction l as [|kv l IH] using rev_ind; [reflexivity |].
  rewrite foldl_app, reverse_snoc. simpl. rewrite IH. reflexivity.
Qed.

Lemma foldl_insert_map_to_list {V} (m : gmap string V)
    (l : list (string * V)) :
  l ≡ₚ map_to_list m ->
  foldl (fun m kv => <[kv.1 := kv.2]> m) ∅ l = m.
Proof.
  intros Hperm. rewrite foldl_insert_list_to_map.
  rewrite <- (list_to_map_to_list m). apply list_to_map_proper.
  - rewrite fmap_reverse, reverse_Permutation, Hperm.
    apply NoDup_fst_map_to_list.
  - rewrite reverse_Permutation. exact Hperm.
Qed.

(** [Clone] is a run of [AddTaskInfo] from the copied header. *)
Lemma Clone_in_adds order ji :
  exists info,
    Clone_in AllocatedStatus order ji = adds' info order.*2
    /\ empty_job info /\ same_header ji info
    /\ ji_NodeSelector info = ji_NodeSelector ji
    /\ ji_NodesFitDelta info = ∅.
Proof.
  unfold Clone_in. cbv zeta. eexists. split.
  - unfold adds. rewrite foldl_fmap.
    apply foldl_pointwise. intros info kv. rewrite TaskInfo_Clone_id. reflexivity.
  - simpl. split; [repeat split |]. split; [repeat split |].
    split; [| reflexivity].
    apply foldl_insert_map_to_list. reflexivity.
Qed.

Lemma Clone_in_Tasks order ji :
  keys_ok ji -> order ≡ₚ map_to_list (ji_Tasks ji) ->
  ji_Tasks (clone_in order ji) = ji_Tasks ji.
Proof.
  intros Hkeys Hperm.
  destruct (Clone_in_adds order ji) as (info & -> & (Ht & _) & _).
  rewrite adds_Tasks, Ht, foldl_fmap.
  rewrite <- (foldl_insert_map_to_list (ji_Tasks ji) order Hperm).
  assert (Hall : Forall (fun kv => ti_UID kv.2 = kv.1) order).
  { apply Forall_forall. intros [uid t] Hin. simpl. apply (Hkeys uid t).
    apply elem_of_map_to_list. rewrite <- Hperm. exact Hin. }
  clear Hperm. generalize (∅ : gmap string TaskInfo).
  induction Hall as [|kv l Hkv _ IH]; intros m; [reflexivity |].
  simpl. rewrite Hkv. apply IH.
Qed.

Lemma Clone_in_ok order ji :
  keys_ok ji -> order ≡ₚ map_to_list (ji_Tasks ji) ->
  job_ok AllocatedStatus (clone_in order ji).
Proof.
  intros Hkeys Hperm.
  destruct (Clone_in_adds order ji) as (info & -> & Hempty & _).
  apply adds_ok.
  - apply empty_job_ok. exact Hempty.
  - assert (Heq : ti_UID <$> order.*2 = order.*1).
    { rewrite <- list_fmap_compose. apply list_fmap_ext.
      intros i [uid t] Hin. simpl. apply (Hkeys uid t).
      apply elem_of_map_to_list. rewrite <- Hperm.
      apply list_elem_of_lookup. eauto. }
    rewrite Heq, Hperm. apply NoDup_fst_map_to_list.
  - intros t _. rewrite (proj1 Hempty). apply lookup_empty.
Qed.

(** C8 (amended).  For every job that satisfies the invariants (tasks
    stored under their ids, the status index the one of the task table,
    the aggregates the sums of the requests), and whatever the order in
    which [Clone] visits the tasks, the clone has the same task table with
    equal tasks, the same buckets in the status index, and its recomputed
    aggregates are the aggregates of the job.  The clone also has the
    identity, the gang threshold and the node selector of the job, and
    no node-fit delta. *)
Theorem Clone_spec (ji : JobInfo) order :
  job_ok AllocatedStatus ji ->
  order ≡ₚ map_to_list (ji_Tasks ji) ->
  let info := clone_in order ji in
  ji_Tasks info = ji_Tasks ji
  /\ (forall uid, ji_Tasks info !! uid = ji_Tasks ji !! uid)
  /\ ji_TaskStatusIndex info = ji_TaskStatusIndex ji
  /\ ji_Allocated info = ji_Allocated ji
  /\ ji_TotalRequest info = ji_TotalRequest ji
  /\ Clone AllocatedStatus ji = info
  /\ ji_UID info = ji_UID ji
  /\ ji_MinAvailable info = ji_MinAvailable ji
  /\ ji_NodeSelector info = ji_NodeSelector ji
  /\ ji_NodesFitDelta info = ∅.
Proof.
  intros (Hkeys & Hidx & Halloc & Htotal) Hperm info.
  pose proof (Clone_in_Tasks order ji Hkeys Hperm) as Htasks.
  destruct (Clone_in_ok order ji Hkeys Hperm) as (_ & Hidx' & Halloc' & Htotal').
  fold info in Htasks, Hidx', Halloc', Htotal'.
  unfold index_ok, Allocated_ok, TotalRequest_ok in *.
  assert (Hfields : ji_TaskStatusIndex info = ji_TaskStatusIndex ji
                    /\ ji_Allocated info = ji_Allocated ji
                    /\ ji_TotalRequest info = ji_TotalRequest ji).
  { rewrite Hidx', Halloc', Htotal', Htasks, Hidx, Halloc, Htotal. auto. }
  destruct Hfields as (Hi & Ha & Hr).
  split; [exact Htasks |]. split; [intros uid; rewrite Htasks; reflexivity |].
  split; [exact Hi |]. split; [exact Ha |]. split; [exact Hr |].
  split.
  { unfold Clone.
    pose proof (Clone_in_Tasks (map_to_list (ji_Tasks ji)) ji Hkeys
                  (reflexivity _)) as Htasks0.
    destruct (Clone_in_ok (map_to_list (ji_Tasks ji)) ji Hkeys (reflexivity _))
      as (_ & Hidx0 & Halloc0 & Htotal0).
    unfold index_ok, Allocated_ok, TotalRequest_ok in *.
    destruct (Clone_in_adds (map_to_list (ji_Tasks ji)) ji)
      as (i0 & E0 & _ & Hh0 & Hs0 & Hd0).
    destruct (Clone_in_adds order ji) as (i1 & E1 & _ & Hh1 & Hs1 & Hd1).
    destruct (adds_header i0 (map_to_list (ji_Tasks ji)).*2)
      as (Hah0 & Has0 & Had0).
    destruct (adds_header i1 order.*2) as (Hah1 & Has1 & Had1).
    rewrite <- E0 in Hah0, Has0, Had0. rewrite <- E1 in Hah1, Has1, Had1.
    fold info in Hah1, Has1, Had1.
    unfold same_header in *.
    destruct (clone_in (map_to_list (ji_Tasks ji)) ji), info; simpl in *.
    destruct Hah0 as (? & ? & ? & ? & ? & ? & ? & ? & ?).
    destruct Hah1 as (? & ? & ? & ? & ? & ? & ? & ? & ?).
    destruct Hh0 as (? & ? & ? & ? & ? & ? & ? & ? & ?).
    destruct Hh1 as (? & ? & ? & ? & ? & ? & ? & ? & ?).
    f_equal; congruence. }
  destruct (Clone_in_adds order ji) as (i1 & E1 & _ & Hh1 & Hs1 & Hd1).
  destruct (adds_header i1 order.*2) as (Hah1 & Has1 & Had1).
  rewrite <- E1 in Hah1, Has1, Had1. fold info in Hah1, Has1, Had1.
  unfold same_header in *.
  destruct Hah1 as (? & ? & ? & ? & ? & ? & ? & ? & ?).
  destruct Hh1 as (? & ? & ? & ? & ? & ? & ? & ? & ?).
  repeat split; congruence.
Qed.

End JobClone.

(** ** The statements on the sample jobs *)

Section Samples.

Import samples.

Abbreviation AS := spec_AllocatedStatus.

(** C7, as stated: the job built by [NewJobInfo] from the same running
    task twice, that is by two calls of [AddTaskInfo] on the new job,
    holds one task and has the aggregates of two. *)
Lemma aggregates_of_task_added_twice :
  job_twice = AddTaskInfo AS r1 (AddTaskInfo AS r1 (NewJobInfo AS "ns/J" []))
  /\ ji_Tasks job_twice = {["r1" := r1]}
  /\ ji_TotalRequest job_twice = cpu 2000
  /\ sum_Resreq (ji_Tasks job_twice) = cpu 1000
  /\ ji_Allocated job_twice = cpu 2000
  /\ sum_Resreq (tasks_with AS (ji_Tasks job_twice)) = cpu 1000
  /\ ~ (ji_Allocated job_twice
        = sum_Resreq (tasks_with AS (ji_Tasks job_twice))
        /\ ji_TotalRequest job_twice = sum_Resreq (ji_Tasks job_twice)).
Proof.
  split; [reflexivity |]. split; [vm_compute; reflexivity |].
  split; [vm_compute; reflexivity |]. split; [vm_compute; reflexivity |].
  split; [vm_compute; reflexivity |]. split; [vm_compute; reflexivity |].
  intros [_ H]. vm_compute in H. discriminate H.
Qed.

(** C8, as stated: the clone of that job has the aggregates of one task,
    the job those of two. *)
Lemma clone_of_task_added_twice :
  ji_TotalRequest job_twice = cpu 2000
  /\ ji_TotalRequest (Clone AS job_twice) = cpu 1000
  /\ ji_Allocated job_twice = cpu 2000
  /\ ji_Allocated (Clone AS job_twice) = cpu 1000
  /\ ~ (ji_Allocated (Clone AS job_twice) = ji_Allocated job_twice
        /\ ji_TotalRequest (Clone AS job_twice) = ji_TotalRequest job_twice).
Proof.
  split; [vm_compute; reflexivity |]. split; [vm_compute; reflexivity |].
  split; [vm_compute; reflexivity |]. split; [vm_compute; reflexivity |].
  intros [_ H]. vm_compute in H. discriminate H.
Qed.

Lemma job_deleted_reachable : reachable AS no_check job_deleted.
Proof.
  apply (reach_delete AS no_check job_updated job_deleted p2 None).
  - apply (reach_update AS no_check job_new job_updated p1
             (set_Status Allocated p1) Allocated).
    + apply reach_new. compute_done.
    + vm_compute. reflexivity.
  - vm_compute. reflexivity.
Qed.

Lemma aggregates_invariant_witness :
  reachable AS no_check job_deleted
  /\ ji_Allocated job_deleted
     = sum_Resreq (tasks_with AS (ji_Tasks job_deleted))
  /\ ji_TotalRequest job_deleted = sum_Resreq (ji_Tasks job_deleted).
Proof.
  split; [exact job_deleted_reachable |].
  pose proof (aggregates_invariant AS no_check job_deleted
                job_deleted_reachable) as (Ha & Ht & _).
  split; [exact Ha | exact Ht].
Defined.

Lemma job_A_ok : job_ok AS job_A.
Proof.
  split; [compute_done |]. split; [vm_compute; reflexivity |].
  split; vm_compute; reflexivity.
Qed.

Lemma Clone_spec_witness :
  job_ok AS job_A
  /\ ji_Tasks (Clone AS job_A) = ji_Tasks job_A
  /\ ji_TaskStatusIndex (Clone AS job_A) = ji_TaskStatusIndex job_A
  /\ ji_Allocated (Clone AS job_A) = ji_Allocated job_A
  /\ ji_TotalRequest (Clone AS job_A) = ji_TotalRequest job_A.
Proof.
  split; [exact job_A_ok |].
  pose proof (Clone_spec AS job_A (map_to_list (ji_Tasks job_A)) job_A_ok
                (reflexivity _)) as H.
  cbv zeta in H. destruct H as (Ht & _ & Hi & Ha & Hr & Hc & _).
  rewrite Hc. split; [exact Ht |]. split; [exact Hi |].
  split; [exact Ha | exact Hr].
Defined.

Lemma validTaskNum_ge_readyTaskNum_witness :
  Z.of_nat (index_size job_short) < 2 ^ 31
  /\ readyTaskNum AS job_short <= validTaskNum AS job_short.
Proof.
  assert (Hb : Z.of_nat (index_size job_short) < 2 ^ 31)
    by (vm_compute; reflexivity).
  split; [exact Hb |].
  exact (proj1 (proj2 (validTaskNum_ge_readyTaskNum AS job_short Hb))).
Defined.

Lemma sample_candidates_held (t : TaskInfo) :
  t ∈ [r1; s1] ->
  exists J, ssn_Jobs (session [job_A; job_B; job_S]) !! ti_Job t = Some J
            /\ Z.of_nat (index_size J) < 2 ^ 31.
Proof.
  intros Ht. apply elem_of_cons in Ht as [-> | Ht].
  - exists job_A. split; vm_compute; reflexivity.
  - apply list_elem_of_singleton in Ht as ->.
    exists job_S. split; vm_compute; reflexivity.
Qed.

Lemma preemptableFn_spec_witness :
  (forall t, t ∈ [r1; s1] ->
     exists J, ssn_Jobs (session [job_A; job_B; job_S]) !! ti_Job t = Some J
               /\ Z.of_nat (index_size J) < 2 ^ 31)
  /\ preemptableFn AS (ssn_Jobs (session [job_A; job_B; job_S])) q1 [r1; s1]
     = Some [s1].
Proof.
  split; [exact sample_candidates_held |].
  destruct (preemptableFn_spec AS (ssn_Jobs (session [job_A; job_B; job_S]))
              q1 [r1; s1] sample_candidates_held)
    as (victims & -> & -> & _).
  vm_compute. reflexivity.
Defined.

Lemma OnSessionClose_spec_witness :
  Z.of_nat (size (ssn_Jobs (session [job_short; job_A]))) < 2 ^ 63
  /\ OnSessionClose AS (fun _ => 0) (session [job_short; job_A])
     = Some (close_report AS (session [job_short; job_A]) 0 job_short
             ++ [UpdateUnscheduleJobCount 1]).
Proof.
  assert (Hb : Z.of_nat (size (ssn_Jobs (session [job_short; job_A])))
               < 2 ^ 63) by (vm_compute; reflexivity).
  split; [exact Hb |].
  pose proof (OnSessionClose_spec AS (fun _ => 0)
                (session [job_short; job_A])
                (map_to_list (ssn_Jobs (session [job_short; job_A])))
                (reflexivity _) Hb) as (H & _).
  unfold OnSessionClose. rewrite H. vm_compute. reflexivity.
Defined.

Lemma FitError_spec_witness :
  Z.of_nat (size (ji_NodesFitDelta job_unfit)) < 2 ^ 63
  /\ FitError job_unfit
     = "0/3 nodes are available, 1 insufficient GPU, 1 insufficient memory, 2 insufficient cpu.".
Proof.
  assert (Hb : Z.of_nat (size (ji_NodesFitDelta job_unfit)) < 2 ^ 63)
    by (vm_compute; reflexivity).
  split; [exact Hb |].
  pose proof (FitError_spec job_unfit
                (map_to_list (ji_NodesFitDelta job_unfit))
                (map_to_list
                   (fitReasons (map_to_list (ji_NodesFitDelta job_unfit))))
                (reflexivity _) (reflexivity _) Hb) as (H & H' & _).
  rewrite H', H. vm_compute. reflexivity.
Defined.

(** The functions on the samples. *)
Example int32_wraps :
  int32 (2 ^ 31) = - 2 ^ 31 /\ int32 (2 ^ 32 + 5) = 5 /\ int32 (-7) = -7
  /\ int32_sub (- 2 ^ 31) 1 = 2 ^ 31 - 1.
Proof. repeat split; vm_compute; reflexivity. Qed.

Example fmt_d_samples :
  fmt_d 0 = "0" /\ fmt_d 120 = "120" /\ fmt_d (-5) = "-5".
Proof. repeat split; reflexivity. Qed.

Example sort_Strings_bytes :
  sort_Strings ["2 insufficient cpu"; "1 insufficient memory";
                "10 insufficient GPU"]
  = ["1 insufficient memory"; "10 insufficient GPU"; "2 insufficient cpu"].
Proof. vm_compute. reflexivity. Qed.

Example readyTaskNum_job_A : readyTaskNum AS job_A = 2.
Proof. vm_compute. reflexivity. Qed.

Example jobOrderFn_unready_first :
  jobOrderFn AS (JobObj job_short) (JobObj job_A) = Some (-1)
  /\ jobOrderFn AS (JobObj job_A) (JobObj job_short) = Some 1
  /\ jobOrderFn AS (JobObj job_A) (JobObj job_S) = Some 0.
Proof. repeat split; vm_compute; reflexivity. Qed.

Example jobOrderFn_not_a_job :
  jobOrderFn AS (JobObj job_A) (OtherObj "queue") = None.
Proof. reflexivity. Qed.

Example preemptableFn_unknown_job :
  preemptableFn AS (ssn_Jobs (session [job_B])) q1 [r1] = None.
Proof. vm_compute. reflexivity. Qed.

Example CheckOptionOrDie_leader_no_namespace :
  CheckOptionOrDie leader_no_namespace
  = (leader_no_namespace,
     Some "lock-object-namespace must not be nil when LeaderElection is enabled")
  /\ (CheckOptionOrDie NewServerOption).2 = None.
Proof. split; reflexivity. Qed.

Example UpdateTaskStatus_moves_task :
  ji_TaskStatusIndex job_updated
  = {[Pending := {["p2" := p2]};
      Allocated := {["p1" := set_Status Allocated p1]}]}
  /\ ji_Allocated job_updated = cpu 1000
  /\ ji_TotalRequest job_updated = cpu 2000.
Proof. repeat split; vm_compute; reflexivity. Qed.

Example DeleteTaskInfo_drops_empty_bucket :
  ji_TaskStatusIndex job_deleted
  = {[Allocated := {["p1" := set_Status Allocated p1]}]}
  /\ ji_TotalRequest job_deleted = cpu 1000.
Proof. repeat split; vm_compute; reflexivity. Qed.

End Samples.

(** * Further properties *)

(** ** Jobs: deleting, adding and updating a task *)

Section JobMore.

Variable AllocatedStatus : TaskStatus -> bool.
Variable validateStatusUpdate : TaskStatus -> TaskStatus -> option string.

Abbreviation jadd := (AddTaskInfo AllocatedStatus).
Abbreviation jdelete := (DeleteTaskInfo AllocatedStatus).
Abbreviation jupdate :=
  (UpdateTaskStatus AllocatedStatus validateStatusUpdate).
Abbreviation jok := (job_ok AllocatedStatus).

Implicit Types (ji : JobInfo) (ti task : TaskInfo).

(** Two jobs with the same fields are equal. *)
Lemma JobInfo_ext ji ji' :
  same_header ji ji' ->
  ji_NodeSelector ji' = ji_NodeSelector ji ->
  ji_NodesFitDelta ji' = ji_NodesFitDelta ji ->
  ji_TaskStatusIndex ji' = ji_TaskStatusIndex ji ->
  ji_Tasks ji' = ji_Tasks ji ->
  ji_Allocated ji' = ji_Allocated ji ->
  ji_TotalRequest ji' = ji_TotalRequest ji ->
  ji' = ji.
Proof.
  unfold same_header. destruct ji, ji'; simpl.
  intros (? & ? & ? & ? & ? & ? & ? & ? & ?) ? ? ? ? ? ?.
  subst. reflexivity.
Qed.

Lemma deleteTaskIndex_header task ji :
  same_header ji (deleteTaskIndex task ji)
  /\ ji_NodeSelector (deleteTaskIndex task ji) = ji_NodeSelector ji
  /\ ji_NodesFitDelta (deleteTaskIndex task ji) = ji_NodesFitDelta ji.
Proof.
  unfold deleteTaskIndex, same_header.
  destruct (ji_TaskStatusIndex ji !! ti_Status task); [| repeat split].
  cbv zeta. destruct (len _ =? 0); simpl; repeat split.
Qed.

Lemma DeleteTaskInfo_header ti ji ji' err :
  jdelete ti ji = Some (ji', err) ->
  same_header ji ji'
  /\ ji_NodeSelector ji' = ji_NodeSelector ji
  /\ ji_NodesFitDelta ji' = ji_NodesFitDelta ji.
Proof.
  unfold DeleteTaskInfo.
  destruct (ji_Tasks ji !! ti_UID ti) as [task|].
  2:{ intros [= <- _]. unfold same_header. repeat split. }
  destruct (Sub (ji_TotalRequest ji) (ti_Resreq task)) as [total|];
    cbn [mbind option_bind]; [| discriminate].
  destruct (AllocatedStatus (ti_Status task)).
  - destruct (Sub _ (ti_Resreq task)) as [allocated|];
      cbn [mbind option_bind]; [| discriminate].
    intros [= <- _].
    destruct (deleteTaskIndex_header task
                (set_Tasks (delete (ti_UID task) (ji_Tasks ji))
                   (set_Allocated allocated (set_TotalRequest total ji))))
      as (Hh & -> & ->).
    split; [| split; reflexivity]. exact Hh.
  - cbn [mbind option_bind]. intros [= <- _].
    destruct (deleteTaskIndex_header task
                (set_Tasks (delete (ti_UID task) (ji_Tasks ji))
                   (set_TotalRequest total ji)))
      as (Hh & -> & ->).
    split; [| split; reflexivity]. exact Hh.
Qed.

Lemma same_header_trans ji1 ji2 ji3 :
  same_header ji1 ji2 -> same_header ji2 ji3 -> same_header ji1 ji3.
Proof.
  unfold same_header.
  intros (? & ? & ? & ? & ? & ? & ? & ? & ?)
         (? & ? & ? & ? & ? & ? & ? & ? & ?).
  repeat split; congruence.
Qed.

(** Two jobs that satisfy the invariants and have the same task table and
    the same other fields are equal. *)
Lemma job_ok_ext ji ji' :
  jok ji -> jok ji' ->
  same_header ji ji' ->
  ji_NodeSelector ji' = ji_NodeSelector ji ->
  ji_NodesFitDelta ji' = ji_NodesFitDelta ji ->
  ji_Tasks ji' = ji_Tasks ji ->
  ji' = ji.
Proof.
  intros (_ & Hi & Ha & Hr) (_ & Hi' & Ha' & Hr') Hh Hs Hd Ht.
  unfold index_ok, Allocated_ok, TotalRequest_ok in *.
  apply JobInfo_ext; try assumption.
  - rewrite Hi', Hi, Ht. reflexivity.
  - rewrite Ha', Ha, Ht. reflexivity.
  - rewrite Hr', Hr, Ht. reflexivity.
Qed.

(** X1.  [DeleteTaskInfo] on a job that satisfies the invariants: when it
    returns, the error is nil exactly when the job holds the id of the
    task; with the id missing the job is unchanged and the error is the
    message "failed to find task <ns/name> in job <ns/name>"; otherwise the
    task stored under the id is removed, whatever the other fields of the
    argument are; the invariants hold afterwards and the fields other than
    the task table, the index and the aggregates are untouched. *)
Theorem DeleteTaskInfo_spec ti ji ji' err :
  job_ok AllocatedStatus ji ->
  DeleteTaskInfo AllocatedStatus ti ji = Some (ji', err) ->
  (err = None <-> is_Some (ji_Tasks ji !! ti_UID ti))
  /\ (ji_Tasks ji !! ti_UID ti = None ->
      ji' = ji
      /\ err = Some ("failed to find task <" +:+ ti_Namespace ti +:+ "/"
                     +:+ ti_Name ti +:+ "> in job <" +:+ ji_Namespace ji
                     +:+ "/" +:+ ji_Name ji +:+ ">"))
  /\ ji_Tasks ji' = delete (ti_UID ti) (ji_Tasks ji)
  /\ (forall ti2, ti_UID ti2 = ti_UID ti ->
        is_Some (ji_Tasks ji !! ti_UID ti) ->
        DeleteTaskInfo AllocatedStatus ti2 ji = Some (ji', err))
  /\ job_ok AllocatedStatus ji'
  /\ ji_MinAvailable ji' = ji_MinAvailable ji
  /\ ji_NodesFitDelta ji' = ji_NodesFitDelta ji.
Proof.
  intros Hok Hdel.
  destruct (DeleteTaskInfo_header _ _ _ _ Hdel) as (Hh & _ & Hd).
  assert (Hmin : ji_MinAvailable ji' = ji_MinAvailable ji)
    by (unfold same_header in Hh; tauto).
  destruct (ji_Tasks ji !! ti_UID ti) as [task|] eqn:Hfound.
  - destruct (DeleteTaskInfo_found _ _ _ _ _ _ Hok Hfound Hdel)
      as (-> & Hok' & Htasks).
    split; [split; eauto |]. split; [discriminate |].
    split; [exact Htasks |]. split; [| auto].
    intros ti2 Huid _. rewrite <- Hdel. unfold DeleteTaskInfo.
    rewrite Huid, Hfound. reflexivity.
  - unfold DeleteTaskInfo in Hdel. rewrite Hfound in Hdel.
    injection Hdel as <- <-.
    split; [split; [discriminate | intros [? ?]; discriminate] |].
    split; [auto |]. split; [symmetry; apply delete_id; exact Hfound |].
    split; [intros ti2 _ [? ?]; discriminate | auto].
Qed.


(** X3.  A successful [UpdateTaskStatus] on a job that satisfies the
    invariants: the task table holds the task with the new status under
    its id and is otherwise unchanged; the bucket of the new status holds
    the task, no other bucket holds its id, and the invariants hold
    afterwards. *)
Theorem UpdateTaskStatus_moves task task' status ji ji' :
  jok ji ->
  jupdate task status ji = Some (ji', task', None) ->
  task' = set_Status status task
  /\ ji_Tasks ji' = <[ti_UID task := task']> (ji_Tasks ji)
  /\ (exists b, ji_TaskStatusIndex ji' !! status = Some b
                /\ b !! ti_UID task = Some task')
  /\ (forall s b, s <> status -> ji_TaskStatusIndex ji' !! s = Some b ->
        b !! ti_UID task = None)
  /\ jok ji'.
Proof.
  intros Hok Hupd.
  pose proof (UpdateTaskStatus_ok _ _ _ _ _ _ _ Hok Hupd) as Hok'.
  unfold UpdateTaskStatus in Hupd.
  destruct (validateStatusUpdate (ti_Status task) status); [discriminate |].
  destruct (jdelete task ji) as [[ji1 err]|] eqn:Hdel;
    cbn [mbind option_bind] in Hupd; [| discriminate].
  injection Hupd as <- <-.
  assert (Ht1 : ji_Tasks ji1 = delete (ti_UID task) (ji_Tasks ji)).
  { destruct (ji_Tasks ji !! ti_UID task) as [old|] eqn:Hfound.
    - apply (DeleteTaskInfo_found _ _ _ _ _ _ Hok Hfound Hdel).
    - unfold DeleteTaskInfo in Hdel. rewrite Hfound in Hdel.
      injection Hdel as <- _. symmetry. apply delete_id. exact Hfound. }
  assert (Htasks : ji_Tasks (jadd (set_Status status task) ji1)
                   = <[ti_UID task := set_Status status task]> (ji_Tasks ji)).
  { rewrite AddTaskInfo_Tasks, Ht1. simpl. apply insert_delete_eq. }
  split; [reflexivity |]. split; [exact Htasks |].
  pose proof Hok' as (_ & Hidx & _). unfold index_ok in Hidx.
  assert (Hb : forall s,
             bucket_of (ji_Tasks (jadd (set_Status status task) ji1)) s
             !! ti_UID task
             = if decide (status = s) then Some (set_Status status task)
               else None).
  { intros s. rewrite bucket_of_lookup, Htasks, lookup_insert_eq. reflexivity. }
  split; [| split].
  - exists (bucket_of (ji_Tasks (jadd (set_Status status task) ji1)) status).
    split.
    + rewrite Hidx, index_of_lookup. rewrite decide_False; [reflexivity |].
      intros He. specialize (Hb status). rewrite He, lookup_empty in Hb.
      rewrite decide_True in Hb by reflexivity. discriminate.
    + rewrite Hb, decide_True by reflexivity. reflexivity.
  - intros s b Hs Hl. rewrite Hidx, index_of_lookup in Hl.
    destruct (decide (bucket_of _ s = ∅)); [discriminate |].
    injection Hl as <-. rewrite Hb, decide_False by congruence. reflexivity.
  - exact Hok'.
Qed.

End JobMore.

(** ** Jobs: round trips and a task added under an id the job holds *)

Section JobRoundTrip.

Variable AllocatedStatus : TaskStatus -> bool.

Abbreviation radd := (AddTaskInfo AllocatedStatus).
Abbreviation rdelete := (DeleteTaskInfo AllocatedStatus).
Abbreviation rok := (job_ok AllocatedStatus).

Implicit Types (ji : JobInfo) (ti task : TaskInfo).

(** X4.  Adding a task under a fresh id and deleting it again returns the
    job as it was, all fields included, and no error, for a job that
    satisfies the invariants and requests that are not negative. *)
Theorem Delete_Add_roundtrip ti ji :
  rok ji -> requests_nonneg ji -> nonneg (ti_Resreq ti) ->
  ji_Tasks ji !! ti_UID ti = None ->
  rdelete ti (radd ti ji) = Some (ji, None).
Proof.
  intros Hok Hnn Hti Hfresh.
  pose proof (AddTaskInfo_ok AllocatedStatus ti ji Hok Hfresh) as Hok1.
  assert (Hnn1 : requests_nonneg (radd ti ji)).
  { unfold requests_nonneg. rewrite AddTaskInfo_Tasks.
    apply map_Forall_insert; [exact Hfresh | split; assumption]. }
  destruct (DeleteTaskInfo_no_panic AllocatedStatus ti _ Hok1 Hnn1)
    as [[ji' err] Hdel].
  assert (Hfound : ji_Tasks (radd ti ji) !! ti_UID ti = Some ti)
    by (rewrite AddTaskInfo_Tasks; apply lookup_insert_eq).
  destruct (DeleteTaskInfo_found _ _ _ _ _ _ Hok1 Hfound Hdel)
    as (-> & Hok' & Htasks).
  rewrite Hdel. do 2 f_equal.
  destruct (AddTaskInfo_header AllocatedStatus ti ji) as (Hh1 & Hs1 & Hd1).
  destruct (DeleteTaskInfo_header _ _ _ _ _ Hdel) as (Hh2 & Hs2 & Hd2).
  apply (job_ok_ext AllocatedStatus); try assumption.
  - exact (same_header_trans _ _ _ Hh1 Hh2).
  - congruence.
  - congruence.
  - rewrite Htasks, AddTaskInfo_Tasks, delete_insert_eq.
    apply delete_id. exact Hfresh.
Qed.

(** X5.  Deleting a task that the job holds and adding the same task again
    returns the job as it was, all fields included. *)
Theorem Add_Delete_roundtrip ti ji ji1 err :
  job_ok AllocatedStatus ji ->
  ji_Tasks ji !! ti_UID ti = Some ti ->
  DeleteTaskInfo AllocatedStatus ti ji = Some (ji1, err) ->
  err = None /\ AddTaskInfo AllocatedStatus ti ji1 = ji.
Proof.
  intros Hok Hfound Hdel.
  destruct (DeleteTaskInfo_found _ _ _ _ _ _ Hok Hfound Hdel)
    as (-> & Hok1 & Htasks).
  split; [reflexivity |].
  assert (Hfresh : ji_Tasks ji1 !! ti_UID ti = None)
    by (rewrite Htasks; apply lookup_delete_eq).
  pose proof (AddTaskInfo_ok AllocatedStatus ti ji1 Hok1 Hfresh) as Hok2.
  destruct (AddTaskInfo_header AllocatedStatus ti ji1) as (Hh2 & Hs2 & Hd2).
  destruct (DeleteTaskInfo_header _ _ _ _ _ Hdel) as (Hh1 & Hs1 & Hd1).
  apply (job_ok_ext AllocatedStatus); try assumption.
  - exact (same_header_trans _ _ _ Hh1 Hh2).
  - congruence.
  - congruence.
  - rewrite AddTaskInfo_Tasks, Htasks, insert_delete_eq.
    apply insert_id. exact Hfound.
Qed.

(** X6.  [AddTaskInfo] with a task whose id the job already holds, on a job
    that satisfies the invariants: the task replaces the stored one in the
    task table, whose size does not change, but [TotalRequest] becomes the
    sum of the requests of the table plus the request of the task that
    was replaced, and when the statuses differ the bucket of the old status
    still holds the replaced task. *)
Theorem AddTaskInfo_existing_id ti old ji :
  rok ji ->
  ji_Tasks ji !! ti_UID ti = Some old ->
  ji_Tasks (radd ti ji) = <[ti_UID ti := ti]> (ji_Tasks ji)
  /\ size (ji_Tasks (radd ti ji)) = size (ji_Tasks ji)
  /\ ji_TotalRequest (radd ti ji)
     = Add (sum_Resreq (ji_Tasks (radd ti ji))) (ti_Resreq old)
  /\ (ti_Status old <> ti_Status ti ->
      exists b, ji_TaskStatusIndex (radd ti ji) !! ti_Status old = Some b
                /\ b !! ti_UID ti = Some old
                /\ ji_Tasks (radd ti ji) !! ti_UID ti <> Some old).
Proof.
  intros (Hkeys & Hidx & Halloc & Htotal) Hfound.
  unfold index_ok, TotalRequest_ok in *.
  split; [apply AddTaskInfo_Tasks |].
  split.
  { rewrite AddTaskInfo_Tasks. rewrite map_size_insert_Some; eauto. }
  split.
  { rewrite AddTaskInfo_TotalRequest, AddTaskInfo_Tasks, Htotal.
    assert (Hnew : sum_Resreq (<[ti_UID ti := ti]> (ji_Tasks ji))
                   = Add (sum_Resreq (delete (ti_UID ti) (ji_Tasks ji)))
                       (ti_Resreq ti)).
    { rewrite <- (insert_delete_eq (ji_Tasks ji)).
      apply sum_Resreq_insert, lookup_delete_eq. }
    rewrite Hnew, (sum_Resreq_delete _ _ _ Hfound).
    apply Add_comm_r. }
  intros Hne.
  exists (bucket_of (ji_Tasks ji) (ti_Status old)).
  assert (Hin : bucket_of (ji_Tasks ji) (ti_Status old) !! ti_UID ti
                = Some old).
  { rewrite bucket_of_lookup, Hfound. simpl.
    rewrite decide_True by reflexivity. reflexivity. }
  split; [| split; [exact Hin |]].
  - rewrite AddTaskInfo_index, lookup_insert_ne by congruence.
    rewrite Hidx, index_of_lookup. rewrite decide_False; [reflexivity |].
    intros He. rewrite He, lookup_empty in Hin. discriminate.
  - rewrite AddTaskInfo_Tasks, lookup_insert_eq. intros [= Heq].
    apply Hne. rewrite Heq. reflexivity.
Qed.

(** The aggregates and the task table after a run of [AddTaskInfo]. *)
Lemma adds_TotalRequest ji (tasks : list TaskInfo) :
  ji_TotalRequest (adds AllocatedStatus ji tasks)
  = foldl (fun r t => Add r (ti_Resreq t)) (ji_TotalRequest ji) tasks.
Proof.
  revert ji. induction tasks as [|t l IH]; intros ji; [reflexivity |].
  unfold adds in *. simpl. rewrite IH, AddTaskInfo_TotalRequest. reflexivity.
Qed.

Lemma adds_snoc ji (tasks : list TaskInfo) t :
  adds AllocatedStatus ji (tasks ++ [t])
  = radd t (adds AllocatedStatus ji tasks).
Proof. unfold adds. rewrite foldl_app. reflexivity. Qed.

Lemma last_filter_snoc {A} (P : A -> Prop) `{!forall x, Decision (P x)}
    (l : list A) (x : A) :
  last (filter P (l ++ [x]))
  = if decide (P x) then Some x else last (filter P l).
Proof.
  rewrite filter_app, filter_cons, filter_nil.
  destruct (decide (P x)).
  - apply last_snoc.
  - rewrite app_nil_r. reflexivity.
Qed.

Lemma adds_lookup ji (tasks : list TaskInfo) (id : string) :
  ji_Tasks ji = ∅ ->
  ji_Tasks (adds AllocatedStatus ji tasks) !! id
  = last (filter (fun t => ti_UID t = id) tasks).
Proof.
  intros Hempty. induction tasks as [|t l IH] using rev_ind.
  - unfold adds. simpl. rewrite Hempty. apply lookup_empty.
  - rewrite adds_snoc, AddTaskInfo_Tasks, last_filter_snoc.
    destruct (decide (ti_UID t = id)) as [<- | Hne].
    + apply lookup_insert_eq.
    + rewrite lookup_insert_ne by exact Hne. exact IH.
Qed.

Lemma adds_size ji (tasks : list TaskInfo) :
  ji_Tasks ji = ∅ -> NoDup (ti_UID <$> tasks) ->
  size (ji_Tasks (adds AllocatedStatus ji tasks)) = length tasks.
Proof.
  intros Hempty. induction tasks as [|t l IH] using rev_ind; intros Hnd.
  - unfold adds. simpl. rewrite Hempty. apply map_size_empty.
  - rewrite fmap_app in Hnd. apply NoDup_app in Hnd as (Hnd & Hnotin & _).
    rewrite adds_snoc, AddTaskInfo_Tasks, length_app. simpl.
    rewrite map_size_insert_None; [rewrite IH by exact Hnd; lia |].
    rewrite adds_lookup by exact Hempty.
    destruct (last _) as [t0|] eqn:Hlast; [| reflexivity].
    exfalso. apply last_Some_elem_of in Hlast.
    apply list_elem_of_filter in Hlast as [Hid Hin].
    apply (Hnotin (ti_UID t)).
    + rewrite <- Hid. apply list_elem_of_fmap_2. exact Hin.
    + simpl. apply list_elem_of_here.
Qed.

(** X7.  [NewJobInfo] on any list of tasks: [TotalRequest] is the sum of
    the requests of all the tasks given, each occurrence counted, while the
    task table maps an id to the last task given with that id; with
    distinct ids the table has as many tasks as were given.  The gang
    threshold of the new job is 0 and it has no node-fit delta. *)
Theorem NewJobInfo_spec (uid : string) (tasks : list TaskInfo) :
  ji_TotalRequest (NewJobInfo AllocatedStatus uid tasks)
  = sum_list_Resreq tasks
  /\ (forall id,
        ji_Tasks (NewJobInfo AllocatedStatus uid tasks) !! id
        = last (filter (fun t => ti_UID t = id) tasks))
  /\ (NoDup (ti_UID <$> tasks) ->
      size (ji_Tasks (NewJobInfo AllocatedStatus uid tasks)) = length tasks)
  /\ ji_UID (NewJobInfo AllocatedStatus uid tasks) = uid
  /\ ji_MinAvailable (NewJobInfo AllocatedStatus uid tasks) = 0
  /\ ji_NodesFitDelta (NewJobInfo AllocatedStatus uid tasks) = ∅.
Proof.
  unfold NewJobInfo. cbv zeta.
  set (job0 := mkJobInfo uid "" "" "" 0 ∅ 0 ∅ ∅ ∅ EmptyResource EmptyResource
                 0 None None).
  fold (adds AllocatedStatus job0 tasks).
  split; [apply adds_TotalRequest |].
  split; [intros id; apply adds_lookup; reflexivity |].
  split; [apply adds_size; reflexivity |].
  destruct (adds_header AllocatedStatus job0 tasks) as (Hh & _ & Hd).
  unfold same_header in Hh. rewrite Hd.
  destruct Hh as (-> & _ & _ & _ & _ & -> & _). auto.
Qed.

End JobRoundTrip.

(** ** Gang plugin and the job operations *)

Section GangJob.

Variable AllocatedStatus : TaskStatus -> bool.
Variable validateStatusUpdate : TaskStatus -> TaskStatus -> option string.

Abbreviation gadd := (AddTaskInfo AllocatedStatus).
Abbreviation gdelete := (DeleteTaskInfo AllocatedStatus).
Abbreviation gupdate :=
  (UpdateTaskStatus AllocatedStatus validateStatusUpdate).
Abbreviation gok := (job_ok AllocatedStatus).
Abbreviation nready := (readyTaskNum AllocatedStatus).
Abbreviation nvalid := (validTaskNum AllocatedStatus).
Abbreviation is_ready := (ready_status AllocatedStatus).
Abbreviation is_valid := (valid_status AllocatedStatus).

Implicit Types (ji : JobInfo) (ti task : TaskInfo).

(** 1 for a status that is counted, 0 for another. *)
Abbreviation unit_of b := (if b : bool then 1 else 0).

Lemma task_count_table (P : TaskStatus -> bool) ji ji' :
  ji_Tasks ji' = ji_Tasks ji -> task_count P ji' = task_count P ji.
Proof. unfold task_count. intros ->. reflexivity. Qed.

Lemma tasks_with_size_insert (P : TaskStatus -> bool)
    (tasks : gmap string TaskInfo) (uid : string) (t : TaskInfo) :
  tasks !! uid = None ->
  Z.of_nat (size (tasks_with P (<[uid := t]> tasks)))
  = Z.of_nat (size (tasks_with P tasks)) + unit_of (P (ti_Status t)).
Proof.
  intros Hfresh. rewrite tasks_with_insert by exact Hfresh.
  destruct (P (ti_Status t)); [| lia].
  rewrite map_size_insert_None; [lia |].
  rewrite tasks_with_lookup, Hfresh. reflexivity.
Qed.

Lemma tasks_with_size_delete (P : TaskStatus -> bool)
    (tasks : gmap string TaskInfo) (uid : string) (old : TaskInfo) :
  tasks !! uid = Some old ->
  Z.of_nat (size (tasks_with P (delete uid tasks)))
  = Z.of_nat (size (tasks_with P tasks)) - unit_of (P (ti_Status old)).
Proof.
  intros Hfound.
  rewrite <- (insert_id tasks uid old Hfound) at 2.
  rewrite <- insert_delete_eq.
  rewrite tasks_with_size_insert by apply lookup_delete_eq. lia.
Qed.

(** The counts of the gang plugin on a job that satisfies the invariants
    are the numbers of tasks of the table with a counted status. *)
Lemma task_nums_table ji :
  index_ok ji -> Z.of_nat (size (ji_Tasks ji)) < 2 ^ 31 ->
  nready ji = Z.of_nat (task_count is_ready ji)
  /\ nvalid ji = Z.of_nat (task_count is_valid ji).
Proof.
  intros Hidx Hb.
  assert (Hs : Z.of_nat (index_size ji) < 2 ^ 31)
    by (rewrite index_size_tasks by exact Hidx; exact Hb).
  rewrite readyTaskNum_exact, validTaskNum_exact by exact Hs.
  rewrite !bucket_count_task_count by exact Hidx. auto.
Qed.

(** X8.  On a job that satisfies the invariants and holds fewer than
    2^31 - 1 tasks: adding a task under a fresh id raises [readyTaskNum] by
    one when the status of the task is an allocated status, [Succeeded] or
    [Pipelined], and not otherwise, and likewise [validTaskNum] for these
    statuses and [Pending]; deleting a stored task lowers the two counts in
    the same way. *)
Theorem task_nums_add_delete ji :
  job_ok AllocatedStatus ji -> Z.of_nat (size (ji_Tasks ji)) + 1 < 2 ^ 31 ->
  (forall ti,
     ji_Tasks ji !! ti_UID ti = None ->
     nready (AddTaskInfo AllocatedStatus ti ji)
     = nready ji + unit_of (is_ready (ti_Status ti))
     /\ nvalid (AddTaskInfo AllocatedStatus ti ji)
        = nvalid ji + unit_of (is_valid (ti_Status ti)))
  /\ (forall ti old ji' err,
        ji_Tasks ji !! ti_UID ti = Some old ->
        DeleteTaskInfo AllocatedStatus ti ji = Some (ji', err) ->
        nready ji' = nready ji - unit_of (is_ready (ti_Status old))
        /\ nvalid ji' = nvalid ji - unit_of (is_valid (ti_Status old))).
Proof.
  intros Hok Hb.
  destruct (task_nums_table ji (proj1 (proj2 Hok)) ltac:(lia)) as [Hr Hv].
  split.
  - intros ti Hfresh.
    pose proof (AddTaskInfo_ok AllocatedStatus ti ji Hok Hfresh)
      as (_ & Hidx' & _).
    assert (Hsize : size (ji_Tasks (gadd ti ji)) = S (size (ji_Tasks ji))).
    { rewrite AddTaskInfo_Tasks. apply map_size_insert_None. exact Hfresh. }
    destruct (task_nums_table (gadd ti ji) Hidx' ltac:(lia)) as [-> ->].
    rewrite Hr, Hv. unfold task_count. rewrite AddTaskInfo_Tasks.
    rewrite !tasks_with_size_insert by exact Hfresh. auto.
  - intros ti old ji' err Hfound Hdel.
    destruct (DeleteTaskInfo_found _ _ _ _ _ _ Hok Hfound Hdel)
      as (_ & (_ & Hidx' & _) & Htasks).
    assert (Hsize : (size (ji_Tasks ji') <= size (ji_Tasks ji))%nat).
    { rewrite Htasks. rewrite map_size_delete, Hfound. lia. }
    destruct (task_nums_table ji' Hidx' ltac:(lia)) as [-> ->].
    rewrite Hr, Hv. unfold task_count. rewrite Htasks.
    rewrite !(tasks_with_size_delete _ _ _ _ Hfound). auto.
Qed.

(** X9.  A successful [UpdateTaskStatus] of a task that the job holds, on a
    job that satisfies the invariants and holds fewer than 2^31 tasks:
    [readyTaskNum] loses one when the status of the stored task was
    counted and gains one when the new status is counted, and likewise
    [validTaskNum]; the number of tasks does not change. *)
Theorem task_nums_update task task' old status ji ji' :
  gok ji -> Z.of_nat (size (ji_Tasks ji)) < 2 ^ 31 ->
  ji_Tasks ji !! ti_UID task = Some old ->
  gupdate task status ji = Some (ji', task', None) ->
  nready ji'
  = nready ji - unit_of (is_ready (ti_Status old)) + unit_of (is_ready status)
  /\ nvalid ji'
     = nvalid ji - unit_of (is_valid (ti_Status old))
       + unit_of (is_valid status)
  /\ size (ji_Tasks ji') = size (ji_Tasks ji).
Proof.
  intros Hok Hb Hfound Hupd.
  pose proof (UpdateTaskStatus_ok _ _ _ _ _ _ _ Hok Hupd) as (_ & Hidx' & _).
  destruct (task_nums_table ji (proj1 (proj2 Hok)) Hb) as [Hr Hv].
  unfold UpdateTaskStatus in Hupd.
  destruct (validateStatusUpdate (ti_Status task) status); [discriminate |].
  destruct (gdelete task ji) as [[ji1 err]|] eqn:Hdel;
    cbn [mbind option_bind] in Hupd; [| discriminate].
  injection Hupd as <- <-.
  destruct (DeleteTaskInfo_found _ _ _ _ _ _ Hok Hfound Hdel)
    as (_ & _ & Htasks1).
  assert (Htasks : ji_Tasks (gadd (set_Status status task) ji1)
                   = <[ti_UID task := set_Status status task]>
                       (delete (ti_UID task) (ji_Tasks ji))).
  { rewrite AddTaskInfo_Tasks, Htasks1. reflexivity. }
  assert (Hsize : size (ji_Tasks (gadd (set_Status status task) ji1))
                  = size (ji_Tasks ji)).
  { rewrite Htasks, insert_delete_eq. apply map_size_insert_Some. eauto. }
  destruct (task_nums_table _ Hidx' ltac:(rewrite Hsize; exact Hb))
    as [-> ->].
  rewrite Hr, Hv. unfold task_count. rewrite Htasks.
  rewrite !tasks_with_size_insert by apply lookup_delete_eq.
  rewrite !(tasks_with_size_delete _ _ _ _ Hfound). simpl.
  split_and!; [reflexivity | reflexivity |].
  rewrite insert_delete_eq. apply map_size_insert_Some. eauto.
Qed.

(** X10.  The gate of the gang plugin protects readiness: when a stored
    task with a counted status passes the test [MinAvailable <=
    readyTaskNum - 1] and is deleted from its job (invariants holding,
    fewer than 2^31 tasks), the job is still ready afterwards. *)
Theorem gate_keeps_job_ready ti old ji ji' err :
  gok ji -> Z.of_nat (size (ji_Tasks ji)) < 2 ^ 31 ->
  ji_Tasks ji !! ti_UID ti = Some old ->
  is_ready (ti_Status old) = true ->
  ji_MinAvailable ji <= nready ji - 1 ->
  gdelete ti ji = Some (ji', err) ->
  nready ji' = nready ji - 1
  /\ jobReady AllocatedStatus (JobObj ji') = Some true.
Proof.
  intros Hok Hb Hfound Hready Hgate Hdel.
  destruct (task_nums_table ji (proj1 (proj2 Hok)) Hb) as [Hr _].
  destruct (DeleteTaskInfo_found _ _ _ _ _ _ Hok Hfound Hdel)
    as (_ & (_ & Hidx' & _) & Htasks).
  destruct (DeleteTaskInfo_header _ _ _ _ _ Hdel) as (Hh & _).
  assert (Hmin : ji_MinAvailable ji' = ji_MinAvailable ji)
    by (unfold same_header in Hh; tauto).
  assert (Hsize : (size (ji_Tasks ji') <= size (ji_Tasks ji))%nat).
  { rewrite Htasks. rewrite map_size_delete, Hfound. lia. }
  destruct (task_nums_table ji' Hidx' ltac:(lia)) as [Hr' _].
  assert (Hn : nready ji' = nready ji - 1).
  { rewrite Hr', Hr. unfold task_count. rewrite Htasks.
    rewrite (tasks_with_size_delete _ _ _ _ Hfound), Hready. reflexivity. }
  split; [exact Hn |].
  rewrite jobReady_job. f_equal. apply bool_decide_eq_true. lia.
Qed.

(** X11.  Bounds of the counts on a job whose index is the one of its task
    table (fewer than 2^31 tasks): [0 <= readyTaskNum <= validTaskNum <=
    len(Tasks)].  So a job whose gang threshold exceeds its number of tasks
    is not ready and fails the validity check, and a job whose threshold is
    not positive is ready and passes it. *)
Theorem task_nums_bounds ji :
  index_ok ji -> Z.of_nat (size (ji_Tasks ji)) < 2 ^ 31 ->
  (0 <= nready ji /\ nready ji <= nvalid ji /\ nvalid ji <= len (ji_Tasks ji))
  /\ (len (ji_Tasks ji) < ji_MinAvailable ji ->
      jobReady AllocatedStatus (JobObj ji) = Some false
      /\ exists r, validJobFn AllocatedStatus (JobObj ji) = Some r
                   /\ vr_Pass r = false)
  /\ (ji_MinAvailable ji <= 0 ->
      jobReady AllocatedStatus (JobObj ji) = Some true
      /\ validJobFn AllocatedStatus (JobObj ji) = None).
Proof.
  intros Hidx Hb.
  destruct (task_nums_table ji Hidx Hb) as [Hr Hv].
  assert (Hs : Z.of_nat (index_size ji) < 2 ^ 31)
    by (rewrite index_size_tasks by exact Hidx; exact Hb).
  assert (Hbounds : 0 <= nready ji /\ nready ji <= nvalid ji
                    /\ nvalid ji <= len (ji_Tasks ji)).
  { rewrite readyTaskNum_exact, validTaskNum_exact by exact Hs.
    pose proof (bucket_sum_mono (ready_status AllocatedStatus)
                  (valid_status AllocatedStatus)
                  (map_to_list (ji_TaskStatusIndex ji))
                  (ready_valid AllocatedStatus)) as Hle.
    pose proof (bucket_count_le_index_size
                  (valid_status AllocatedStatus) ji) as Hle'.
    rewrite index_size_tasks in Hle' by exact Hidx.
    unfold bucket_count, len in *. lia. }
  split; [exact Hbounds |]. split.
  - intros Hlt. split.
    + rewrite jobReady_job. f_equal. apply bool_decide_eq_false. lia.
    + simpl. destruct (Z.ltb_spec (nvalid ji) (ji_MinAvailable ji)); [| lia].
      eexists. split; reflexivity.
  - intros Hle. split.
    + rewrite jobReady_job. f_equal. apply bool_decide_eq_true. lia.
    + simpl. destruct (Z.ltb_spec (nvalid ji) (ji_MinAvailable ji));
        [lia | reflexivity].
Qed.

End GangJob.

(** ** Gang plugin: order, victims and session close *)

Section GangMore.

Variable AllocatedStatus : TaskStatus -> bool.
Variable clock : nat -> Z.

Abbreviation order_of := (jobOrderFn AllocatedStatus).
Abbreviation victims_of := (preemptableFn AllocatedStatus).
Abbreviation passes := (preemptable AllocatedStatus).

(** X12.  The order function of the gang plugin is a three-way comparison
    of jobs by readiness: a job compares equal to itself, exchanging the
    arguments negates the result, and "not after" is transitive.  On a
    value that is no job, in either position, the type assertion
    panics. *)
Theorem jobOrderFn_laws (a b c : JobInfo) :
  order_of (JobObj a) (JobObj a) = Some 0
  /\ (exists x, order_of (JobObj a) (JobObj b) = Some x
                /\ order_of (JobObj b) (JobObj a) = Some (- x)
                /\ - 1 <= x <= 1)
  /\ (forall x y,
        order_of (JobObj a) (JobObj b) = Some x ->
        order_of (JobObj b) (JobObj c) = Some y ->
        x <= 0 -> y <= 0 ->
        exists z, order_of (JobObj a) (JobObj c) = Some z /\ z <= 0)
  /\ (forall repr o,
        order_of (OtherObj repr) o = None
        /\ order_of o (OtherObj repr) = None).
Proof.
  unfold jobOrderFn. rewrite !jobReady_job. cbn [mbind option_bind].
  destruct (bool_decide (ji_MinAvailable a <= readyTaskNum AllocatedStatus a));
    destruct (bool_decide
                (ji_MinAvailable b <= readyTaskNum AllocatedStatus b));
    destruct (bool_decide
                (ji_MinAvailable c <= readyTaskNum AllocatedStatus c));
    cbn [andb].
  all: split; [reflexivity |].
  all: split; [eexists; split_and!; try reflexivity; lia |].
  all: split;
    [ intros x y [= <-] [= <-] Hx Hy;
      first [lia | eexists; split; [reflexivity | lia]]
    | intros repr [J | repr']; split; try reflexivity;
      simpl; rewrite ?jobReady_job; reflexivity ].
Qed.

Lemma preemptableFn_None (jobs : gmap string JobInfo)
    (preemptor : TaskInfo) (preemptees : list TaskInfo) :
  victims_of jobs preemptor preemptees = None ->
  exists t, t ∈ preemptees /\ jobs !! ti_Job t = None.
Proof.
  induction preemptees as [|t l IH] using rev_ind.
  - discriminate.
  - rewrite preemptableFn_app.
    destruct (victims_of jobs preemptor l) as [v|] eqn:Hl.
    + cbn [mbind option_bind].
      destruct (jobs !! ti_Job t) as [J|] eqn:HJ.
      * cbn [mbind option_bind]. destruct (negb (passes J)); discriminate.
      * intros _. exists t. split; [| exact HJ].
        apply elem_of_app. right. apply list_elem_of_here.
    + intros _. destruct (IH eq_refl) as (t' & Hin & Hnone).
      exists t'. split; [| exact Hnone]. apply elem_of_app. left. exact Hin.
Qed.

Lemma preemptableFn_Some (jobs : gmap string JobInfo)
    (preemptor : TaskInfo) (preemptees victims : list TaskInfo) :
  victims_of jobs preemptor preemptees = Some victims ->
  victims
  = filter (fun t => (passes <$> jobs !! ti_Job t) = Some true) preemptees.
Proof.
  intros Hv.
  assert (Hall : forall t, t ∈ preemptees -> is_Some (jobs !! ti_Job t)).
  { intros t Hin. destruct (jobs !! ti_Job t) eqn:HJ; [eauto |].
    rewrite (preemptableFn_missing_job AllocatedStatus jobs preemptor
               preemptees t Hin HJ) in Hv. discriminate. }
  rewrite (preemptableFn_filter AllocatedStatus jobs preemptor preemptees Hall)
    in Hv.
  congruence.
Qed.

Lemma filter_idemp {A} (P : A -> Prop) `{!forall x, Decision (P x)}
    (l : list A) :
  filter P (filter P l) = filter P l.
Proof.
  induction l as [|x l IH]; [reflexivity |].
  rewrite filter_cons. destruct (decide (P x)) as [HP | HP].
  - rewrite filter_cons, decide_True by exact HP. f_equal. exact IH.
  - exact IH.
Qed.

(** X13.  The victim filter panics exactly when the session holds no job
    for one of the candidates: [ssn.Jobs] gives [nil] for it and
    [readyTaskNum] dereferences it. *)
Theorem preemptableFn_panics_iff (jobs : gmap string JobInfo)
    (preemptor : TaskInfo) (preemptees : list TaskInfo) :
  victims_of jobs preemptor preemptees = None
  <-> exists t, t ∈ preemptees /\ jobs !! ti_Job t = None.
Proof.
  split.
  - apply preemptableFn_None.
  - intros (t & Hin & Hnone).
    exact (preemptableFn_missing_job AllocatedStatus jobs preemptor
             preemptees t Hin Hnone).
Qed.

(** X14.  When the victim filter returns, its result is a sublist of the
    candidates that does not depend on the preemptor, the filter keeps
    all of its own result, and on two lists of candidates one after the
    other it returns the two results one after the other. *)
Theorem preemptableFn_victims (jobs : gmap string JobInfo)
    (preemptor : TaskInfo) (preemptees victims : list TaskInfo) :
  victims_of jobs preemptor preemptees = Some victims ->
  sublist victims preemptees
  /\ (forall other, victims_of jobs other preemptees = Some victims)
  /\ victims_of jobs preemptor victims = Some victims
  /\ (forall more victims',
        victims_of jobs preemptor more = Some victims' ->
        victims_of jobs preemptor (preemptees ++ more)
        = Some (victims ++ victims')).
Proof.
  intros Hv.
  pose proof (preemptableFn_Some _ _ _ _ Hv) as Heq.
  assert (Hall : forall l v p,
             victims_of jobs p l = Some v ->
             forall t, t ∈ l -> is_Some (jobs !! ti_Job t)).
  { intros l v p Hl t Hin. destruct (jobs !! ti_Job t) eqn:HJ; [eauto |].
    rewrite (preemptableFn_missing_job AllocatedStatus jobs p l t Hin HJ)
      in Hl. discriminate. }
  split; [rewrite Heq; apply sublist_filter |].
  split.
  { intros other.
    rewrite (preemptableFn_filter AllocatedStatus jobs other preemptees
               (Hall _ _ _ Hv)).
    rewrite Heq. reflexivity. }
  split.
  { rewrite preemptableFn_filter.
    - rewrite Heq at 1. rewrite filter_idemp, <- Heq. reflexivity.
    - intros t Hin. apply (Hall _ _ _ Hv).
      rewrite Heq in Hin. apply list_elem_of_filter in Hin. tauto. }
  intros more victims' Hmore.
  pose proof (preemptableFn_Some _ _ _ _ Hmore) as Heq'.
  rewrite preemptableFn_filter.
  - rewrite filter_app, <- Heq, <- Heq'. reflexivity.
  - intros t Hin. apply elem_of_app in Hin as [Hin | Hin].
    + exact (Hall _ _ _ Hv t Hin).
    + exact (Hall _ _ _ Hmore t Hin).
Qed.

(** X15.  The clause [MinAvailable == 1] of the gate lets a gang of one
    lose its only ready task: on a job with [MinAvailable = 1] and one
    ready task (invariants holding) the task passes the gate, the job is
    ready, and after [DeleteTaskInfo] of the task the job is not ready. *)
Theorem gate_of_singleton_gang ti old ji ji' err :
  job_ok AllocatedStatus ji ->
  Z.of_nat (size (ji_Tasks ji)) < 2 ^ 31 ->
  ji_Tasks ji !! ti_UID ti = Some old ->
  ready_status AllocatedStatus (ti_Status old) = true ->
  ji_MinAvailable ji = 1 ->
  readyTaskNum AllocatedStatus ji = 1 ->
  DeleteTaskInfo AllocatedStatus ti ji = Some (ji', err) ->
  passes ji = true
  /\ jobReady AllocatedStatus (JobObj ji) = Some true
  /\ readyTaskNum AllocatedStatus ji' = 0
  /\ jobReady AllocatedStatus (JobObj ji') = Some false.
Proof.
  intros Hok Hb Hfound Hready Hmin Hone Hdel.
  destruct (task_nums_table AllocatedStatus ji (proj1 (proj2 Hok)) Hb)
    as [Hr _].
  destruct (DeleteTaskInfo_found _ _ _ _ _ _ Hok Hfound Hdel)
    as (_ & (_ & Hidx' & _) & Htasks).
  destruct (DeleteTaskInfo_header _ _ _ _ _ Hdel) as (Hh & _).
  assert (Hmin' : ji_MinAvailable ji' = ji_MinAvailable ji)
    by (unfold same_header in Hh; tauto).
  assert (Hsize : (size (ji_Tasks ji') <= size (ji_Tasks ji))%nat).
  { rewrite Htasks. rewrite map_size_delete, Hfound. lia. }
  destruct (task_nums_table AllocatedStatus ji' Hidx' ltac:(lia))
    as [Hr' _].
  assert (Hn : readyTaskNum AllocatedStatus ji' = 0).
  { rewrite Hr'. rewrite Hone in Hr. unfold task_count in *.
    rewrite Htasks.
    rewrite (tasks_with_size_delete _ _ _ _ Hfound), Hready. lia. }
  split.
  { unfold preemptable. rewrite Hmin. apply orb_true_r. }
  split.
  { rewrite jobReady_job. f_equal. apply bool_decide_eq_true. lia. }
  split; [exact Hn |].
  rewrite jobReady_job. f_equal. apply bool_decide_eq_false. lia.
Qed.

Lemma length_mjoin_imap {A B} (f : nat -> A -> list B) (n : nat)
    (l : list A) :
  (forall i x, length (f i x) = n) ->
  length (mjoin (imap f l)) = (n * length l)%nat.
Proof.
  revert f. induction l as [|x l IH]; intros f Hf.
  - simpl. lia.
  - cbn [imap mjoin list_join length]. rewrite length_app, Hf, IH.
    + lia.
    + intros i y. apply Hf.
Qed.

Lemma reports_length (ssn : Session) (k : nat) (jobs : list JobInfo) :
  length (reports AllocatedStatus clock ssn k jobs)
  = (3 * length (unready AllocatedStatus jobs))%nat.
Proof. unfold reports. apply length_mjoin_imap. reflexivity. Qed.

(** X16.  [OnSessionClose] never panics on a session of jobs: it makes
    three calls for each job that is not ready and then one call of
    [UpdateUnscheduleJobCount].  It makes the single call
    [UpdateUnscheduleJobCount(0)] if and only if every job of the session
    is ready, an empty session included. *)
Theorem OnSessionClose_silent_iff (ssn : Session) :
  (exists trace count,
     OnSessionClose AllocatedStatus clock ssn
     = Some (trace ++ [UpdateUnscheduleJobCount count])
     /\ length trace
        = (3 * length (unready AllocatedStatus
                         (map_to_list (ssn_Jobs ssn)).*2))%nat)
  /\ (OnSessionClose AllocatedStatus clock ssn
      = Some [UpdateUnscheduleJobCount 0]
      <-> map_Forall
            (fun _ J => ji_MinAvailable J <= readyTaskNum AllocatedStatus J)
            (ssn_Jobs ssn)).
Proof.
  unfold OnSessionClose, OnSessionClose_in. rewrite close_loop.
  cbn [mbind option_bind].
  split.
  { eexists _, _. split; [reflexivity |]. apply reports_length. }
  split.
  - intros Heq. injection Heq as Heq.
    change [UpdateUnscheduleJobCount 0]
      with ([] ++ [UpdateUnscheduleJobCount 0]) in Heq.
    apply app_inj_tail in Heq as [Hnil _].
    apply (f_equal length) in Hnil. rewrite reports_length in Hnil.
    simpl in Hnil.
    assert (Hun : unready AllocatedStatus (map_to_list (ssn_Jobs ssn)).*2
                  = []).
    { apply length_zero_iff_nil. lia. }
    intros key J HJ.
    destruct (decide (readyTaskNum AllocatedStatus J < ji_MinAvailable J))
      as [Hlt |]; [| lia].
    assert (Hin : J ∈ unready AllocatedStatus (map_to_list (ssn_Jobs ssn)).*2).
    { unfold unready. apply list_elem_of_filter. split; [exact Hlt |].
      apply (list_elem_of_fmap_2 snd _ (key, J)).
      apply elem_of_map_to_list. exact HJ. }
    rewrite Hun in Hin. apply elem_of_nil in Hin. contradiction.
  - intros Hall.
    assert (Hun : unready AllocatedStatus (map_to_list (ssn_Jobs ssn)).*2
                  = []).
    { apply elem_of_nil_inv. intros J HJ. unfold unready in HJ.
      apply list_elem_of_filter in HJ as [Hlt Hin].
      apply list_elem_of_fmap in Hin as ([key J'] & -> & Hin).
      apply elem_of_map_to_list in Hin.
      pose proof (Hall key J' Hin) as Hle. simpl in *. lia. }
    unfold reports. rewrite Hun. reflexivity.
Qed.

End GangMore.

(** ** [Clone], [FitError], [GetTasks] and [getJobID] *)

Section CloneMore.

Variable AllocatedStatus : TaskStatus -> bool.

Abbreviation cloned := (Clone_in AllocatedStatus).

Lemma Clone_in_header order ji :
  same_header ji (cloned order ji)
  /\ ji_NodeSelector (cloned order ji) = ji_NodeSelector ji
  /\ ji_NodesFitDelta (cloned order ji) = ∅.
Proof.
  destruct (Clone_in_adds AllocatedStatus order ji)
    as (info & E & _ & Hh & Hs & Hd).
  destruct (adds_header AllocatedStatus info order.*2) as (Hah & Has & Had).
  rewrite <- E in Hah, Has, Had.
  split; [exact (same_header_trans _ _ _ Hh Hah) |].
  split; congruence.
Qed.

(** X17.  [Clone] does not copy the node-fit deltas: whatever deltas the
    job records and in whatever order the tasks are visited, [FitError]
    of the clone is ["0 nodes are available"]. *)
Theorem FitError_of_Clone order ji :
  FitError (cloned order ji) = "0 nodes are available"
  /\ FitError (Clone AllocatedStatus ji) = "0 nodes are available".
Proof.
  split; apply FitError_no_delta; apply Clone_in_header.
Qed.

(** X18.  For a job whose tasks are stored under their ids, whatever its
    index and aggregates: the clone satisfies the invariants, and cloning
    the clone gives the clone again.  When the job satisfies the
    invariants itself, the clone is the job without its node-fit deltas,
    every other field being equal. *)
Theorem Clone_fixpoint order ji :
  keys_ok ji ->
  order ≡ₚ map_to_list (ji_Tasks ji) ->
  job_ok AllocatedStatus (cloned order ji)
  /\ (forall order',
        order' ≡ₚ map_to_list (ji_Tasks (cloned order ji)) ->
        cloned order' (cloned order ji) = cloned order ji)
  /\ (job_ok AllocatedStatus ji ->
      cloned order ji = set_NodesFitDelta ∅ ji).
Proof.
  intros Hkeys Hperm.
  pose proof (Clone_in_ok AllocatedStatus order ji Hkeys Hperm) as Hok.
  destruct (Clone_in_header order ji) as (Hh & Hs & Hd).
  split; [exact Hok |]. split.
  - intros order' Hperm'.
    pose proof (Clone_in_ok AllocatedStatus order' _ (proj1 Hok) Hperm')
      as Hok'.
    destruct (Clone_in_header order' (cloned order ji)) as (Hh' & Hs' & Hd').
    apply (job_ok_ext AllocatedStatus); try assumption.
    + congruence.
    + apply Clone_in_Tasks; [exact (proj1 Hok) | exact Hperm'].
  - intros Hji.
    apply (job_ok_ext AllocatedStatus).
    + exact Hji.
    + exact Hok.
    + exact Hh.
    + exact Hs.
    + exact Hd.
    + exact (Clone_in_Tasks AllocatedStatus order ji Hkeys Hperm).
Qed.

End CloneMore.

Section FitErrorMore.

Lemma fitReasons_step_fits reasons (kv : string * Resource) :
  fits kv.2 -> fitReasons_step reasons kv = reasons.
Proof.
  intros (Hc & Hm & Hg). unfold fitReasons_step.
  destruct (Z.ltb_spec (Get kv.2 ResourceCPU) 0); [lia |].
  destruct (Z.ltb_spec (Get kv.2 ResourceMemory) 0); [lia |].
  destruct (Z.ltb_spec (Get kv.2 GPUResourceName) 0); [lia |].
  reflexivity.
Qed.

Lemma fitReasons_fits nodes :
  Forall (fun kv => fits kv.2) nodes -> fitReasons nodes = ∅.
Proof.
  unfold fitReasons. generalize (∅ : gmap string Z).
  induction nodes as [|kv nodes IH]; intros reasons Hall; [reflexivity |].
  apply Forall_cons in Hall as [Hkv Hall]. cbn [foldl].
  rewrite fitReasons_step_fits by exact Hkv. apply IH. exact Hall.
Qed.

(** X19.  When the job records deltas and none of them is negative for
    cpu, memory or GPU, the histogram of [FitError] is empty and the
    message ends with an empty list of reasons:
    ["0/N nodes are available, ."]. *)
Theorem FitError_without_reason ji :
  ji_NodesFitDelta ji <> ∅ ->
  map_Forall (fun _ v => fits v) (ji_NodesFitDelta ji) ->
  fitReasons (map_to_list (ji_NodesFitDelta ji)) = ∅
  /\ FitError ji
     = "0/" +:+ fmt_d (len (ji_NodesFitDelta ji))
       +:+ " nodes are available, .".
Proof.
  intros Hne Hall.
  assert (Hempty : fitReasons (map_to_list (ji_NodesFitDelta ji)) = ∅).
  { apply fitReasons_fits. apply Forall_forall. intros [node v] Hin.
    apply elem_of_map_to_list in Hin. exact (Hall node v Hin). }
  split; [exact Hempty |].
  unfold FitError, FitError_in. rewrite Hempty, map_to_list_empty.
  destruct (Z.eqb_spec (len (ji_NodesFitDelta ji)) 0) as [Hz |].
  - exfalso. apply Hne. apply map_size_empty_iff. unfold len in Hz. lia.
  - reflexivity.
Qed.

End FitErrorMore.

Section GetTasksFacts.

Variable visit : gmap string TaskInfo -> list (string * TaskInfo).
Hypothesis visit_perm : forall m, visit m ≡ₚ map_to_list m.






End GetTasksFacts.

Section JobIDFacts.

Variable GroupNameAnnotationKey : string.

Abbreviation job_id := (getJobID GroupNameAnnotationKey).
Abbreviation group_name pod :=
  (pod_Annotations pod !! GroupNameAnnotationKey).

Lemma qualified_not_empty (ns gn : string) : ns +:+ "/" +:+ gn <> "".
Proof. destruct ns; discriminate. Qed.

Lemma getJobID_group pod gn :
  group_name pod = Some gn -> gn <> "" ->
  job_id pod = pod_Namespace pod +:+ "/" +:+ gn.
Proof.
  intros Hgn Hne. unfold getJobID. rewrite Hgn.
  destruct (Z.eqb_spec (len (pod_Annotations pod)) 0) as [Hz |].
  - assert (pod_Annotations pod = ∅) as Hempty
      by (apply map_size_empty_iff; unfold len in Hz; lia).
    rewrite Hempty, lookup_empty in Hgn. discriminate.
  - cbn [negb]. destruct gn; [contradiction | reflexivity].
Qed.

Lemma getJobID_no_group pod :
  group_name pod = None \/ group_name pod = Some "" -> job_id pod = "".
Proof.
  intros [Hgn | Hgn]; unfold getJobID; rewrite Hgn;
    destruct (negb (len (pod_Annotations pod) =? 0)); reflexivity.
Qed.

(** X21.  [getJobID] returns the empty id exactly for a pod without a
    group name, the annotation being absent or empty; for any other pod
    it returns the namespace, a slash and the group name.  The test on
    the number of annotations changes nothing. *)
Theorem getJobID_spec pod :
  (getJobID GroupNameAnnotationKey pod = ""
   <-> group_name pod = None \/ group_name pod = Some "")
  /\ (forall gn,
        group_name pod = Some gn -> gn <> "" ->
        getJobID GroupNameAnnotationKey pod = pod_Namespace pod +:+ "/" +:+ gn).
Proof.
  split; [| apply getJobID_group]. split; [| apply getJobID_no_group].
  intros Hid. destruct (group_name pod) as [gn|] eqn:Hgn; [| auto].
  destruct (decide (gn = "")) as [-> | Hne]; [auto |].
  rewrite (getJobID_group pod gn Hgn Hne) in Hid.
  destruct (qualified_not_empty _ _ Hid).
Qed.

Lemma qualified_inj (ns1 ns2 gn1 gn2 : string) :
  no_slash ns1 = true -> no_slash ns2 = true ->
  ns1 +:+ "/" +:+ gn1 = ns2 +:+ "/" +:+ gn2 ->
  ns1 = ns2 /\ gn1 = gn2.
Proof.
  revert ns2. induction ns1 as [|c ns1 IH]; intros [|c' ns2] H1 H2 Heq;
    cbn [String.append] in Heq.
  - injection Heq as Heq. auto.
  - injection Heq as <- _. exfalso. cbn [no_slash] in H2.
    apply andb_true_iff in H2 as [H2 _]. vm_compute in H2. discriminate.
  - injection Heq as -> _. exfalso. cbn [no_slash] in H1.
    apply andb_true_iff in H1 as [H1 _]. vm_compute in H1. discriminate.
  - injection Heq as -> Heq. cbn [no_slash] in H1, H2.
    apply andb_true_iff in H1 as [_ H1]. apply andb_true_iff in H2 as [_ H2].
    destruct (IH ns2 H1 H2 Heq) as [-> ->]. auto.
Qed.

(** X22.  Two pods whose namespaces hold no slash and that get the same
    job id, not empty, have the same namespace and the same group
    name. *)
Theorem getJobID_injective pod1 pod2 :
  no_slash (pod_Namespace pod1) = true ->
  no_slash (pod_Namespace pod2) = true ->
  job_id pod1 <> "" ->
  job_id pod1 = job_id pod2 ->
  pod_Namespace pod1 = pod_Namespace pod2
  /\ group_name pod1 = group_name pod2.
Proof.
  intros H1 H2 Hne Heq.
  assert (Hgroup : forall pod, job_id pod <> "" ->
            exists gn, group_name pod = Some gn /\ gn <> ""
                       /\ job_id pod = pod_Namespace pod +:+ "/" +:+ gn).
  { intros pod Hpod. destruct (group_name pod) as [gn|] eqn:Hgn.
    - destruct (decide (gn = "")) as [-> | Hgne].
      + destruct Hpod. apply getJobID_no_group. auto.
      + exists gn. split_and!; [reflexivity | exact Hgne |].
        apply getJobID_group; assumption.
    - destruct Hpod. apply getJobID_no_group. auto. }
  destruct (Hgroup pod1 Hne) as (gn1 & Hg1 & _ & E1).
  destruct (Hgroup pod2 ltac:(congruence)) as (gn2 & Hg2 & _ & E2).
  rewrite E1, E2 in Heq.
  destruct (qualified_inj _ _ _ _ H1 H2 Heq) as [Hns Hgn].
  split; [exact Hns |]. rewrite Hg1, Hg2, Hgn. reflexivity.
Qed.

End JobIDFacts.

(** ** The further properties on the sample jobs *)

Section MoreSamples.

Import samples more_samples.

Abbreviation AS := spec_AllocatedStatus.

Lemma job_mixed_ok : job_ok AS job_mixed.
Proof.
  split; [compute_done |]. split; [vm_compute; reflexivity |].
  split; vm_compute; reflexivity.
Qed.

Lemma job_S_ok : job_ok AS job_S.
Proof.
  split; [compute_done |]. split; [vm_compute; reflexivity |].
  split; vm_compute; reflexivity.
Qed.

Lemma job_A_nonneg : requests_nonneg job_A.
Proof.
  intros uid t Ht.
  assert (Hin : (uid, t) ∈ map_to_list (ji_Tasks job_A))
    by (apply elem_of_map_to_list; exact Ht).
  vm_compute map_to_list in Hin.
  apply elem_of_cons in Hin as [[= -> ->] | Hin];
    [vm_compute; intuition discriminate |].
  apply list_elem_of_singleton in Hin as [= -> ->].
  vm_compute; intuition discriminate.
Qed.

Lemma DeleteTaskInfo_spec_witness :
  job_ok AS job_A
  /\ DeleteTaskInfo AS r1 job_A = Some (job_A_less, None)
  /\ ji_Tasks job_A_less = delete (ti_UID r1) (ji_Tasks job_A)
  /\ job_ok AS job_A_less.
Proof.
  assert (Hdel : DeleteTaskInfo AS r1 job_A = Some (job_A_less, None))
    by (vm_compute; reflexivity).
  split; [exact job_A_ok |]. split; [exact Hdel |].
  destruct (DeleteTaskInfo_spec AS r1 job_A job_A_less None job_A_ok Hdel)
    as (_ & _ & Ht & _ & Hok & _).
  split; [exact Ht | exact Hok].
Defined.

Lemma UpdateTaskStatus_moves_witness :
  job_ok AS job_A
  /\ UpdateTaskStatus AS no_check r1 Pending job_A
     = Some (job_A_moved, set_Status Pending r1, None)
  /\ ji_Tasks job_A_moved
     = <[ti_UID r1 := set_Status Pending r1]> (ji_Tasks job_A)
  /\ job_ok AS job_A_moved.
Proof.
  assert (Hupd : UpdateTaskStatus AS no_check r1 Pending job_A
                 = Some (job_A_moved, set_Status Pending r1, None))
    by (vm_compute; reflexivity).
  split; [exact job_A_ok |]. split; [exact Hupd |].
  destruct (UpdateTaskStatus_moves AS no_check r1 (set_Status Pending r1)
              Pending job_A job_A_moved job_A_ok Hupd)
    as (_ & Ht & _ & _ & Hok).
  split; [exact Ht | exact Hok].
Defined.

Lemma Delete_Add_roundtrip_witness :
  job_ok AS job_A /\ requests_nonneg job_A /\ nonneg (ti_Resreq d1)
  /\ ji_Tasks job_A !! ti_UID d1 = None
  /\ DeleteTaskInfo AS d1 (AddTaskInfo AS d1 job_A) = Some (job_A, None).
Proof.
  assert (Hnn : nonneg (ti_Resreq d1)) by (vm_compute; intuition discriminate).
  assert (Hfresh : ji_Tasks job_A !! ti_UID d1 = None)
    by (vm_compute; reflexivity).
  split; [exact job_A_ok |]. split; [exact job_A_nonneg |].
  split; [exact Hnn |]. split; [exact Hfresh |].
  exact (Delete_Add_roundtrip AS d1 job_A job_A_ok job_A_nonneg Hnn Hfresh).
Defined.

Lemma Add_Delete_roundtrip_witness :
  job_ok AS job_A /\ ji_Tasks job_A !! ti_UID r1 = Some r1
  /\ DeleteTaskInfo AS r1 job_A = Some (job_A_less, None)
  /\ AddTaskInfo AS r1 job_A_less = job_A.
Proof.
  assert (Hfound : ji_Tasks job_A !! ti_UID r1 = Some r1)
    by (vm_compute; reflexivity).
  assert (Hdel : DeleteTaskInfo AS r1 job_A = Some (job_A_less, None))
    by (vm_compute; reflexivity).
  split; [exact job_A_ok |]. split; [exact Hfound |]. split; [exact Hdel |].
  exact (proj2 (Add_Delete_roundtrip AS r1 job_A job_A_less None job_A_ok
                  Hfound Hdel)).
Defined.

Lemma AddTaskInfo_existing_id_witness :
  job_ok AS job_A /\ ji_Tasks job_A !! ti_UID r1_pending = Some r1
  /\ size (ji_Tasks (AddTaskInfo AS r1_pending job_A))
     = size (ji_Tasks job_A)
  /\ ji_TotalRequest (AddTaskInfo AS r1_pending job_A)
     = Add (sum_Resreq (ji_Tasks (AddTaskInfo AS r1_pending job_A)))
         (ti_Resreq r1).
Proof.
  assert (Hfound : ji_Tasks job_A !! ti_UID r1_pending = Some r1)
    by (vm_compute; reflexivity).
  split; [exact job_A_ok |]. split; [exact Hfound |].
  destruct (AddTaskInfo_existing_id AS r1_pending r1 job_A job_A_ok Hfound)
    as (_ & Hsize & Htotal & _).
  split; [exact Hsize | exact Htotal].
Defined.

Lemma task_nums_add_delete_witness :
  job_ok AS job_A /\ Z.of_nat (size (ji_Tasks job_A)) + 1 < 2 ^ 31
  /\ readyTaskNum AS (AddTaskInfo AS d1 job_A) = readyTaskNum AS job_A + 1
  /\ validTaskNum AS job_A_less = validTaskNum AS job_A - 1.
Proof.
  assert (Hb : Z.of_nat (size (ji_Tasks job_A)) + 1 < 2 ^ 31)
    by (vm_compute; reflexivity).
  split; [exact job_A_ok |]. split; [exact Hb |].
  destruct (task_nums_add_delete AS job_A job_A_ok Hb) as [Hadd Hdel].
  split.
  - exact (proj1 (Hadd d1 ltac:(vm_compute; reflexivity))).
  - exact (proj2 (Hdel r1 r1 job_A_less None ltac:(vm_compute; reflexivity)
                    ltac:(vm_compute; reflexivity))).
Defined.

Lemma task_nums_update_witness :
  job_ok AS job_A /\ Z.of_nat (size (ji_Tasks job_A)) < 2 ^ 31
  /\ UpdateTaskStatus AS no_check r1 Pending job_A
     = Some (job_A_moved, set_Status Pending r1, None)
  /\ readyTaskNum AS job_A_moved = readyTaskNum AS job_A - 1 + 0
  /\ validTaskNum AS job_A_moved = validTaskNum AS job_A - 1 + 1.
Proof.
  assert (Hb : Z.of_nat (size (ji_Tasks job_A)) < 2 ^ 31)
    by (vm_compute; reflexivity).
  assert (Hupd : UpdateTaskStatus AS no_check r1 Pending job_A
                 = Some (job_A_moved, set_Status Pending r1, None))
    by (vm_compute; reflexivity).
  split; [exact job_A_ok |]. split; [exact Hb |]. split; [exact Hupd |].
  destruct (task_nums_update AS no_check r1 (set_Status Pending r1) r1
              Pending job_A job_A_moved job_A_ok Hb
              ltac:(vm_compute; reflexivity) Hupd)
    as (Hr & Hv & _).
  split; [exact Hr | exact Hv].
Defined.

Lemma gate_keeps_job_ready_witness :
  job_ok AS job_mixed
  /\ ji_MinAvailable job_mixed <= readyTaskNum AS job_mixed - 1
  /\ DeleteTaskInfo AS r1 job_mixed = Some (job_mixed_less, None)
  /\ jobReady AS (JobObj job_mixed_less) = Some true.
Proof.
  assert (Hgate : ji_MinAvailable job_mixed <= readyTaskNum AS job_mixed - 1)
    by (vm_compute; discriminate).
  assert (Hdel : DeleteTaskInfo AS r1 job_mixed = Some (job_mixed_less, None))
    by (vm_compute; reflexivity).
  split; [exact job_mixed_ok |]. split; [exact Hgate |].
  split; [exact Hdel |].
  exact (proj2 (gate_keeps_job_ready AS r1 r1 job_mixed job_mixed_less None
                  job_mixed_ok ltac:(vm_compute; reflexivity)
                  ltac:(vm_compute; reflexivity) ltac:(reflexivity)
                  Hgate Hdel)).
Defined.

Lemma task_nums_bounds_witness :
  index_ok job_short /\ Z.of_nat (size (ji_Tasks job_short)) < 2 ^ 31
  /\ len (ji_Tasks job_short) < ji_MinAvailable job_short
  /\ jobReady AS (JobObj job_short) = Some false.
Proof.
  assert (Hidx : index_ok job_short) by (vm_compute; reflexivity).
  assert (Hb : Z.of_nat (size (ji_Tasks job_short)) < 2 ^ 31)
    by (vm_compute; reflexivity).
  assert (Hlt : len (ji_Tasks job_short) < ji_MinAvailable job_short)
    by (vm_compute; reflexivity).
  split; [exact Hidx |]. split; [exact Hb |]. split; [exact Hlt |].
  destruct (task_nums_bounds AS job_short Hidx Hb) as (_ & Hhigh & _).
  exact (proj1 (Hhigh Hlt)).
Defined.

Lemma preemptableFn_victims_witness :
  preemptableFn AS (ssn_Jobs (session [job_A; job_B; job_S])) q1 [r1; s1]
  = Some [s1]
  /\ preemptableFn AS (ssn_Jobs (session [job_A; job_B; job_S])) q1 [s1]
     = Some [s1]
  /\ preemptableFn AS (ssn_Jobs (session [job_A; job_B; job_S])) p1 [r1; s1]
     = Some [s1].
Proof.
  assert (Hv : preemptableFn AS (ssn_Jobs (session [job_A; job_B; job_S]))
                 q1 [r1; s1] = Some [s1]) by (vm_compute; reflexivity).
  split; [exact Hv |].
  destruct (preemptableFn_victims AS _ q1 [r1; s1] [s1] Hv)
    as (_ & Hother & Hidem & _).
  split; [exact Hidem | exact (Hother p1)].
Defined.

Lemma gate_of_singleton_gang_witness :
  job_ok AS job_S /\ ji_MinAvailable job_S = 1
  /\ readyTaskNum AS job_S = 1
  /\ DeleteTaskInfo AS s1 job_S = Some (job_S_less, None)
  /\ preemptable AS job_S = true
  /\ jobReady AS (JobObj job_S_less) = Some false.
Proof.
  assert (Hdel : DeleteTaskInfo AS s1 job_S = Some (job_S_less, None))
    by (vm_compute; reflexivity).
  assert (Hone : readyTaskNum AS job_S = 1) by (vm_compute; reflexivity).
  split; [exact job_S_ok |]. split; [reflexivity |]. split; [exact Hone |].
  split; [exact Hdel |].
  destruct (gate_of_singleton_gang AS s1 s1 job_S job_S_less None job_S_ok
              ltac:(vm_compute; reflexivity) ltac:(vm_compute; reflexivity)
              ltac:(reflexivity) ltac:(reflexivity) Hone Hdel)
    as (Hpass & _ & _ & Hnot).
  split; [exact Hpass | exact Hnot].
Defined.

Lemma Clone_fixpoint_witness :
  keys_ok job_twice
  /\ job_ok AS (Clone_in AS (map_to_list (ji_Tasks job_twice)) job_twice).
Proof.
  assert (Hkeys : keys_ok job_twice) by compute_done.
  split; [exact Hkeys |].
  exact (proj1 (Clone_fixpoint AS (map_to_list (ji_Tasks job_twice))
                  job_twice Hkeys (reflexivity _))).
Defined.

Lemma FitError_without_reason_witness :
  ji_NodesFitDelta job_fit <> ∅
  /\ map_Forall (fun _ v => fits v) (ji_NodesFitDelta job_fit)
  /\ FitError job_fit = "0/1 nodes are available, .".
Proof.
  assert (Hne : ji_NodesFitDelta job_fit <> ∅).
  { intros Heq. apply (f_equal size) in Heq. vm_compute in Heq.
    discriminate. }
  assert (Hall : map_Forall (fun _ v => fits v) (ji_NodesFitDelta job_fit)).
  { apply map_Forall_insert; [reflexivity |].
    split; [vm_compute; intuition discriminate | apply map_Forall_empty]. }
  split; [exact Hne |]. split; [exact Hall |].
  etransitivity;
    [exact (proj2 (FitError_without_reason job_fit Hne Hall)) |].
  vm_compute. reflexivity.
Defined.


Lemma getJobID_injective_witness :
  no_slash (pod_Namespace pod_a) = true
  /\ getJobID group_key pod_a <> ""
  /\ getJobID group_key pod_a = getJobID group_key pod_b
  /\ pod_Annotations pod_a !! group_key = pod_Annotations pod_b !! group_key.
Proof.
  assert (Hne : getJobID group_key pod_a <> "") by (vm_compute; discriminate).
  assert (Heq : getJobID group_key pod_a = getJobID group_key pod_b)
    by (vm_compute; reflexivity).
  split; [reflexivity |]. split; [exact Hne |]. split; [exact Heq |].
  exact (proj2 (getJobID_injective group_key pod_a pod_b eq_refl eq_refl
                  Hne Heq)).
Defined.

End MoreSamples.
